(** * osmand2qgis-style: the point and road converters

    A shallow embedding of [osmand2qgis_point.py] and [osmand2qgis_road.py]
    and the properties of their rule extraction, attribute resolution,
    symbol construction and output assembly.

    Conventions of the embedding:
    - a Python [str] is a [string] of code points below 256, one character
      per code point; [str.strip], [int] and [float] are modelled on all of
      them, [str.title] on the ASCII ones;
    - a Python [float] is an IEEE 754 binary64 number, a [spec_float] with
      precision 53 and maximal exponent 1024;
    - a Python exception is a [Raise] result;
    - an lxml tree is a [node]: elements with ordered attributes, text,
      children and tail, and comments; namespaces, processing
      instructions and entities are left out;
    - the files read are a function from paths to contents, the files
      written a test on paths that tells whether writing succeeds. *)

From Stdlib Require Import ZArith NArith List String Ascii Bool Lia.
From Stdlib Require Import DecimalString SpecFloat Sorted.
Import ListNotations.

Open Scope string_scope.

(** ** Python results *)

Inductive exn : Type :=
| ValueError
| IndexError
| SyntaxError
| OSError.

Inductive result (A : Type) : Type :=
| Ok (a : A)
| Raise (e : exn).

Arguments Ok {A} a.
Arguments Raise {A} e.

Definition bind {A B : Type} (r : result A) (k : A -> result B) : result B :=
  match r with
  | Ok a => k a
  | Raise e => Raise e
  end.

Notation "x <- r ;; k" := (bind r (fun x => k))
  (at level 61, r at next level, right associativity).

(** ** Python strings *)

Module PyStr.

(** [str.isspace] on one character: TAB..CR, FS..US, the space, NEL
    (U+0085) and the no-break space (U+00A0). *)
Definition isspace (c : ascii) : bool :=
  let n := N_of_ascii c in
  (((9 <=? n) && (n <=? 13)) || ((28 <=? n) && (n <=? 32))
   || (n =? 133) || (n =? 160))%N.

Fixpoint lstrip (s : string) : string :=
  match s with
  | String c s' => if isspace c then lstrip s' else s
  | EmptyString => EmptyString
  end.

Fixpoint rstrip (s : string) : string :=
  match s with
  | EmptyString => EmptyString
  | String c s' =>
      match rstrip s' with
      | EmptyString => if isspace c then EmptyString else String c EmptyString
      | r => String c r
      end
  end.

(** [s.strip()] *)
Definition strip (s : string) : string := rstrip (lstrip s).

(** The whitespace that [int] and [float] pass over around a string:
    TAB..CR and the space, without FS..US, and the two spaces past ASCII,
    NEL and the no-break space, which they read as a space. *)
Definition c_isspace (c : ascii) : bool :=
  let n := N_of_ascii c in
  (((9 <=? n) && (n <=? 13)) || (n =? 32) || (n =? 133) || (n =? 160))%N.

Fixpoint c_lstrip (s : string) : string :=
  match s with
  | String c s' => if c_isspace c then c_lstrip s' else s
  | EmptyString => EmptyString
  end.

Fixpoint c_rstrip (s : string) : string :=
  match s with
  | EmptyString => EmptyString
  | String c s' =>
      match c_rstrip s' with
      | EmptyString =>
          if c_isspace c then EmptyString else String c EmptyString
      | r => String c r
      end
  end.

Definition c_strip (s : string) : string := c_rstrip (c_lstrip s).

(** [s.lstrip(ch)] for a one-character argument. *)
Fixpoint lstrip_char (ch : ascii) (s : string) : string :=
  match s with
  | String c s' => if Ascii.eqb c ch then lstrip_char ch s' else s
  | EmptyString => EmptyString
  end.

(** Truth value of a string: [if s:]. *)
Definition truthy (s : string) : bool :=
  match s with
  | EmptyString => false
  | String _ _ => true
  end.

(** [s.startswith(p)] *)
Definition startswith (p s : string) : bool := prefix p s.

(** [p in s] *)
Fixpoint contains (p s : string) : bool :=
  prefix p s ||
  match s with
  | EmptyString => false
  | String _ s' => contains p s'
  end.

(** [s[i:j]] for [0 <= i <= j]. *)
Definition slice (i j : nat) (s : string) : string := substring i (j - i) s.

Fixpoint drop (n : nat) (s : string) : string :=
  match n, s with
  | O, _ => s
  | S n', String _ s' => drop n' s'
  | S _, EmptyString => EmptyString
  end.

(** [s.replace(old, new)] for a non-empty [old]: the occurrences are
    replaced from left to right and do not overlap.  [skip] counts the
    characters of a matched occurrence still to be passed over. *)
Fixpoint replace_from (skip : nat) (old new s : string) : string :=
  match s with
  | EmptyString => EmptyString
  | String c s' =>
      match skip with
      | S k => replace_from k old new s'
      | O =>
          if prefix old s
          then new ++ replace_from (length old - 1) old new s'
          else String c (replace_from O old new s')
      end
  end.

Definition replace (old new s : string) : string := replace_from 0 old new s.

(** [s.split(sep)[0]] for a one-character [sep]. *)
Fixpoint split_head (sep : ascii) (s : string) : string :=
  match s with
  | EmptyString => EmptyString
  | String c s' =>
      if Ascii.eqb c sep then EmptyString else String c (split_head sep s')
  end.

Definition is_upper (c : ascii) : bool :=
  let n := N_of_ascii c in ((65 <=? n) && (n <=? 90))%N.

Definition is_lower (c : ascii) : bool :=
  let n := N_of_ascii c in ((97 <=? n) && (n <=? 122))%N.

Definition is_cased (c : ascii) : bool := is_upper c || is_lower c.

Definition upper (c : ascii) : ascii :=
  if is_lower c then ascii_of_N (N_of_ascii c - 32) else c.

Definition lower (c : ascii) : ascii :=
  if is_upper c then ascii_of_N (N_of_ascii c + 32) else c.

(** [s.title()]: a cased character is upper-cased after an uncased one
    (or at the start) and lower-cased after a cased one. *)
Fixpoint title_from (previous_is_cased : bool) (s : string) : string :=
  match s with
  | EmptyString => EmptyString
  | String c s' =>
      String (if previous_is_cased then lower c else upper c)
             (title_from (is_cased c) s')
  end.

Definition title (s : string) : string := title_from false s.

Definition nl : string := String "010"%char EmptyString.

(** [str(n)] for an [int]. *)
Definition of_int (n : Z) : string := NilZero.string_of_int (Z.to_int n).

Definition digit_char (d : Z) : ascii := ascii_of_N (48 + Z.to_N d).

(** The [n] low decimal digits of [v], zero padded. *)
Fixpoint digits_fixed (n : nat) (v : Z) : string :=
  match n with
  | O => EmptyString
  | S n' =>
      digits_fixed n' (v / 10) ++ String (digit_char (v mod 10)) EmptyString
  end.

Definition hex_digit (c : ascii) : option Z :=
  let n := N_of_ascii c in
  if ((48 <=? n) && (n <=? 57))%N then Some (Z.of_N (n - 48))
  else if ((97 <=? n) && (n <=? 102))%N then Some (Z.of_N (n - 87))
  else if ((65 <=? n) && (n <=? 70))%N then Some (Z.of_N (n - 55))
  else None.

(** Digits of [int(s, 16)]: single underscores may separate digits. *)
Fixpoint digits16_from (acc : Z) (after_underscore : bool) (s : string)
  : option Z :=
  match s with
  | EmptyString => if after_underscore then None else Some acc
  | String c s' =>
      if Ascii.eqb c "_"
      then if after_underscore then None else digits16_from acc true s'
      else match hex_digit c with
           | Some d => digits16_from (16 * acc + d) false s'
           | None => None
           end
  end.

Definition digits16 (s : string) : option Z :=
  match s with
  | EmptyString => None
  | String c _ => if Ascii.eqb c "_" then None else digits16_from 0 false s
  end.

(** [int(s, 16)]: surrounding whitespace, a sign, a [0x] prefix (with one
    underscore after it) and then the digits. *)
Definition int16 (s : string) : result Z :=
  let s := c_strip s in
  let '(negative, s) :=
    match s with
    | String "+" r => (false, r)
    | String "-" r => (true, r)
    | _ => (false, s)
    end in
  let s :=
    match s with
    | String "0" (String x r) =>
        if Ascii.eqb x "x" || Ascii.eqb x "X"
        then match r with
             | String "_" r' => r'
             | _ => r
             end
        else s
    | _ => s
    end in
  match digits16 s with
  | Some v => Ok (if negative then (- v)%Z else v)
  | None => Raise ValueError
  end.

Definition is_digit (c : ascii) : bool :=
  let n := N_of_ascii c in ((48 <=? n) && (n <=? 57))%N.

Definition digit_value (c : ascii) : Z := Z.of_N (N_of_ascii c - 48).

(** The value of a string of decimal digits. *)
Fixpoint decimal_from (acc : Z) (s : string) : Z :=
  match s with
  | EmptyString => acc
  | String c s' => decimal_from (10 * acc + digit_value c) s'
  end.

(** The longest prefix of decimal digits, and what follows it. *)
Fixpoint span_digits (s : string) : string * string :=
  match s with
  | EmptyString => (EmptyString, EmptyString)
  | String c s' =>
      if is_digit c
      then let '(ds, r) := span_digits s' in (String c ds, r)
      else (EmptyString, s)
  end.

(** [s.rstrip(ch)] for a one-character argument. *)
Fixpoint rstrip_char (ch : ascii) (s : string) : string :=
  match s with
  | EmptyString => EmptyString
  | String c s' =>
      match rstrip_char ch s' with
      | EmptyString =>
          if Ascii.eqb c ch then EmptyString else String c EmptyString
      | r => String c r
      end
  end.

Fixpoint repeat (c : ascii) (n : nat) : string :=
  match n with
  | O => EmptyString
  | S n' => String c (repeat c n')
  end.

Fixpoint map (f : ascii -> ascii) (s : string) : string :=
  match s with
  | EmptyString => EmptyString
  | String c s' => String (f c) (map f s')
  end.

End PyStr.

(** ** Python floats *)

Module PyFloat.

Definition float : Type := spec_float.

Definition prec : Z := 53.
Definition emax : Z := 1024.

Definition mul (x y : float) : float := SFmul prec emax x y.
Definition div (x y : float) : float := SFdiv prec emax x y.

(** [float(n)] for an [int] of magnitude below [2 ^ 1024]. *)
Definition of_int (n : Z) : float := binary_normalize prec emax n 0 false.

(** [a / b] on two [int]s with [b] non-zero and both below [2 ^ 53]. *)
Definition int_truediv (a b : Z) : float := div (of_int a) (of_int b).

Definition sign_str (s : bool) : string := if s then "-" else EmptyString.

(** The integer nearest to [num / den], ties to even; [den] positive. *)
Definition round_half_even (num den : Z) : Z :=
  let q := (num / den)%Z in
  match (2 * (num mod den) ?= den)%Z with
  | Lt => q
  | Gt => (q + 1)%Z
  | Eq => if Z.even q then q else (q + 1)%Z
  end.

(** [n / 10 ^ p] written with [p] decimals. *)
Definition fixed (p : nat) (n : Z) : string :=
  PyStr.of_int (n / 10 ^ Z.of_nat p) ++
  match p with
  | O => EmptyString
  | S _ => "." ++ PyStr.digits_fixed p n
  end.

(** [format(x, '.pf')]: the exact value of [x], rounded half to even at
    the [p]-th decimal. *)
Definition format_f (p : nat) (x : float) : string :=
  match x with
  | S754_nan => "nan"
  | S754_infinity s => sign_str s ++ "inf"
  | S754_zero s => sign_str s ++ fixed p 0
  | S754_finite s m e =>
      let scale := (10 ^ Z.of_nat p)%Z in
      let n :=
        match e with
        | Zneg k => round_half_even (Zpos m * scale) (2 ^ Zpos k)
        | _ => (Zpos m * 2 ^ e * scale)%Z
        end in
      sign_str s ++ fixed p n
  end.

(** *** [repr] of a float

    The digits are the shortest decimal string that reads back as the
    same float, the nearest to it among the shortest.  [x = xn / d] is the
    float and [ln / d], [hn / d] are the ends of the interval of reals
    that round to it; the ends belong to it when the mantissa is even. *)

Definition digits10 (n : Z) : Z := Z.of_nat (length (PyStr.of_int n)).

Section Shortest.
Variables (xn ln hn d : Z) (inclusive : bool) (decpt : Z).

Definition within (a b : Z) : bool :=
  if inclusive then (a <=? b)%Z else (a <? b)%Z.

(** The [n]-digit candidate for [x], if one lies in the interval. *)
Definition candidate (n : Z) : option Z :=
  let k := (n - decpt)%Z in
  let sn := (10 ^ Z.max 0 k)%Z in
  let sd := (10 ^ Z.max 0 (- k))%Z in
  let a := (xn * sn)%Z in
  let b := (d * sd)%Z in
  let dl := (a / b)%Z in
  let dh := (dl + 1)%Z in
  let low_ok := within (ln * sn) (dl * b) in
  let high_ok := within (dh * b) (hn * sn) in
  if (a mod b =? 0)%Z then Some dl
  else
    match low_ok, high_ok with
    | true, true =>
        match (a - dl * b ?= dh * b - a)%Z with
        | Lt => Some dl
        | Gt => Some dh
        | Eq => Some (if Z.even dl then dl else dh)
        end
    | true, false => Some dl
    | false, true => Some dh
    | false, false => None
    end.

Fixpoint shortest_from (fuel : nat) (n : Z) : Z * Z :=
  match fuel with
  | O => ((xn * 10 ^ Z.max 0 (n - decpt)) / (d * 10 ^ Z.max 0 (decpt - n)), n)%Z
  | S fuel' =>
      match candidate n with
      | Some v => (v, n)
      | None => shortest_from fuel' (n + 1)%Z
      end
  end.
End Shortest.

(** Digits and decimal point position of the finite positive [m * 2 ^ e]:
    the float is [0.d1d2...dn * 10 ^ decpt]. *)
Definition shortest (m : positive) (e : Z) : string * Z :=
  let up := (2 ^ Z.max 0 (e - 2))%Z in
  let d := (2 ^ Z.max 0 (2 - e))%Z in
  let boundary := (Zpos m =? 2 ^ 52)%Z && (-1074 <? e)%Z in
  let xn := (4 * Zpos m * up)%Z in
  let ln := ((4 * Zpos m - (if boundary then 1 else 2)) * up)%Z in
  let hn := ((4 * Zpos m + 2) * up)%Z in
  let decpt :=
    if (d <=? xn)%Z then digits10 (xn / d) else (1 - digits10 (d / xn))%Z in
  let '(v, n) := shortest_from xn ln hn d (Z.even (Zpos m)) decpt 17 1 in
  (PyStr.rstrip_char "0" (PyStr.of_int v), (decpt + (digits10 v - n))%Z).

Definition exponent_str (e : Z) : string :=
  (if (e <? 0)%Z then "-" else "+") ++
  (if (Z.abs e <? 10)%Z then "0" else EmptyString) ++ PyStr.of_int (Z.abs e).

(** The layout of [repr]: exponent notation when [decpt] is outside
    [-3 .. 16], and [.0] after an integral value otherwise. *)
Definition repr_layout (ds : string) (decpt : Z) : string :=
  let n := Z.of_nat (length ds) in
  if ((decpt <=? -4) || (16 <? decpt))%Z then
    match ds with
    | String c EmptyString =>
        String c EmptyString ++ "e" ++ exponent_str (decpt - 1)
    | String c r =>
        String c EmptyString ++ "." ++ r ++ "e" ++ exponent_str (decpt - 1)
    | EmptyString => EmptyString
    end
  else if (decpt <=? 0)%Z then
    "0." ++ PyStr.repeat "0" (Z.to_nat (- decpt)) ++ ds
  else if (decpt <? n)%Z then
    PyStr.slice 0 (Z.to_nat decpt) ds ++ "." ++ PyStr.drop (Z.to_nat decpt) ds
  else ds ++ PyStr.repeat "0" (Z.to_nat (decpt - n)) ++ ".0".

(** [str(x)], which is [repr(x)] *)
Definition repr (x : float) : string :=
  match x with
  | S754_nan => "nan"
  | S754_infinity s => sign_str s ++ "inf"
  | S754_zero s => sign_str s ++ "0.0"
  | S754_finite s m e =>
      let '(ds, decpt) := shortest m e in
      sign_str s ++ repr_layout ds decpt
  end.

(** *** [float(s)] on a string *)

(** The float nearest to [n * 10 ^ k], ties to even, for [n] positive. *)
Definition of_decimal (negative : bool) (n k : Z) : float :=
  let p := (n * 10 ^ Z.max 0 k)%Z in
  let q := (10 ^ Z.max 0 (- k))%Z in
  let t := (Zdigits2 p - Zdigits2 q)%Z in
  let e := (fexp prec emax t - 2)%Z in
  let num := (p * 2 ^ Z.max 0 (- e))%Z in
  let den := (q * 2 ^ Z.max 0 e)%Z in
  let m := (num / den)%Z in
  let r := (num mod den)%Z in
  let loc :=
    if (r =? 0)%Z then loc_Exact else loc_Inexact (2 * r ?= den)%Z in
  binary_round_aux prec emax negative m e loc.

(** Underscores may only stand between two digits; they are removed. *)
Fixpoint remove_underscores (prev : ascii) (s : string) : option string :=
  match s with
  | EmptyString =>
      if Ascii.eqb prev "_" then None else Some EmptyString
  | String c s' =>
      if Ascii.eqb c "_" then
        if PyStr.is_digit prev then remove_underscores c s' else None
      else if Ascii.eqb prev "_" && negb (PyStr.is_digit c) then None
      else option_map (String c) (remove_underscores c s')
  end.

(** The exponent part: empty, or [e], an optional sign and digits. *)
Definition parse_exponent (s : string) : option Z :=
  match s with
  | EmptyString => Some 0%Z
  | String c r =>
      if Ascii.eqb c "e" || Ascii.eqb c "E" then
        let '(negative, r) :=
          match r with
          | String "+" r' => (false, r')
          | String "-" r' => (true, r')
          | _ => (false, r)
          end in
        match PyStr.span_digits r with
        | (String _ _ as ds, EmptyString) =>
            let v := PyStr.decimal_from 0 ds in
            Some (if negative then (- v)%Z else v)
        | _ => None
        end
      else None
  end.

Definition parse_decimal (negative : bool) (s : string) : option float :=
  let '(int_part, r) := PyStr.span_digits s in
  let '(frac_part, r) :=
    match r with
    | String "." r' => PyStr.span_digits r'
    | _ => (EmptyString, r)
    end in
  match (int_part ++ frac_part)%string with
  | EmptyString => None
  | ds =>
      match parse_exponent r with
      | Some ex =>
          let n := PyStr.decimal_from 0 ds in
          if (n =? 0)%Z then Some (S754_zero negative)
          else Some (of_decimal negative n (ex - Z.of_nat (length frac_part)))
      | None => None
      end
  end.

(** [float(s)] *)
Definition of_str (s : string) : result float :=
  match remove_underscores "000" (PyStr.c_strip s) with
  | None => Raise ValueError
  | Some s =>
      let '(negative, s) :=
        match s with
        | String "+" r => (false, r)
        | String "-" r => (true, r)
        | _ => (false, s)
        end in
      let low := PyStr.map PyStr.lower s in
      if String.eqb low "inf" || String.eqb low "infinity"
      then Ok (S754_infinity negative)
      else if String.eqb low "nan" then Ok S754_nan
      else match parse_decimal negative s with
           | Some x => Ok x
           | None => Raise ValueError
           end
  end.

(** A float literal of the source. *)
Definition literal (s : string) : float :=
  match of_str s with
  | Ok x => x
  | Raise _ => S754_nan
  end.

End PyFloat.

(** ** lxml trees *)

Module Xml.

Definition attribs : Type := list (string * string).

(** An element keeps its attributes in document order; [text] is what
    precedes the first child and [tail] what follows the node.  An absent
    text is the empty string. *)
#[warnings="-register-all"] Inductive node : Type :=
| Element (tag : string) (attrib : attribs) (text : string)
          (children : list node) (tail : string)
| Comment (body : string) (tail : string).

Definition dquote : string := String "034"%char EmptyString.

(** [attrib.get(key)] *)
Fixpoint get (key : string) (a : attribs) : option string :=
  match a with
  | [] => None
  | (k, v) :: a' => if String.eqb k key then Some v else get key a'
  end.

(** [key in attrib] *)
Definition has (key : string) (a : attribs) : bool :=
  match get key a with
  | Some _ => true
  | None => false
  end.

(** [attrib.get(key, default)] *)
Definition get_default (key default : string) (a : attribs) : string :=
  match get key a with
  | Some v => v
  | None => default
  end.

(** [elem.set(key, value)]: a new key goes last, a known key keeps its
    place. *)
Fixpoint set (key value : string) (a : attribs) : attribs :=
  match a with
  | [] => [(key, value)]
  | (k, v) :: a' =>
      if String.eqb k key then (k, value) :: a'
      else (k, v) :: set key value a'
  end.

(** A fresh element after a sequence of [set] calls and [SubElement]s. *)
Definition element (tag : string) (sets : attribs) (children : list node)
  : node :=
  Element tag (fold_left (fun a kv => set (fst kv) (snd kv) a) sets [])
          EmptyString children EmptyString.

Definition attrib_of (n : node) : attribs :=
  match n with
  | Element _ a _ _ _ => a
  | Comment _ _ => []
  end.

Definition children_of (n : node) : list node :=
  match n with
  | Element _ _ _ cs _ => cs
  | Comment _ _ => []
  end.

Definition tail_of (n : node) : string :=
  match n with
  | Element _ _ _ _ t => t
  | Comment _ t => t
  end.

Definition set_tail (t : string) (n : node) : node :=
  match n with
  | Element tag a text cs _ => Element tag a text cs t
  | Comment b _ => Comment b t
  end.

(** [elem.tag == name]; the tag of a comment is not a string. *)
Definition is_tag (name : string) (n : node) : bool :=
  match n with
  | Element tag _ _ _ _ => String.eqb tag name
  | Comment _ _ => false
  end.

(** A node of a parsed document: the node, the chain of its ancestors
    (the parent first, the root last) and the child indexes leading to it
    from the node the search started at. *)
Record ref : Type := mkRef {
  path : list nat;
  self : node;
  parents : list node
}.

Definition under (i : nat) (r : ref) : ref :=
  mkRef (i :: path r) (self r) (parents r).

(** [elem.getparent()] *)
Definition getparent (r : ref) : option ref :=
  match parents r with
  | [] => None
  | p :: up => Some (mkRef (removelast (path r)) p up)
  end.

(** [elem.iter()]: the node and its descendants in document order. *)
Fixpoint iter_from (ups : list node) (n : node) : list ref :=
  mkRef [] n ups ::
  match n with
  | Element _ _ _ cs _ =>
      (fix below (i : nat) (cs : list node) : list ref :=
         match cs with
         | [] => []
         | c :: cs' =>
             (List.map (under i) (iter_from (n :: ups) c) ++ below (S i) cs')%list
         end) 0%nat cs
  | Comment _ _ => []
  end.

(** The proper descendants of a node, in document order: what the step
    [.//] of a path ranges over. *)
Definition descendants (r : ref) : list ref :=
  List.map (fun d => mkRef (path r ++ path d) (self d) (parents d))
           (tl (iter_from (parents r) (self r))).

Definition root_ref (root : node) : ref := mkRef [] root [].

(** [elem.xpath('.//name')] followed by attribute predicates. *)
Definition select (name : string) (pred : attribs -> bool) (r : ref)
  : list ref :=
  filter (fun d => is_tag name (self d) && pred (attrib_of (self d)))
         (descendants r).

(** The node reached from [n] along a path of child indexes. *)
Fixpoint lookup (n : node) (p : list nat) : option node :=
  match p with
  | [] => Some n
  | i :: p' =>
      match nth_error (children_of n) i with
      | Some c => lookup c p'
      | None => None
      end
  end.

(** The nodes passed on the way from [n] along [p], the last one first,
    on top of [ups]. *)
Fixpoint chain (ups : list node) (n : node) (p : list nat) : list node :=
  match p with
  | [] => ups
  | i :: p' =>
      match nth_error (children_of n) i with
      | Some c => chain (n :: ups) c p'
      | None => ups
      end
  end.

(** Document order on paths: a node precedes its descendants and the
    subtrees of its later siblings. *)
Fixpoint before (p q : list nat) : Prop :=
  match p, q with
  | [], [] => False
  | [], _ :: _ => True
  | _ :: _, [] => False
  | i :: p', j :: q' => (i < j)%nat \/ (i = j /\ before p' q')
  end.

(** *** Serialization *)

Fixpoint escape (table : ascii -> option string) (s : string) : string :=
  match s with
  | EmptyString => EmptyString
  | String c s' =>
      match table c with
      | Some e => e ++ escape table s'
      | None => String c (escape table s')
      end
  end.

Definition text_entity (c : ascii) : option string :=
  if Ascii.eqb c "&" then Some "&amp;"
  else if Ascii.eqb c "<" then Some "&lt;"
  else if Ascii.eqb c ">" then Some "&gt;"
  else if Ascii.eqb c "013" then Some "&#13;"
  else None.

Definition attr_entity (c : ascii) : option string :=
  if Ascii.eqb c "034" then Some "&quot;"
  else if Ascii.eqb c "009" then Some "&#9;"
  else if Ascii.eqb c "010" then Some "&#10;"
  else text_entity c.

Definition escape_text : string -> string := escape text_entity.
Definition escape_attr : string -> string := escape attr_entity.

Fixpoint attribs_str (a : attribs) : string :=
  match a with
  | [] => EmptyString
  | (k, v) :: a' =>
      " " ++ k ++ "=" ++ dquote ++ escape_attr v ++ dquote ++ attribs_str a'
  end.

(** [etree.tostring(n, encoding='unicode')], the tail included. *)
Fixpoint tostring (n : node) : string :=
  match n with
  | Element tag a text cs tail =>
      "<" ++ tag ++ attribs_str a ++
      match text, cs with
      | EmptyString, [] => "/>"
      | _, _ =>
          ">" ++ escape_text text ++
          (fix all (cs : list node) : string :=
             match cs with
             | [] => EmptyString
             | c :: cs' => tostring c ++ all cs'
             end) cs ++
          "</" ++ tag ++ ">"
      end ++ escape_text tail
  | Comment body tail => "<!--" ++ body ++ "-->" ++ escape_text tail
  end.

(** Serialization of the node alone, as the root of a written tree. *)
Definition tostring_root (n : node) : string := tostring (set_tail EmptyString n).

Definition has_text_child (n : node) : bool :=
  match n with
  | Element _ _ text cs _ =>
      PyStr.truthy text || existsb (fun c => PyStr.truthy (tail_of c)) cs
  | Comment _ _ => false
  end.

(** [etree.tostring(n, pretty_print=True)] without the final newline:
    the children of an element are put on lines of their own, two spaces
    deeper, as long as no text stands between them. *)
Fixpoint pretty (format : bool) (level : nat) (n : node) : string :=
  match n with
  | Element tag a text cs _ =>
      let format := format && negb (has_text_child n) in
      "<" ++ tag ++ attribs_str a ++
      match text, cs with
      | EmptyString, [] => "/>"
      | _, _ =>
          ">" ++ escape_text text ++
          (if format then String "010" EmptyString else EmptyString) ++
          (fix all (cs : list node) : string :=
             match cs with
             | [] => EmptyString
             | c :: cs' =>
                 (if format
                  then PyStr.repeat " " (2 * S level) ++
                       pretty format (S level) c ++ String "010" EmptyString
                  else pretty format (S level) c ++ escape_text (tail_of c))
                 ++ all cs'
             end) cs ++
          (if format then PyStr.repeat " " (2 * level) else EmptyString) ++
          "</" ++ tag ++ ">"
      end
  | Comment body _ => "<!--" ++ body ++ "-->"
  end.

(** *** [etree.indent(tree, space="  ")] *)

Definition indentation (level : nat) : string :=
  String "010" (PyStr.repeat " " (2 * level)).

(** [not s or not s.strip()] *)
Definition blank (s : string) : bool := negb (PyStr.truthy (PyStr.strip s)).

Fixpoint indent_children (level : nat) (elem : node) : node :=
  match elem with
  | Element tag a text ((_ :: _) as cs) tail =>
      let child_indentation := indentation (S level) in
      Element tag a
        (if blank text then child_indentation else text)
        ((fix each (cs : list node) : list node :=
            match cs with
            | [] => []
            | c :: cs' =>
                let c := indent_children (S level) c in
                let t :=
                  if blank (tail_of c) then
                    match cs' with
                    | [] => indentation level
                    | _ :: _ => child_indentation
                    end
                  else tail_of c in
                set_tail t c :: each cs'
            end) cs)
        tail
  | _ => elem
  end.

Definition indent (tree : node) : node := indent_children 0 tree.

End Xml.

(** ** Files and base64 *)

Module Base64.

Definition alphabet : string :=
  "ABCDEFGHIJKLMNOPQRSTUVWXYZabcdefghijklmnopqrstuvwxyz0123456789+/".

Definition sextet (i : N) : ascii :=
  match String.get (N.to_nat i) alphabet with
  | Some c => c
  | None => "="%char
  end.

(** [base64.b64encode(data).decode("utf-8")] *)
Fixpoint b64encode (data : string) : string :=
  match data with
  | EmptyString => EmptyString
  | String a EmptyString =>
      let x := N_of_ascii a in
      String (sextet (N.shiftr x 2))
        (String (sextet (N.shiftl (N.land x 3) 4)) "==")
  | String a (String b EmptyString) =>
      let x := N_of_ascii a in
      let y := N_of_ascii b in
      String (sextet (N.shiftr x 2))
        (String (sextet (N.lor (N.shiftl (N.land x 3) 4) (N.shiftr y 4)))
           (String (sextet (N.shiftl (N.land y 15) 2)) "="))
  | String a (String b (String c rest)) =>
      let x := N_of_ascii a in
      let y := N_of_ascii b in
      let z := N_of_ascii c in
      String (sextet (N.shiftr x 2))
        (String (sextet (N.lor (N.shiftl (N.land x 3) 4) (N.shiftr y 4)))
           (String (sextet (N.lor (N.shiftl (N.land y 15) 2) (N.shiftr z 6)))
              (String (sextet (N.land z 63)) (b64encode rest))))
  end.

End Base64.


(** ** The point converter *)

Module Point.
Import Xml.

(** One [Option] element with its [type], [value] and [name] set. *)
Definition option_elem (name opt_type value : string) : node :=
  element "Option" [("type", opt_type); ("value", value); ("name", name)] [].

(** The [data_defined_properties] block that follows every symbol head and
    every layer. *)
Definition data_defined_properties : node :=
  element "data_defined_properties" []
    [element "Option" [("type", "Map")]
       [option_elem "name" "QString" EmptyString;
        element "Option" [("name", "properties")] [];
        option_elem "type" "QString" "collection"]].

Definition marker_options (svg outline_width size : string)
  : list (string * string * string) :=
  [ ("angle", "QString", "0");
    ("color", "QString", "255,255,255,255,rgb:1,1,1,1");
    ("fixedAspectRatio", "QString", "0");
    ("horizontal_anchor_point", "QString", "1");
    ("name", "QString", svg);
    ("offset", "QString", "0,0");
    ("offset_map_unit_scale", "QString", "3x:0,0,0,0,0,0");
    ("offset_unit", "QString", "MM");
    ("outline_color", "QString", "255,255,255,255,rgb:1,1,1,1");
    ("outline_width", "QString", outline_width);
    ("outline_width_map_unit_scale", "QString", "3x:0,0,0,0,0,0");
    ("outline_width_unit", "QString", "MM");
    ("scale_method", "QString", "diameter");
    ("size", "QString", size);
    ("size_map_unit_scale", "QString", "3x:0,0,0,0,0,0");
    ("size_unit", "QString", "MM");
    ("vertical_anchor_point", "QString", "1") ].

Definition shield_options (shield_base64 : string) :=
  marker_options shield_base64 "0.4" "6.8".

Definition icon_options (icon_base64 : string) :=
  marker_options icon_base64 "0.1" "4.4".

(** A [layer] of class [SvgMarker]: the option map, closed by the
    [parameters] option, then the data defined properties. *)
Definition marker_layer (pass : string)
  (options : list (string * string * string)) : node :=
  element "layer"
    [("pass", pass); ("enabled", "1"); ("class", "SvgMarker"); ("locked", "0")]
    [element "Option" [("type", "Map")]
       (List.map (fun o => option_elem (fst (fst o)) (snd (fst o)) (snd o))
                 options
        ++ [element "Option" [("name", "parameters")] []])%list;
     data_defined_properties].

(** [create_qgis_symbol(value, icon_base64, shield_base64)] *)
Definition create_qgis_symbol (value icon_base64 shield_base64 : string)
  : node :=
  element "symbol"
    [("type", "marker"); ("frame_rate", "10"); ("tags", "OSMAnd");
     ("clip_to_extent", "1"); ("is_animated", "0"); ("force_rhr", "0");
     ("name", value); ("alpha", "1")]
    [data_defined_properties;
     marker_layer "0" (shield_options shield_base64);
     marker_layer "0" (icon_options icon_base64)].

(** The [while parent is not None] loop of [find_shield_value], on the
    chain of parents. *)
Fixpoint walk_up (ups : list node) : option string :=
  match ups with
  | [] => None
  | parent :: ups' =>
      if is_tag "switch" parent && has "shield" (attrib_of parent)
      then get "shield" (attrib_of parent)
      else if is_tag "apply" parent && has "shield" (attrib_of parent)
      then get "shield" (attrib_of parent)
      else walk_up ups'
  end.

(** [find_shield_value(case_element)]; [None] is Python's [None]. *)
Definition find_shield_value (case_element : ref) : option string :=
  if has "shield" (attrib_of (self case_element))
  then get "shield" (attrib_of (self case_element))
  else walk_up (parents case_element).

(** [root.findall(".//case[@tag][@value][@icon]")] *)
Definition findall_cases (root : node) : list ref :=
  select "case" (fun a => has "tag" a && has "value" a && has "icon" a)
         (root_ref root).

(** The three stripped attributes read at the head of the loop of [main]. *)
Definition icon_name_of (c : ref) : string :=
  PyStr.strip (get_default "icon" EmptyString (attrib_of (self c))).
Definition tag_of (c : ref) : string :=
  PyStr.strip (get_default "tag" EmptyString (attrib_of (self c))).
Definition value_of (c : ref) : string :=
  PyStr.strip (get_default "value" EmptyString (attrib_of (self c))).

(** [not tag or not value or not icon_name] *)
Definition incomplete (c : ref) : bool :=
  negb (PyStr.truthy (tag_of c)) || negb (PyStr.truthy (value_of c))
  || negb (PyStr.truthy (icon_name_of c)).

(** The point rules: the cases the loop of [main] does not pass over at
    its first test. *)
Definition point_rules (root : node) : list ref :=
  filter (fun c => negb (incomplete c)) (findall_cases root).

Definition symbol_name_of (c : ref) : string :=
  tag_of c ++ ":" ++ value_of c.

Record stats : Type := mkStats {
  processed_count : nat;
  skipped_no_shield : nat;
  skipped_no_files : nat;
  skipped_duplicates : nat
}.

Record state : Type := mkState {
  symbols : list node;
  counts : stats
}.

Definition symbols_container (st : state) : node :=
  element "symbols" [] (symbols st).

(** What is left open of lxml: what
    [findall(".//symbol[@name='NAME']")] does when [NAME] holds an
    apostrophe, which ends the quoted value early, for the names that are
    of neither of the two kinds treated by [quoted_early]. *)
Record lxml : Type := mkLxml {
  findall_apostrophe : node -> string -> result bool
}.

(** What precedes the first apostrophe of [s] and what follows it. *)
Fixpoint split_apostrophe (s : string) : option (string * string) :=
  match s with
  | EmptyString => None
  | String c s' =>
      if Ascii.eqb c "'" then Some (EmptyString, s')
      else
        match split_apostrophe s' with
        | Some (a, b) => Some (String c a, b)
        | None => None
        end
  end.

(** A text of ASCII letters. *)
Fixpoint letters (s : string) : bool :=
  match s with
  | EmptyString => true
  | String c s' => PyStr.is_cased c && letters s'
  end.

(** The text [][@K='B] after the first apostrophe of a name: it closes
    the predicate on the name and opens a second one, on the attribute
    [K], a word of letters, with the value [B], which holds no apostrophe.
    [K] and [B]. *)
Definition second_predicate (rest : string) : option (string * string) :=
  if prefix "][@" rest then
    let r := PyStr.drop 3 rest in
    let k := PyStr.split_head "=" r in
    let after := PyStr.drop (length k) r in
    if PyStr.truthy k && letters k && prefix "='" after
       && negb (PyStr.contains "'" (PyStr.drop 2 after))
    then Some (k, PyStr.drop 2 after)
    else None
  else None.

(** The query for a name with an apostrophe.  The path is the text
    [.//symbol[@name='NAME']]: the first apostrophe of the name closes the
    quoted value, and what follows it is read as path.  When no closing
    bracket and no further apostrophe follows, the predicate holds more
    than a name and a value and the path is refused with [SyntaxError]; when
    [][@K='B] follows, the path has the two predicates [[@name='A']] and
    [[@K='B']]. *)
Definition quoted_early (lib : lxml) (container : node)
  (symbol_name : string) : result bool :=
  match split_apostrophe symbol_name with
  | None => findall_apostrophe lib container symbol_name
  | Some (a, rest) =>
      if negb (PyStr.contains "'" rest) && negb (PyStr.contains "]" rest)
      then Raise SyntaxError
      else
        match second_predicate rest with
        | Some (k, b) =>
            Ok (match select "symbol"
                        (fun attrs =>
                           match get "name" attrs, get k attrs with
                           | Some v, Some w => String.eqb v a && String.eqb w b
                           | _, _ => false
                           end)
                        (root_ref container) with
                | [] => false
                | _ :: _ => true
                end)
        | None => findall_apostrophe lib container symbol_name
        end
  end.

(** [bool(symbols_container.findall(f".//symbol[@name='{symbol_name}']"))] *)
Definition existing_symbols (lib : lxml) (container : node)
  (symbol_name : string) : result bool :=
  if PyStr.contains "'" symbol_name
  then quoted_early lib container symbol_name
  else
    Ok (match select "symbol"
                (fun a =>
                   match get "name" a with
                   | Some v => String.eqb v symbol_name
                   | None => false
                   end)
                (root_ref container) with
        | [] => false
        | _ :: _ => true
        end).

Definition icons_dir : string :=
  "OsmAnd-resources/rendering_styles/style-icons/poi-icons-svg".
Definition shields_dir : string := "OsmAnd-resources/icons/svg/shields".

(** [join(dir, name)] for a [name] that does not start with a slash. *)
Definition join (dir name : string) : string := dir ++ "/" ++ name.

Definition bump_duplicates (st : state) : state :=
  let c := counts st in
  mkState (symbols st)
    (mkStats (processed_count c) (skipped_no_shield c) (skipped_no_files c)
             (S (skipped_duplicates c))).

Definition bump_no_shield (st : state) : state :=
  let c := counts st in
  mkState (symbols st)
    (mkStats (processed_count c) (S (skipped_no_shield c))
             (skipped_no_files c) (skipped_duplicates c)).

Definition bump_no_files (st : state) : state :=
  let c := counts st in
  mkState (symbols st)
    (mkStats (processed_count c) (skipped_no_shield c)
             (S (skipped_no_files c)) (skipped_duplicates c)).

Definition append_symbol (symbol : node) (st : state) : state :=
  let c := counts st in
  mkState (symbols st ++ [symbol])%list
    (mkStats (S (processed_count c)) (skipped_no_shield c)
             (skipped_no_files c) (skipped_duplicates c)).

(** One turn of the loop [for c in cases] of [main].  [files] maps a path
    to the content of the file, when the file exists. *)
Definition step (lib : lxml) (files : string -> option string)
  (st : state) (c : ref) : result state :=
  if incomplete c then Ok st
  else
    let symbol_name := symbol_name_of c in
    existing <- existing_symbols lib (symbols_container st) symbol_name ;;
    if (existing : bool) then Ok (bump_duplicates st)
    else
      match find_shield_value c with
      | None => Ok (bump_no_shield st)
      | Some shield =>
          if negb (PyStr.truthy shield) then Ok (bump_no_shield st)
          else
            match files (join icons_dir ("mx_" ++ icon_name_of c ++ ".svg")) with
            | None => Ok (bump_no_files st)
            | Some icon =>
                let icon_base64 := "base64:" ++ Base64.b64encode icon in
                match files (join shields_dir ("h_" ++ shield ++ ".svg")) with
                | None => Ok (bump_no_files st)
                | Some sh =>
                    let shield_base64 := "base64:" ++ Base64.b64encode sh in
                    Ok (append_symbol
                          (create_qgis_symbol symbol_name icon_base64
                                              shield_base64) st)
                end
            end
      end.

Fixpoint run (lib : lxml) (files : string -> option string)
  (st : state) (cases : list ref) : result state :=
  match cases with
  | [] => Ok st
  | c :: cases' => st' <- step lib files st c ;; run lib files st' cases'
  end.

Definition initial : state := mkState [] (mkStats 0 0 0 0).

(** The root of the output tree, its five empty sections after the
    symbols. *)
Definition qgis_style (syms : list node) : node :=
  element "qgis_style" [("version", "2")]
    [element "symbols" [] syms;
     element "colorramps" [] [];
     element "textformats" [] [];
     element "labelsettings" [] [];
     element "legendpatchshapes" [] [];
     element "symbols3d" [] []].

Definition xml_declaration : string :=
  "<?xml version='1.0' encoding='utf-8'?>".

(** [tree.write(output_path, encoding=encoding, xml_declaration=True)]:
    lxml writes the name of the encoding in upper case. *)
Definition write (encoding : string) (tree : node) : string :=
  "<?xml version='1.0' encoding='" ++ PyStr.map PyStr.upper encoding ++ "'?>"
  ++ PyStr.nl ++ tostring_root tree.

Definition doctype : string := "<!DOCTYPE qgis_style>".

(** [main()], from the parsed root to the content of [points.xml] and the
    four counters. *)
Definition main (lib : lxml) (files : string -> option string) (root : node)
  : result (string * state) :=
  st <- run lib files initial (findall_cases root) ;;
  let content := write "utf-8" (indent (qgis_style (symbols st))) in
  Ok (PyStr.replace xml_declaration
        (xml_declaration ++ PyStr.nl ++ doctype) content, st).

End Point.

(** ** The road converter *)

Module Road.
Import Xml.

(** A Python [dict] from strings to strings, in insertion order. *)
Definition dict : Type := list (string * string).

(** [hex_to_rgb(hex_color)] *)
Definition hex_to_rgb (hex_color : string) : result string :=
  let hex_color := PyStr.lstrip_char "#" hex_color in
  if Nat.eqb (length hex_color) 6 then
    r <- PyStr.int16 (PyStr.slice 0 2 hex_color) ;;
    g <- PyStr.int16 (PyStr.slice 2 4 hex_color) ;;
    b <- PyStr.int16 (PyStr.slice 4 6 hex_color) ;;
    Ok (PyStr.of_int r ++ "," ++ PyStr.of_int g ++ "," ++ PyStr.of_int b
        ++ ",255,rgb:"
        ++ PyFloat.format_f 10 (PyFloat.int_truediv r 255) ++ ","
        ++ PyFloat.format_f 10 (PyFloat.int_truediv g 255) ++ ","
        ++ PyFloat.format_f 10 (PyFloat.int_truediv b 255) ++ ",1")
  else Ok "0,0,0,255,rgb:0,0,0,1".

(** [resolve_color_variable(color_var, color_definitions)] *)
Definition resolve_color_variable (color_var : string)
  (color_definitions : dict) : string :=
  if PyStr.startswith "$" color_var then
    let var_name := PyStr.drop 1 color_var in
    match get var_name color_definitions with
    | Some v => v
    | None => "#000000"
    end
  else if PyStr.startswith "#" color_var then color_var
  else "#000000".

(** The number of attributes of a case other than [attrColorValue]. *)
Definition attr_count (a : attribs) : nat :=
  List.length
    (filter (fun kv => negb (String.eqb (fst kv) "attrColorValue")) a).

(** The loop that keeps the case with the fewest conditions; [None] for
    [min_attrs] is [float('inf')]. *)
Fixpoint best_case (min_attrs : option nat) (best : option node)
  (cases : list ref) : option node :=
  match cases with
  | [] => best
  | case :: cases' =>
      let a := attrib_of (self case) in
      let color_value := get_default "attrColorValue" EmptyString a in
      let fewer :=
        match min_attrs with
        | None => true
        | Some m => Nat.ltb (attr_count a) m
        end in
      if PyStr.truthy color_value && PyStr.startswith "#" color_value && fewer
      then best_case (Some (attr_count a)) (Some (self case)) cases'
      else best_case min_attrs best cases'
  end.

Fixpoint scan_attributes (color_defs : dict) (attrs : list ref) : dict :=
  match attrs with
  | [] => color_defs
  | attr :: attrs' =>
      let attr_name := get_default "name" EmptyString (attrib_of (self attr)) in
      let color_defs :=
        if PyStr.truthy attr_name && PyStr.contains "Color" attr_name then
          match best_case None None
                  (select "case" (has "attrColorValue") attr) with
          | Some case =>
              set attr_name
                  (get_default "attrColorValue" EmptyString (attrib_of case))
                  color_defs
          | None => color_defs
          end
        else color_defs in
      scan_attributes color_defs attrs'
  end.

Definition manual_colors : dict :=
  [ ("tertiaryRoadRouteDetailsColor", "#ffdb93");
    ("footwayColor", "#fa8c16");
    ("roadRoadColor", "#cdcdcd");
    ("bridlewayColor", "#c76817");
    ("pathColor", "#fa8c16");
    ("cyclewayColor", "#178fe5") ].

(** [extract_color_definitions(root)] *)
Definition extract_color_definitions (root : node) : dict :=
  fold_left
    (fun color_defs kv =>
       match get (fst kv) color_defs with
       | Some v =>
           if PyStr.startswith "#" v then color_defs
           else set (fst kv) (snd kv) color_defs
       | None => set (fst kv) (snd kv) color_defs
       end)
    manual_colors
    (scan_attributes []
       (select "renderingAttribute" (fun _ => true) (root_ref root))).

(** *** Stroke width *)

Definition stroke_width_attrs (zoom_level : Z) : list string :=
  [ "maxzoom=" ++ dquote ++ PyStr.of_int zoom_level ++ dquote
    ++ " strokeWidth=";
    "minzoom=" ++ dquote ++ PyStr.of_int zoom_level ++ dquote
    ++ " strokeWidth=";
    "strokeWidth=" ].

(** What precedes the first double quote of [s], if there is one. *)
Fixpoint until_quote (s : string) : option string :=
  match s with
  | EmptyString => None
  | String c s' =>
      if Ascii.eqb c "034" then Some EmptyString
      else option_map (String c) (until_quote s')
  end.

(** A match of the pattern, a quote, a value without quotes and a quote,
    at the head of [s]. *)
Definition match_here (attr_pattern s : string) : option string :=
  if prefix (attr_pattern ++ dquote) s
  then until_quote (PyStr.drop (length attr_pattern + 1) s)
  else None.

(** [re.search(attr_pattern + quoted value, s).group(1)], for a pattern
    of literal characters: the leftmost match. *)
Fixpoint re_search (attr_pattern s : string) : option string :=
  match match_here attr_pattern s with
  | Some v => Some v
  | None =>
      match s with
      | EmptyString => None
      | String _ s' => re_search attr_pattern s'
      end
  end.

(** The loop [for attr_pattern in stroke_width_attrs] on one case. *)
Fixpoint try_patterns (patterns : list string) (case_str : string)
  : option string :=
  match patterns with
  | [] => None
  | attr_pattern :: patterns' =>
      if PyStr.contains attr_pattern case_str then
        match re_search attr_pattern case_str with
        | Some width_str => Some width_str
        | None => try_patterns patterns' case_str
        end
      else try_patterns patterns' case_str
  end.

(** The loop [for case_child in apply_elem.xpath('.//case')]. *)
Fixpoint search_cases (patterns : list string) (cases : list ref)
  : option string :=
  match cases with
  | [] => None
  | case_child :: cases' =>
      match try_patterns patterns (tostring (self case_child)) with
      | Some width_str => Some width_str
      | None => search_cases patterns cases'
      end
  end.

(** The loop [for apply_elem in case_elem.xpath('.//apply')]. *)
Fixpoint search_applies (patterns : list string) (applies : list ref)
  : option string :=
  match applies with
  | [] => None
  | apply_elem :: applies' =>
      match search_cases patterns
              (select "case" (fun _ => true) apply_elem) with
      | Some width_str => Some width_str
      | None => search_applies patterns applies'
      end
  end.

(** The width of a matched value such as [4:4] or [4.5]. *)
Definition parse_width (width_str : string) : result PyFloat.float :=
  if PyStr.contains ":" width_str
  then PyFloat.of_str (PyStr.split_head ":" width_str)
  else PyFloat.of_str width_str.

Definition default_width : PyFloat.float := PyFloat.literal "2.0".

(** [extract_stroke_width_for_zoom(case_elem, zoom_level)] *)
Definition extract_stroke_width_for_zoom (case_elem : ref) (zoom_level : Z)
  : result PyFloat.float :=
  match search_applies (stroke_width_attrs zoom_level)
          (select "apply" (fun _ => true) case_elem) with
  | Some width_str => parse_width width_str
  | None => Ok default_width
  end.

(** *** Road rules *)

Record road_info : Type := mkRoad {
  tag : string;
  value : string;
  color : string;
  symbol_name : string;
  stroke_width : option PyFloat.float
}.

(** ["Road " + value.replace('_', ' ').title()] *)
Definition road_symbol_name (value : string) : string :=
  "Road " ++ PyStr.title (PyStr.replace "_" " " value).

(** [value in processed_highways] *)
Definition processed (value : string) (seen : list string) : bool :=
  existsb (String.eqb value) seen.

(** The state of the two loops: the roads found and the values seen. *)
Definition roads_state : Type := list road_info * list string.

(** One highway case of a switch. *)
Definition visit_case (color_definitions : dict) (st : roads_state)
  (case : ref) : result roads_state :=
  let a := attrib_of (self case) in
  let tag := get_default "tag" EmptyString a in
  let value := get_default "value" EmptyString a in
  let color_attr := get_default "color" EmptyString a in
  if String.eqb tag "highway" && PyStr.truthy value && PyStr.truthy color_attr
     && negb (processed value (snd st))
  then
    let resolved_color := resolve_color_variable color_attr color_definitions in
    stroke_width <- extract_stroke_width_for_zoom case 16 ;;
    Ok ((fst st ++ [mkRoad tag value resolved_color (road_symbol_name value)
                           (Some stroke_width)])%list,
        value :: snd st)
  else Ok st.

Fixpoint visit_cases (color_definitions : dict) (st : roads_state)
  (cases : list ref) : result roads_state :=
  match cases with
  | [] => Ok st
  | case :: cases' =>
      st' <- visit_case color_definitions st case ;;
      visit_cases color_definitions st' cases'
  end.

Definition highway_cases (switch : ref) : list ref :=
  select "case"
    (fun a => match get "tag" a with
              | Some t => String.eqb t "highway"
              | None => false
              end && has "value" a && has "color" a)
    switch.

Fixpoint visit_switches (color_definitions : dict) (st : roads_state)
  (switches : list ref) : result roads_state :=
  match switches with
  | [] => Ok st
  | switch :: switches' =>
      st' <- visit_cases color_definitions st (highway_cases switch) ;;
      visit_switches color_definitions st' switches'
  end.

(** The supplementary roads: value, colour variable and width. *)
Definition additional_roads : list (string * string * PyFloat.float) :=
  [ ("service", "$serviceRoadColor", PyFloat.literal "1.5");
    ("pedestrian", "$pedestrianRoadColor", PyFloat.literal "1.2");
    ("footway", "$footwayColor", PyFloat.literal "1.0");
    ("cycleway", "$cyclewayColor", PyFloat.literal "1.0");
    ("path", "$pathColor", PyFloat.literal "1.0");
    ("bridleway", "$bridlewayColor", PyFloat.literal "1.0");
    ("steps", "$footwayColor", PyFloat.literal "1.0");
    ("living_street", "$residentialRoadColor", PyFloat.literal "1.8");
    ("road", "$roadRoadColor", PyFloat.literal "1.5") ].

(** The loop over [additional_roads]; it reads the values seen and does
    not add to them. *)
Fixpoint add_roads (color_definitions : dict) (seen : list string)
  (roads : list road_info) (more : list (string * string * PyFloat.float))
  : list road_info :=
  match more with
  | [] => roads
  | (v, color_var, width) :: more' =>
      if negb (processed v seen)
      then add_roads color_definitions seen
             (roads ++ [mkRoad "highway" v
                          (resolve_color_variable color_var color_definitions)
                          (road_symbol_name v) (Some width)])%list
             more'
      else add_roads color_definitions seen roads more'
  end.

(** [line_section.xpath('.//switch[@minzoom="14"]')] *)
Definition high_zoom_switches (line_section : ref) : list ref :=
  select "switch"
    (fun a => match get "minzoom" a with
              | Some z => String.eqb z "14"
              | None => false
              end)
    line_section.

(** [extract_road_info(root, color_definitions)] *)
Definition extract_road_info (root : node) (color_definitions : dict)
  : result (list road_info) :=
  match select "line" (fun _ => true) (root_ref root) with
  | [] => Raise IndexError
  | line_section :: _ =>
      st <- visit_switches color_definitions ([], [])
                           (high_zoom_switches line_section) ;;
      Ok (add_roads color_definitions (snd st) (fst st) additional_roads)
  end.

(** *** Road symbols *)

Definition data_defined_properties : node :=
  element "data_defined_properties" []
    [element "Option" [("type", "Map")]
       [element "Option"
          [("type", "QString"); ("value", EmptyString); ("name", "name")] [];
        element "Option" [("name", "properties")] [];
        element "Option"
          [("type", "QString"); ("value", "collection"); ("name", "type")] []]].

(** The properties of a [SimpleLine] layer, in the order of the source. *)
Definition line_props (capstyle joinstyle line_color line_width : string)
  : dict :=
  [ ("align_dash_pattern", "0");
    ("capstyle", capstyle);
    ("customdash", "5;2");
    ("customdash_map_unit_scale", "3x:0,0,0,0,0,0");
    ("customdash_unit", "MM");
    ("dash_pattern_offset", "0");
    ("dash_pattern_offset_map_unit_scale", "3x:0,0,0,0,0,0");
    ("dash_pattern_offset_unit", "MM");
    ("draw_inside_polygon", "0");
    ("joinstyle", joinstyle);
    ("line_color", line_color);
    ("line_style", "solid");
    ("line_width", line_width);
    ("line_width_unit", "MM");
    ("offset", "0");
    ("offset_map_unit_scale", "3x:0,0,0,0,0,0");
    ("offset_unit", "MM");
    ("ring_filter", "0");
    ("trim_distance_end", "0");
    ("trim_distance_end_map_unit_scale", "3x:0,0,0,0,0,0");
    ("trim_distance_end_unit", "MM");
    ("trim_distance_start", "0");
    ("trim_distance_start_map_unit_scale", "3x:0,0,0,0,0,0");
    ("trim_distance_start_unit", "MM");
    ("tweak_dash_pattern_on_corners", "0");
    ("use_custom_dash", "0");
    ("width_map_unit_scale", "3x:0,0,0,0,0,0") ].

Definition line_layer (pass : string) (props : dict) : node :=
  element "layer"
    [("pass", pass); ("enabled", "1"); ("class", "SimpleLine"); ("locked", "0")]
    [element "Option" [("type", "Map")]
       (List.map
          (fun kv =>
             element "Option"
               [("type", "QString"); ("value", snd kv); ("name", fst kv)] [])
          props);
     data_defined_properties].

Definition default_ratio : PyFloat.float := PyFloat.literal "0.8".

(** [create_qgis_symbol(road_info, main_width_ratio)] *)
Definition create_qgis_symbol (road : road_info)
  (main_width_ratio : PyFloat.float) : result node :=
  let stroke_width :=
    match stroke_width road with
    | Some w => w
    | None => PyFloat.literal "1.5"
    end in
  stroke_color <- hex_to_rgb "#565656" ;;
  let stroke_props :=
    line_props "square" "bevel" stroke_color (PyFloat.repr stroke_width) in
  let main_width := PyFloat.mul stroke_width main_width_ratio in
  main_color <- hex_to_rgb (color road) ;;
  let main_props :=
    line_props "round" "round" main_color (PyFloat.format_f 5 main_width) in
  Ok (element "symbol"
        [("type", "line"); ("frame_rate", "10"); ("tags", "OSMAnd");
         ("clip_to_extent", "1"); ("is_animated", "0"); ("force_rhr", "0");
         ("name", symbol_name road); ("alpha", "1")]
        [data_defined_properties;
         line_layer "0" stroke_props;
         line_layer "1" main_props]).

Fixpoint create_symbols (roads : list road_info) : result (list node) :=
  match roads with
  | [] => Ok []
  | road :: roads' =>
      symbol <- create_qgis_symbol road default_ratio ;;
      rest <- create_symbols roads' ;;
      Ok (symbol :: rest)
  end.

Definition qgis_style (syms : list node) : node :=
  element "qgis_style" [("version", "2")]
    [element "symbols" [] syms;
     element "colorramps" [] [];
     element "textformats" [] [];
     element "labelsettings" [] [];
     element "legendpatchshapes" [] [];
     element "symbols3d" [] []].

Definition doctype : string := "<!DOCTYPE qgis_style>".

(** [generate_qgis_style(osmand_xml_path, output_path)], from the parsed
    root to the content of the file written.  [writable output_path] tells
    whether [open(output_path, 'wb')] and the two writes succeed; when they
    do not, [OSError] is raised.  The file is opened after the symbols are
    built. *)
Definition generate_qgis_style (writable : string -> bool) (root : node)
  (output_path : string) : result string :=
  let color_definitions := extract_color_definitions root in
  roads <- extract_road_info root color_definitions ;;
  syms <- create_symbols roads ;;
  if writable output_path
  then Ok (doctype ++ PyStr.nl ++ pretty true 0 (qgis_style syms) ++ PyStr.nl)
  else Raise OSError.

(** [main()] *)
Definition main (writable : string -> bool) (root : node) : result string :=
  generate_qgis_style writable root "styles/roads.xml".

End Road.

(** ** Reading a generated symbol *)

Module Symbol.
Import Xml.

(** The layers of a symbol, in order. *)
Definition layers (symbol : node) : list node :=
  filter (is_tag "layer") (children_of symbol).

Definition pass (layer : node) : option string :=
  get "pass" (attrib_of layer).

Definition named (name : string) (option : node) : bool :=
  match get "name" (attrib_of option) with
  | Some n => String.eqb n name
  | None => false
  end.

(** The value of the property [name] in the option map of a layer. *)
Definition property (name : string) (layer : node) : option string :=
  match children_of layer with
  | options :: _ =>
      match find (named name) (children_of options) with
      | Some o => get "value" (attrib_of o)
      | None => None
      end
  | [] => None
  end.

Definition name (symbol : node) : option string :=
  get "name" (attrib_of symbol).

End Symbol.

(** ** Notions used to state the properties *)

Module Spec.
Import Xml.

(** An ancestor that hands down a shield: a [switch] or an [apply] with
    the attribute. *)
Definition carries_shield (n : node) (v : string) : Prop :=
  (is_tag "switch" n = true \/ is_tag "apply" n = true)
  /\ get "shield" (attrib_of n) = Some v.

Definition no_shield (n : node) : Prop := forall v, ~ carries_shield n v.

(** The descendants reached through the children [cs], the first of
    which has index [i]. *)
Fixpoint iter_below (ups : list node) (i : nat) (cs : list node)
  : list ref :=
  match cs with
  | [] => []
  | c :: cs' =>
      (List.map (under i) (iter_from ups c) ++ iter_below ups (S i) cs')%list
  end.

(** The string holds a character that is not whitespace. *)
Definition has_non_space (s : string) : Prop :=
  exists c, In c (list_ascii_of_string s) /\ PyStr.isspace c = false.

(** The attribute is there and is more than whitespace. *)
Definition carries (key : string) (n : node) : Prop :=
  exists v, get key (attrib_of n) = Some v /\ has_non_space v.

(** A point rule: a [case] with the three attributes. *)
Definition is_point_rule (n : node) : Prop :=
  is_tag "case" n = true
  /\ carries "tag" n /\ carries "value" n /\ carries "icon" n.

(** [r] is a proper descendant of [root]: its path is not empty and
    leads from [root] to its node, past its parents. *)
Definition descendant_of (root : node) (r : ref) : Prop :=
  path r <> []
  /\ lookup root (path r) = Some (self r)
  /\ parents r = chain [] root (path r).

Definition in_document_order (l : list ref) : Prop :=
  StronglySorted (fun a b => before (path a) (path b)) l.

(** [t] occurs in [s]. *)
Definition within (t s : string) : Prop := exists a b, s = a ++ t ++ b.

(** The serialization of the children of an element, one after the
    other. *)
Fixpoint tostring_all (cs : list node) : string :=
  match cs with
  | [] => EmptyString
  | c :: cs' => tostring c ++ tostring_all cs'
  end.

(** The texts the stroke width is searched in, in the order of the
    search: for each [apply] below the road rule, the serialization of
    each [case] below it. *)
Definition candidate_texts (case_elem : ref) : list string :=
  flat_map
    (fun apply_elem =>
       List.map (fun c => tostring (self c))
                (select "case" (fun _ => true) apply_elem))
    (select "apply" (fun _ => true) case_elem).

(** No pattern is followed by a quoted value in the text. *)
Definition no_value (patterns : list string) (text : string) : Prop :=
  Forall (fun q => Road.re_search q text = None) patterns.

(** [v] is the quoted value after the first pattern, in the order of the
    list, that has one in the text. *)
Definition first_value (patterns : list string) (text v : string) : Prop :=
  exists earlier p later,
    patterns = (earlier ++ p :: later)%list
    /\ no_value earlier text
    /\ Road.re_search p text = Some v.

(** The first text with a value among the texts, with its value. *)
Fixpoint search_texts (patterns : list string) (texts : list string)
  : option string :=
  match texts with
  | [] => None
  | t :: texts' =>
      match Road.try_patterns patterns t with
      | Some v => Some v
      | None => search_texts patterns texts'
      end
  end.

(** Two road rules used as examples: one whose only width is given for
    zoom 12, one whose width is given for zoom 16 with a colon. *)
Definition rule_zoom_12 : ref :=
  mkRef []
    (Element "case"
       [("tag", "highway"); ("value", "primary"); ("color", "#ffaa00")]
       EmptyString
       [Element "apply" [] EmptyString
          [Element "case" [("minzoom", "12"); ("strokeWidth", "3")]
             EmptyString [] EmptyString]
          EmptyString]
       EmptyString)
    [].

Definition width_case_16 : node :=
  Element "case" [("maxzoom", "16"); ("strokeWidth", "4.5:4.5")]
    EmptyString [] EmptyString.

Definition rule_zoom_16 : ref :=
  mkRef []
    (Element "case"
       [("tag", "highway"); ("value", "primary"); ("color", "#ffaa00")]
       EmptyString
       [Element "apply" [] EmptyString [width_case_16] EmptyString]
       EmptyString)
    [].

(** A document with an empty [line] section: its roads are the nine
    supplementary ones. *)
Definition empty_line_document : node :=
  Element "renderingStyle" [] EmptyString
    [Element "line" [] EmptyString [] EmptyString] EmptyString.

(** An example for the point converter: a bench under a switch with a
    round shield, a library whose open part is never reached by the
    examples, and a file system in which every file is there. *)
Definition bench_document : node :=
  Element "renderingStyle" [] EmptyString
    [Element "switch" [("shield", "round")] EmptyString
       [Element "case"
          [("tag", "amenity"); ("value", "bench"); ("icon", "bench")]
          EmptyString [] EmptyString;
        Element "case"
          [("tag", "amenity"); ("value", " bench "); ("icon", "seat")]
          EmptyString [] EmptyString]
       EmptyString]
    EmptyString.

Definition plain_lxml : Point.lxml :=
  Point.mkLxml (fun _ _ => Raise SyntaxError).

Definition all_files (path : string) : option string := Some "<svg/>".

(** Two cases of one name, whose value holds an apostrophe, a closing
    bracket and the opening of a second predicate. *)
Definition quoted_value_document : node :=
  Element "renderingStyle" [] EmptyString
    [Element "switch" [("shield", "round")] EmptyString
       [Element "case"
          [("tag", "amenity"); ("value", "a'][@x='b"); ("icon", "bench")]
          EmptyString [] EmptyString;
        Element "case"
          [("tag", "amenity"); ("value", "a'][@x='b"); ("icon", "bench")]
          EmptyString [] EmptyString]
       EmptyString]
    EmptyString.

(** A case whose value holds an apostrophe and nothing more of a path. *)
Definition apostrophe_document : node :=
  Element "renderingStyle" [] EmptyString
    [Element "switch" [("shield", "round")] EmptyString
       [Element "case"
          [("tag", "shop"); ("value", "o'neil"); ("icon", "shop")]
          EmptyString [] EmptyString]
       EmptyString]
    EmptyString.

(** A file system in which every file can be written. *)
Definition all_writable (path : string) : bool := true.

(** The elements of a list that are the first of their key, the keys in
    [seen] counting as taken. *)
Fixpoint dedup_first {A : Type} (key : A -> string) (seen : list string)
  (l : list A) : list A :=
  match l with
  | [] => []
  | x :: l' =>
      if existsb (String.eqb (key x)) seen then dedup_first key seen l'
      else x :: dedup_first key (key x :: seen) l'
  end.

(** The name of a symbol. *)
Definition name_of (symbol : node) : string :=
  get_default "name" EmptyString (attrib_of symbol).

(** The symbol a case stands for, whatever the symbols already there:
    none when the case is incomplete, has no shield or lacks a file. *)
Definition produces (files : string -> option string) (c : ref)
  : option node :=
  if Point.incomplete c then None
  else
    match Point.find_shield_value c with
    | None => None
    | Some shield =>
        if negb (PyStr.truthy shield) then None
        else
          match files (Point.join Point.icons_dir
                         ("mx_" ++ Point.icon_name_of c ++ ".svg")) with
          | None => None
          | Some icon =>
              match files (Point.join Point.shields_dir
                             ("h_" ++ shield ++ ".svg")) with
              | None => None
              | Some sh =>
                  Some (Point.create_qgis_symbol (Point.symbol_name_of c)
                          ("base64:" ++ Base64.b64encode icon)
                          ("base64:" ++ Base64.b64encode sh))
              end
          end
    end.

(** The symbols the cases stand for, in the order of the cases. *)
Definition point_candidates (files : string -> option string)
  (cases : list ref) : list node :=
  flat_map (fun c => match produces files c with
                     | Some s => [s]
                     | None => []
                     end) cases.

(** The test of the path [.//symbol[@name='n']] on a node. *)
Definition names (n : string) (d : ref) : bool :=
  is_tag "symbol" (self d)
  && match get "name" (attrib_of (self d)) with
     | Some v => String.eqb v n
     | None => false
     end.

(** *** Road rules *)

Definition road_value (c : ref) : string :=
  get_default "value" EmptyString (attrib_of (self c)).

(** The part of the test of a highway case that does not look at the
    values seen: the tag is [highway], value and colour are not empty. *)
Definition road_case (c : ref) : bool :=
  String.eqb (get_default "tag" EmptyString (attrib_of (self c))) "highway"
  && PyStr.truthy (get_default "value" EmptyString (attrib_of (self c)))
  && PyStr.truthy (get_default "color" EmptyString (attrib_of (self c))).

(** The road record of a case. *)
Definition build_road (color_definitions : Road.dict) (c : ref)
  : result Road.road_info :=
  stroke_width <- Road.extract_stroke_width_for_zoom c 16 ;;
  Ok (Road.mkRoad
        (get_default "tag" EmptyString (attrib_of (self c)))
        (road_value c)
        (Road.resolve_color_variable
           (get_default "color" EmptyString (attrib_of (self c)))
           color_definitions)
        (Road.road_symbol_name (road_value c))
        (Some stroke_width)).

Fixpoint build_roads (color_definitions : Road.dict) (cs : list ref)
  : result (list Road.road_info) :=
  match cs with
  | [] => Ok []
  | c :: cs' =>
      road <- build_road color_definitions c ;;
      rest <- build_roads color_definitions cs' ;;
      Ok (road :: rest)
  end.

(** The road record of a supplementary road. *)
Definition additional_road (color_definitions : Road.dict)
  (a : string * string * PyFloat.float) : Road.road_info :=
  Road.mkRoad "highway" (fst (fst a))
    (Road.resolve_color_variable (snd (fst a)) color_definitions)
    (Road.road_symbol_name (fst (fst a)))
    (Some (snd a)).

(** The highway cases of the switches of zoom 14, in the order the loops
    meet them. *)
Definition road_cases (line_section : ref) : list ref :=
  filter road_case
    (flat_map Road.highway_cases (Road.high_zoom_switches line_section)).

(** A document with two road values that differ by an underscore. *)
Definition two_spellings_document : node :=
  Element "renderingStyle" [] EmptyString
    [Element "line" [] EmptyString
       [Element "switch" [("minzoom", "14")] EmptyString
          [Element "case"
             [("tag", "highway"); ("value", "a_b"); ("color", "#112233")]
             EmptyString [] EmptyString;
           Element "case"
             [("tag", "highway"); ("value", "a b"); ("color", "#445566")]
             EmptyString [] EmptyString]
          EmptyString]
       EmptyString]
    EmptyString.

(** A symbol built by [create_qgis_symbol] of the point converter. *)
Definition built_point_symbol (symbol : node) : Prop :=
  exists value icon_base64 shield_base64,
    symbol = Point.create_qgis_symbol value icon_base64 shield_base64.

End Spec.

(** ** Further notions *)

Module Facts.
Import Xml.

(** A case a colour can be taken from: its [attrColorValue] starts with
    the hash sign. *)
Definition eligible (n : node) : Prop :=
  PyStr.startswith "#"
    (get_default "attrColorValue" EmptyString (attrib_of n)) = true.

(** The [renderingAttribute] elements of a document and the table built
    from them, before the manual colours. *)
Definition scanned (root : node) : Road.dict :=
  Road.scan_attributes []
    (select "renderingAttribute" (fun _ => true) (root_ref root)).

(** The sum of the four counters. *)
Definition total (c : Point.stats) : nat :=
  Point.processed_count c + Point.skipped_no_shield c
  + Point.skipped_no_files c + Point.skipped_duplicates c.

(** The points document without symbols: the XML declaration as
    [tree.write] writes it, and the root with its six empty sections. *)
Definition empty_points_document : string :=
  "<?xml version='1.0' encoding='UTF-8'?>" ++ PyStr.nl
  ++ "<qgis_style version=" ++ dquote ++ "2" ++ dquote ++ ">" ++ PyStr.nl
  ++ "  <symbols/>" ++ PyStr.nl
  ++ "  <colorramps/>" ++ PyStr.nl
  ++ "  <textformats/>" ++ PyStr.nl
  ++ "  <labelsettings/>" ++ PyStr.nl
  ++ "  <legendpatchshapes/>" ++ PyStr.nl
  ++ "  <symbols3d/>" ++ PyStr.nl
  ++ "</qgis_style>".

(** A table whose keys name colours and whose values are colours. *)
Definition colour_table (d : Road.dict) : Prop :=
  forall k v, get k d = Some v ->
              PyStr.contains "Color" k = true /\ PyStr.startswith "#" v = true.

(** What the records of the document have in common. *)
Definition well_formed (defs : Road.dict) (r : Road.road_info) : Prop :=
  Road.tag r = "highway"
  /\ Road.value r <> EmptyString
  /\ (exists color_var, Road.color r = Road.resolve_color_variable color_var defs)
  /\ Road.symbol_name r = Road.road_symbol_name (Road.value r)
  /\ Road.stroke_width r <> None.

(** The text [hex_to_rgb] writes for the three channels. *)
Definition rgb_text (r g b : Z) : string :=
  PyStr.of_int r ++ "," ++ PyStr.of_int g ++ "," ++ PyStr.of_int b
  ++ ",255,rgb:"
  ++ PyFloat.format_f 10 (PyFloat.int_truediv r 255) ++ ","
  ++ PyFloat.format_f 10 (PyFloat.int_truediv g 255) ++ ","
  ++ PyFloat.format_f 10 (PyFloat.int_truediv b 255) ++ ",1".

(** The symbol of a case with a shield and both files. *)
Definition symbol_of (files : string -> option string) (c : ref)
  (symbol : node) : Prop :=
  exists shield icon sh,
    Point.find_shield_value c = Some shield
    /\ shield <> EmptyString
    /\ files (Point.join Point.icons_dir
                ("mx_" ++ Point.icon_name_of c ++ ".svg")) = Some icon
    /\ files (Point.join Point.shields_dir ("h_" ++ shield ++ ".svg")) = Some sh
    /\ symbol = Point.create_qgis_symbol (Point.symbol_name_of c)
                  ("base64:" ++ Base64.b64encode icon)
                  ("base64:" ++ Base64.b64encode sh).

(** A complete case that bears an empty [shield], under a switch with a
    shield. *)
Definition unshielded_case : ref :=
  mkRef [0%nat]
    (Element "case"
       [("tag", "amenity"); ("value", "bench"); ("icon", "bench");
        ("shield", EmptyString)]
       EmptyString [] EmptyString)
    [Element "switch" [("shield", "round")] EmptyString
       [Element "case"
          [("tag", "amenity"); ("value", "bench"); ("icon", "bench");
           ("shield", EmptyString)]
          EmptyString [] EmptyString]
       EmptyString].

End Facts.

(** * Properties *)

Import Xml.

(** ** Colours *)

Lemma dark_gray_rgb :
  Road.hex_to_rgb "#565656"
  = Ok "86,86,86,255,rgb:0.3372549020,0.3372549020,0.3372549020,1".
Proof. vm_compute. reflexivity. Qed.

(** C9: [hex_to_rgb("#565656")] is the string
    [86,86,86,255,rgb:0.3372549020,0.3372549020,0.3372549020,1]: the three
    channels, the opacity 255, and each channel over 255 with ten
    decimals. *)
Theorem hex_to_rgb_565656 :
  Road.hex_to_rgb "#565656"
  = Ok "86,86,86,255,rgb:0.3372549020,0.3372549020,0.3372549020,1".
Proof. exact dark_gray_rgb. Qed.

(** C10: when what is left of the input after the leading [#] characters
    does not have six characters, [hex_to_rgb] returns the fallback
    [0,0,0,255,rgb:0,0,0,1] and raises nothing. *)
Theorem hex_to_rgb_fallback :
  forall hex_color : string,
    length (PyStr.lstrip_char "#" hex_color) <> 6 ->
    Road.hex_to_rgb hex_color = Ok "0,0,0,255,rgb:0,0,0,1".
Proof.
  intros hex_color Hlen. unfold Road.hex_to_rgb.
  destruct (Nat.eqb_spec (length (PyStr.lstrip_char "#" hex_color)) 6)
    as [Heq | _].
  - contradiction.
  - reflexivity.
Qed.

Lemma hex_to_rgb_fallback_witness :
  length (PyStr.lstrip_char "#" "##abc") <> 6
  /\ Road.hex_to_rgb "##abc" = Ok "0,0,0,255,rgb:0,0,0,1".
Proof.
  split.
  - simpl. lia.
  - apply (hex_to_rgb_fallback "##abc"). simpl. lia.
Defined.

Lemma startswith_cons :
  forall (c : ascii) (s : string),
    PyStr.startswith (String c EmptyString) s = true ->
    s = String c (PyStr.drop 1 s).
Proof.
  intros c [| d s] H; simpl in H.
  - discriminate.
  - destruct (Ascii.ascii_dec c d) as [-> | Hne]; [reflexivity | discriminate].
Qed.

(** C4: a [$name] with an entry in the table resolves to the entry, an
    input starting with [#] is returned unchanged, and every other input
    resolves to [#000000]; the function is total. *)
Theorem resolve_color_variable_cases :
  forall (color_var : string) (color_definitions : Road.dict),
    (forall name v,
        color_var = "$" ++ name ->
        get name color_definitions = Some v ->
        Road.resolve_color_variable color_var color_definitions = v)
    /\ (PyStr.startswith "#" color_var = true ->
        Road.resolve_color_variable color_var color_definitions = color_var)
    /\ ((forall name,
            color_var = "$" ++ name -> get name color_definitions = None) ->
        PyStr.startswith "#" color_var = false ->
        Road.resolve_color_variable color_var color_definitions = "#000000").
Proof.
  intros color_var defs. unfold Road.resolve_color_variable.
  split; [| split].
  - intros name v -> Hget.
    assert (Hd : PyStr.startswith "$" ("$" ++ name) = true)
      by (destruct name; reflexivity).
    rewrite Hd. simpl PyStr.drop. rewrite Hget. reflexivity.
  - intros Hhash. apply startswith_cons in Hhash. rewrite Hhash.
    destruct (PyStr.drop 1 color_var); reflexivity.
  - intros Hnone Hhash. rewrite Hhash.
    destruct (PyStr.startswith "$" color_var) eqn:Hdollar.
    + apply startswith_cons in Hdollar.
      rewrite (Hnone _ Hdollar). reflexivity.
    + reflexivity.
Qed.

Lemma resolve_color_variable_cases_witness :
  Road.resolve_color_variable "$footwayColor" Road.manual_colors = "#fa8c16"
  /\ Road.resolve_color_variable "#cdcdcd" Road.manual_colors = "#cdcdcd"
  /\ Road.resolve_color_variable "red" Road.manual_colors = "#000000".
Proof.
  destruct (resolve_color_variable_cases "$footwayColor" Road.manual_colors)
    as [Hvar _].
  destruct (resolve_color_variable_cases "#cdcdcd" Road.manual_colors)
    as [_ [Hhex _]].
  destruct (resolve_color_variable_cases "red" Road.manual_colors)
    as [_ [_ Hother]].
  split; [| split].
  - apply (Hvar "footwayColor"); reflexivity.
  - apply Hhex. reflexivity.
  - apply Hother; [| reflexivity].
    intros name Hname. discriminate Hname.
Defined.

(** ** Shield lookup *)

Lemma has_get :
  forall key a, has key a = true <-> exists v, get key a = Some v.
Proof.
  intros key a. unfold has. destruct (get key a) as [v |].
  - split; [intros _; exists v; reflexivity | reflexivity].
  - split; [discriminate | intros [v Hv]; discriminate].
Qed.

Lemma walk_up_found :
  forall a v outer,
    Spec.carries_shield a v -> Point.walk_up (a :: outer) = Some v.
Proof.
  intros a v outer [Htag Hget]. simpl.
  assert (Hhas : has "shield" (attrib_of a) = true)
    by (apply has_get; exists v; exact Hget).
  rewrite Hhas, Hget.
  destruct Htag as [Hs | Ha].
  - rewrite Hs. reflexivity.
  - rewrite Ha. destruct (is_tag "switch" a); reflexivity.
Qed.

Lemma walk_up_passes :
  forall inner rest,
    Forall Spec.no_shield inner ->
    Point.walk_up (inner ++ rest) = Point.walk_up rest.
Proof.
  induction inner as [| n inner IH]; intros rest Hall.
  - reflexivity.
  - inversion Hall as [| ? ? Hn Hinner]; subst.
    simpl.
    destruct (has "shield" (attrib_of n)) eqn:Hhas.
    + apply has_get in Hhas as [v Hv].
      destruct (is_tag "switch" n) eqn:Hs.
      * exfalso. apply (Hn v). split; [left; exact Hs | exact Hv].
      * destruct (is_tag "apply" n) eqn:Ha.
        -- exfalso. apply (Hn v). split; [right; exact Ha | exact Hv].
        -- simpl. apply IH. exact Hinner.
    + rewrite !andb_false_r. apply IH. exact Hinner.
Qed.

(** C3: shield lookup returns the node's own [shield] attribute when it
    has one; otherwise the [shield] of the nearest ancestor that is a
    [switch] or an [apply] and has the attribute; and [None], not an error,
    when no ancestor up to the root is such. *)
Theorem find_shield_value_spec :
  forall case_element : ref,
    (forall v,
        get "shield" (attrib_of (self case_element)) = Some v ->
        Point.find_shield_value case_element = Some v)
    /\ (get "shield" (attrib_of (self case_element)) = None ->
        (forall inner a outer v,
            parents case_element = (inner ++ a :: outer)%list ->
            Forall Spec.no_shield inner ->
            Spec.carries_shield a v ->
            Point.find_shield_value case_element = Some v)
        /\ (Forall Spec.no_shield (parents case_element) ->
            Point.find_shield_value case_element = None)).
Proof.
  intros case_element. unfold Point.find_shield_value. split.
  - intros v Hv.
    assert (Hhas : has "shield" (attrib_of (self case_element)) = true)
      by (apply has_get; exists v; exact Hv).
    rewrite Hhas. exact Hv.
  - intros Hnone.
    assert (Hhas : has "shield" (attrib_of (self case_element)) = false)
      by (unfold has; rewrite Hnone; reflexivity).
    rewrite Hhas. split.
    + intros inner a outer v Hparents Hinner Ha.
      rewrite Hparents, walk_up_passes by exact Hinner.
      apply walk_up_found. exact Ha.
    + intros Hall.
      rewrite <- (app_nil_r (parents case_element)).
      rewrite walk_up_passes by exact Hall. reflexivity.
Qed.

Lemma find_shield_value_spec_witness :
  Point.find_shield_value
    (mkRef [0; 0]%nat
       (Element "case"
          [("tag", "amenity"); ("value", "bench"); ("icon", "bench")]
          EmptyString [] EmptyString)
       [Element "group" [("shield", "square")] EmptyString [] EmptyString;
        Element "switch" [("shield", "round")] EmptyString [] EmptyString;
        Element "renderingStyle" [] EmptyString [] EmptyString])
  = Some "round".
Proof.
  pose proof
    (find_shield_value_spec
       (mkRef [0; 0]%nat
          (Element "case"
             [("tag", "amenity"); ("value", "bench"); ("icon", "bench")]
             EmptyString [] EmptyString)
          [Element "group" [("shield", "square")] EmptyString [] EmptyString;
           Element "switch" [("shield", "round")] EmptyString [] EmptyString;
           Element "renderingStyle" [] EmptyString [] EmptyString]))
    as [_ Hup].
  destruct (Hup eq_refl) as [Hfound _].
  apply (Hfound
           [Element "group" [("shield", "square")] EmptyString [] EmptyString]
           (Element "switch" [("shield", "round")] EmptyString [] EmptyString)
           [Element "renderingStyle" [] EmptyString [] EmptyString]).
  - reflexivity.
  - constructor; [| constructor].
    intros v [[Hs | Ha] _]; simpl in *; discriminate.
  - split; [left; reflexivity | reflexivity].
Defined.

(** ** Symbols *)

Lemma point_symbol_layers :
  forall value icon_base64 shield_base64,
    Symbol.layers (Point.create_qgis_symbol value icon_base64 shield_base64)
    = [Point.marker_layer "0" (Point.shield_options shield_base64);
       Point.marker_layer "0" (Point.icon_options icon_base64)].
Proof. reflexivity. Qed.

Lemma road_symbol_shape :
  forall road ratio,
    Road.create_qgis_symbol road ratio
    = main_color <- Road.hex_to_rgb (Road.color road) ;;
      Ok (element "symbol"
            [("type", "line"); ("frame_rate", "10"); ("tags", "OSMAnd");
             ("clip_to_extent", "1"); ("is_animated", "0"); ("force_rhr", "0");
             ("name", Road.symbol_name road); ("alpha", "1")]
            [Road.data_defined_properties;
             Road.line_layer "0"
               (Road.line_props "square" "bevel"
                  "86,86,86,255,rgb:0.3372549020,0.3372549020,0.3372549020,1"
                  (PyFloat.repr
                     match Road.stroke_width road with
                     | Some w => w
                     | None => PyFloat.literal "1.5"
                     end));
             Road.line_layer "1"
               (Road.line_props "round" "round" main_color
                  (PyFloat.format_f 5
                     (PyFloat.mul
                        match Road.stroke_width road with
                        | Some w => w
                        | None => PyFloat.literal "1.5"
                        end ratio)))]).
Proof.
  intros road ratio. unfold Road.create_qgis_symbol.
  rewrite dark_gray_rgb. reflexivity.
Qed.

Lemma step_built :
  forall lib files st c st',
    Point.step lib files st c = Ok st' ->
    Forall Spec.built_point_symbol (Point.symbols st) ->
    Forall Spec.built_point_symbol (Point.symbols st').
Proof.
  intros lib files st c st' Hstep Hall. unfold Point.step in Hstep.
  destruct (Point.incomplete c); [injection Hstep as <-; exact Hall |].
  destruct (Point.existing_symbols lib (Point.symbols_container st)
              (Point.symbol_name_of c)) as [[|] | e]; simpl in Hstep;
    try discriminate.
  - injection Hstep as <-. exact Hall.
  - destruct (Point.find_shield_value c) as [shield |];
      [| injection Hstep as <-; exact Hall].
    destruct (negb (PyStr.truthy shield));
      [injection Hstep as <-; exact Hall |].
    destruct (files _) as [icon |]; [| injection Hstep as <-; exact Hall].
    destruct (files _) as [sh |]; [| injection Hstep as <-; exact Hall].
    injection Hstep as <-. simpl.
    apply Forall_app. split; [exact Hall |].
    constructor; [| constructor].
    do 3 eexists. reflexivity.
Qed.

Lemma run_built :
  forall lib files cases st st',
    Point.run lib files st cases = Ok st' ->
    Forall Spec.built_point_symbol (Point.symbols st) ->
    Forall Spec.built_point_symbol (Point.symbols st').
Proof.
  intros lib files cases. induction cases as [| c cases IH]; intros st st' Hrun Hall.
  - injection Hrun as <-. exact Hall.
  - simpl in Hrun.
    destruct (Point.step lib files st c) as [st1 | e] eqn:Hstep;
      simpl in Hrun; [| discriminate].
    apply (IH st1 st' Hrun). apply (step_built _ _ _ _ _ Hstep Hall).
Qed.

(** C5: a point symbol has exactly two layers, the shield layer then the
    icon layer, both of pass 0, and so has every symbol the point
    converter holds; a road symbol has exactly two layers, the stroke layer
    of pass 0 then the fill layer of pass 1. *)
Theorem symbols_have_two_layers :
  (forall value icon_base64 shield_base64,
      exists shield_layer icon_layer,
        Symbol.layers
          (Point.create_qgis_symbol value icon_base64 shield_base64)
        = [shield_layer; icon_layer]
        /\ Symbol.pass shield_layer = Some "0"
        /\ Symbol.pass icon_layer = Some "0"
        /\ Symbol.property "name" shield_layer = Some shield_base64
        /\ Symbol.property "name" icon_layer = Some icon_base64)
  /\ (forall lib files root content st,
         Point.main lib files root = Ok (content, st) ->
         Forall Spec.built_point_symbol (Point.symbols st))
  /\ (forall road ratio symbol,
         Road.create_qgis_symbol road ratio = Ok symbol ->
         exists stroke_layer fill_layer main_color,
           Road.hex_to_rgb (Road.color road) = Ok main_color
           /\ Symbol.layers symbol = [stroke_layer; fill_layer]
           /\ Symbol.pass stroke_layer = Some "0"
           /\ Symbol.pass fill_layer = Some "1"
           /\ Symbol.property "capstyle" stroke_layer = Some "square"
           /\ Symbol.property "line_color" fill_layer = Some main_color).
Proof.
  split; [| split].
  - intros value icon_base64 shield_base64.
    exists (Point.marker_layer "0" (Point.shield_options shield_base64)),
           (Point.marker_layer "0" (Point.icon_options icon_base64)).
    repeat split; reflexivity.
  - intros lib files root content st Hmain. unfold Point.main in Hmain.
    destruct (Point.run lib files Point.initial (Point.findall_cases root))
      as [st1 | e] eqn:Hrun; simpl in Hmain; [| discriminate].
    injection Hmain as _ <-.
    apply (run_built _ _ _ _ _ Hrun). constructor.
  - intros road ratio symbol Hsym. rewrite road_symbol_shape in Hsym.
    destruct (Road.hex_to_rgb (Road.color road)) as [main_color | e];
      simpl in Hsym; [| discriminate].
    injection Hsym as <-.
    eexists _, _, main_color.
    repeat split; reflexivity.
Qed.

Lemma symbols_have_two_layers_witness :
  exists stroke_layer fill_layer main_color,
    Road.hex_to_rgb "#ffdb93" = Ok main_color
    /\ Symbol.layers
         (element "symbol"
            [("type", "line"); ("frame_rate", "10"); ("tags", "OSMAnd");
             ("clip_to_extent", "1"); ("is_animated", "0"); ("force_rhr", "0");
             ("name", "Road Tertiary"); ("alpha", "1")]
            [Road.data_defined_properties;
             Road.line_layer "0"
               (Road.line_props "square" "bevel"
                  "86,86,86,255,rgb:0.3372549020,0.3372549020,0.3372549020,1"
                  "2.0");
             Road.line_layer "1"
               (Road.line_props "round" "round"
                  "255,219,147,255,rgb:1.0000000000,0.8588235294,0.5764705882,1"
                  "1.60000")])
       = [stroke_layer; fill_layer]
    /\ Symbol.pass stroke_layer = Some "0"
    /\ Symbol.pass fill_layer = Some "1"
    /\ Symbol.property "capstyle" stroke_layer = Some "square"
    /\ Symbol.property "line_color" fill_layer = Some main_color.
Proof.
  destruct symbols_have_two_layers as [_ [_ Hroad]].
  apply (Hroad
           (Road.mkRoad "highway" "tertiary" "#ffdb93" "Road Tertiary"
              (Some Road.default_width))
           Road.default_ratio).
  vm_compute. reflexivity.
Defined.

(** C2: for a road rule of stroke width [W] whose colour converts, the
    symbol is generated, its fill layer has the width [W * 0.8] written
    with five decimals, its stroke layer has the width [W] as [str] writes
    it and the dark gray [#565656] as colour. *)
Theorem road_layer_widths :
  forall (road : Road.road_info) (W : PyFloat.float) (main_color : string),
    Road.stroke_width road = Some W ->
    Road.hex_to_rgb (Road.color road) = Ok main_color ->
    exists symbol stroke_layer fill_layer,
      Road.create_qgis_symbol road Road.default_ratio = Ok symbol
      /\ Symbol.layers symbol = [stroke_layer; fill_layer]
      /\ Symbol.property "line_width" fill_layer
         = Some (PyFloat.format_f 5 (PyFloat.mul W (PyFloat.literal "0.8")))
      /\ Symbol.property "line_width" stroke_layer = Some (PyFloat.repr W)
      /\ Symbol.property "line_color" stroke_layer
         = Some "86,86,86,255,rgb:0.3372549020,0.3372549020,0.3372549020,1".
Proof.
  intros road W main_color HW Hcolor.
  rewrite road_symbol_shape, Hcolor, HW. simpl bind.
  eexists _, _, _.
  repeat split; reflexivity.
Qed.

Lemma road_layer_widths_witness :
  exists symbol stroke_layer fill_layer,
    Road.create_qgis_symbol
      (Road.mkRoad "highway" "pedestrian" "#ffdb93" "Road Pedestrian"
         (Some (PyFloat.literal "1.2")))
      Road.default_ratio = Ok symbol
    /\ Symbol.layers symbol = [stroke_layer; fill_layer]
    /\ Symbol.property "line_width" fill_layer
       = Some (PyFloat.format_f 5
                 (PyFloat.mul (PyFloat.literal "1.2") (PyFloat.literal "0.8")))
    /\ Symbol.property "line_width" stroke_layer
       = Some (PyFloat.repr (PyFloat.literal "1.2"))
    /\ Symbol.property "line_color" stroke_layer
       = Some "86,86,86,255,rgb:0.3372549020,0.3372549020,0.3372549020,1".
Proof.
  apply (road_layer_widths
           (Road.mkRoad "highway" "pedestrian" "#ffdb93" "Road Pedestrian"
              (Some (PyFloat.literal "1.2")))
           (PyFloat.literal "1.2")
           "255,219,147,255,rgb:1.0000000000,0.8588235294,0.5764705882,1").
  - reflexivity.
  - vm_compute. reflexivity.
Defined.

(** The widths written for the default stroke width and for one of the
    supplementary roads. *)
Example widths_of_2_0 :
  PyFloat.repr (PyFloat.literal "2.0") = "2.0"
  /\ PyFloat.format_f 5
       (PyFloat.mul (PyFloat.literal "2.0") (PyFloat.literal "0.8"))
     = "1.60000".
Proof. split; vm_compute; reflexivity. Qed.

Example widths_of_1_2 :
  PyFloat.repr (PyFloat.literal "1.2") = "1.2"
  /\ PyFloat.format_f 5
       (PyFloat.mul (PyFloat.literal "1.2") (PyFloat.literal "0.8"))
     = "0.96000".
Proof. split; vm_compute; reflexivity. Qed.

(** ** Traversal of a document *)

Lemma node_ind' (P : node -> Prop) :
  (forall tag a text cs tail,
      Forall P cs -> P (Element tag a text cs tail)) ->
  (forall body tail, P (Comment body tail)) ->
  forall n, P n.
Proof.
  intros HE HC. fix IH 1. intros [tag a text cs tail | body tail].
  - apply HE. induction cs as [| c cs IHcs]; constructor.
    + apply IH.
    + exact IHcs.
  - apply HC.
Qed.

Lemma iter_from_element :
  forall ups tag a text cs tail,
    iter_from ups (Element tag a text cs tail)
    = mkRef [] (Element tag a text cs tail) ups
      :: Spec.iter_below (Element tag a text cs tail :: ups) 0 cs.
Proof.
  intros ups tag a text cs tail. simpl. f_equal.
  generalize (Element tag a text cs tail :: ups). intros ups'.
  generalize 0%nat. induction cs as [| c cs IH]; intros i.
  - reflexivity.
  - simpl. f_equal. apply IH.
Qed.

Lemma in_iter_below :
  forall ups cs i r,
    In r (Spec.iter_below ups i cs) <->
    exists j c r',
      nth_error cs j = Some c /\ In r' (iter_from ups c)
      /\ r = under (i + j) r'.
Proof.
  intros ups cs. induction cs as [| c cs IH]; intros i r; simpl.
  - split; [contradiction |].
    intros [j [c [r' [Hnth _]]]]. destruct j; discriminate.
  - rewrite in_app_iff, in_map_iff, IH. split.
    + intros [[r' [Hr Hin]] | [j [c' [r' [Hnth [Hin Hr]]]]]].
      * exists 0%nat, c, r'. rewrite Nat.add_0_r. auto.
      * exists (S j), c', r'. rewrite Nat.add_succ_r. auto.
    + intros [[| j] [c' [r' [Hnth [Hin Hr]]]]].
      * left. injection Hnth as <-. exists r'.
        rewrite Nat.add_0_r in Hr. auto.
      * right. exists j, c', r'. rewrite Nat.add_succ_r in Hr. auto.
Qed.

Lemma ref_eta : forall r, mkRef (path r) (self r) (parents r) = r.
Proof. intros [p s u]. reflexivity. Qed.

(** The traversal reaches exactly the nodes below its start, each with
    its path and its chain of parents. *)
Lemma in_iter_from :
  forall n ups r,
    In r (iter_from ups n) <->
    lookup n (path r) = Some (self r) /\ parents r = chain ups n (path r).
Proof.
  induction n as [tag a text cs tail IH | body tail] using node_ind';
    intros ups r.
  - rewrite iter_from_element. simpl In. rewrite in_iter_below.
    rewrite Forall_forall in IH. split.
    + intros [<- | [j [c [r' [Hnth [Hin ->]]]]]].
      * simpl. auto.
      * simpl. rewrite Hnth.
        apply IH in Hin; [exact Hin | eapply nth_error_In; exact Hnth].
    + intros [Hlook Hpar]. destruct r as [[| j p] s u]; simpl in *.
      * left. injection Hlook as <-. subst u. reflexivity.
      * right. destruct (nth_error cs j) as [c |] eqn:Hnth; [| discriminate].
        exists j, c, (mkRef p s u). split; [exact Hnth |]. split.
        -- apply IH; [eapply nth_error_In; exact Hnth | simpl; auto].
        -- reflexivity.
  - simpl. split.
    + intros [<- | []]. simpl. auto.
    + intros [Hlook Hpar]. left.
      destruct r as [[| j p] s u]; simpl in *.
      * injection Hlook as <-. subst u. reflexivity.
      * destruct j; discriminate.
Qed.

Lemma sorted_app :
  forall (A : Type) (R : A -> A -> Prop) (l1 l2 : list A),
    StronglySorted R l1 -> StronglySorted R l2 ->
    (forall a b, In a l1 -> In b l2 -> R a b) ->
    StronglySorted R (l1 ++ l2).
Proof.
  intros A R l1 l2 H1 H2 H12. induction H1 as [| a l1 Hs IH Ha]; simpl.
  - exact H2.
  - constructor.
    + apply IH. intros x y Hx Hy. apply H12; [right; exact Hx | exact Hy].
    + apply Forall_app. split; [exact Ha |].
      apply Forall_forall. intros y Hy. apply H12; [left; reflexivity | exact Hy].
Qed.

Lemma sorted_map :
  forall (A B : Type) (R : A -> A -> Prop) (Q : B -> B -> Prop)
         (f : A -> B) (l : list A),
    (forall a b, R a b -> Q (f a) (f b)) ->
    StronglySorted R l -> StronglySorted Q (List.map f l).
Proof.
  intros A B R Q f l Hf Hs. induction Hs as [| a l Hs IH Ha]; simpl.
  - constructor.
  - constructor; [exact IH |].
    apply Forall_forall. intros y Hy. apply in_map_iff in Hy as [x [<- Hx]].
    apply Hf. rewrite Forall_forall in Ha. apply Ha. exact Hx.
Qed.

Lemma sorted_filter :
  forall (A : Type) (R : A -> A -> Prop) (f : A -> bool) (l : list A),
    StronglySorted R l -> StronglySorted R (filter f l).
Proof.
  intros A R f l Hs. induction Hs as [| a l Hs IH Ha]; simpl.
  - constructor.
  - destruct (f a); [| exact IH].
    constructor; [exact IH |].
    apply Forall_forall. intros y Hy. apply filter_In in Hy as [Hy _].
    rewrite Forall_forall in Ha. apply Ha. exact Hy.
Qed.

Lemma iter_below_sorted :
  forall ups cs i,
    Forall (fun c => forall ups', Spec.in_document_order (iter_from ups' c)) cs ->
    Spec.in_document_order (Spec.iter_below ups i cs)
    /\ forall r, In r (Spec.iter_below ups i cs) ->
                 exists j p, path r = j :: p /\ (i <= j)%nat.
Proof.
  intros ups cs. induction cs as [| c cs IH]; intros i Hall; simpl.
  - split; [constructor | contradiction].
  - inversion Hall as [| ? ? Hc Hcs]; subst.
    destruct (IH (S i) Hcs) as [Hsorted Hfrom]. split.
    + apply sorted_app.
      * apply sorted_map with (R := fun a b => before (path a) (path b)).
        -- intros a b Hab. simpl. right. auto.
        -- apply Hc.
      * exact Hsorted.
      * intros a b Ha Hb. apply in_map_iff in Ha as [a' [<- _]].
        destruct (Hfrom b Hb) as [j [p [Hp Hle]]].
        simpl. rewrite Hp. left. lia.
    + intros r Hr. apply in_app_iff in Hr as [Hr | Hr].
      * apply in_map_iff in Hr as [r' [<- _]]. simpl. eauto.
      * destruct (Hfrom r Hr) as [j [p [Hp Hle]]].
        exists j, p. split; [exact Hp | lia].
Qed.

(** The traversal lists the nodes in document order. *)
Lemma iter_from_sorted :
  forall n ups, Spec.in_document_order (iter_from ups n).
Proof.
  induction n as [tag a text cs tail IH | body tail] using node_ind';
    intros ups.
  - rewrite iter_from_element.
    destruct (iter_below_sorted (Element tag a text cs tail :: ups) cs 0 IH)
      as [Hsorted Hfrom].
    constructor; [exact Hsorted |].
    apply Forall_forall. intros r Hr.
    destruct (Hfrom r Hr) as [j [p [Hp _]]]. simpl. rewrite Hp. exact I.
  - simpl. constructor; constructor.
Qed.

Lemma iter_from_head :
  forall n ups, exists rest, iter_from ups n = mkRef [] n ups :: rest.
Proof.
  intros [tag a text cs tail | body tail] ups.
  - rewrite iter_from_element. eauto.
  - simpl. eauto.
Qed.

Lemma descendants_root :
  forall root, descendants (root_ref root) = tl (iter_from [] root).
Proof.
  intros root. unfold descendants. simpl.
  rewrite <- (map_id (tl (iter_from [] root))) at 2.
  apply map_ext. intros r. apply ref_eta.
Qed.

Lemma in_descendants_root :
  forall root r,
    In r (descendants (root_ref root)) <-> Spec.descendant_of root r.
Proof.
  intros root r. rewrite descendants_root. unfold Spec.descendant_of.
  pose proof (iter_from_sorted root []) as Hsorted.
  pose proof (in_iter_from root [] r) as Hin.
  destruct (iter_from_head root []) as [rest Hrest].
  rewrite Hrest in Hsorted, Hin. rewrite Hrest. simpl tl. simpl In in Hin.
  inversion Hsorted as [| ? ? _ Hhead]; subst.
  rewrite Forall_forall in Hhead. split.
  - intros Hr. split.
    + specialize (Hhead r Hr). simpl in Hhead.
      intros Hnil. rewrite Hnil in Hhead. exact Hhead.
    + apply Hin. right. exact Hr.
  - intros [Hpath Hloc]. apply Hin in Hloc as [<- | Hr].
    + exfalso. apply Hpath. reflexivity.
    + exact Hr.
Qed.

Lemma descendants_root_sorted :
  forall root, Spec.in_document_order (descendants (root_ref root)).
Proof.
  intros root. rewrite descendants_root.
  pose proof (iter_from_sorted root []) as Hsorted.
  destruct (iter_from_head root []) as [rest Hrest].
  rewrite Hrest in Hsorted. rewrite Hrest. simpl.
  inversion Hsorted; assumption.
Qed.

(** ** Point rules *)

Lemma lstrip_non_space :
  forall s, Spec.has_non_space (PyStr.lstrip s) <-> Spec.has_non_space s.
Proof.
  induction s as [| c s IH]; simpl.
  - reflexivity.
  - destruct (PyStr.isspace c) eqn:Hc; [| reflexivity].
    rewrite IH. unfold Spec.has_non_space. simpl. split.
    + intros [d [Hd Hsp]]. exists d. auto.
    + intros [d [[<- | Hd] Hsp]]; [congruence | exists d; auto].
Qed.

Lemma rstrip_truthy :
  forall s, PyStr.truthy (PyStr.rstrip s) = true <-> Spec.has_non_space s.
Proof.
  unfold Spec.has_non_space. induction s as [| c s IH]; simpl.
  - split; [discriminate | intros [d [[] _]]].
  - destruct (PyStr.rstrip s) as [| c' r] eqn:Hr.
    + destruct (PyStr.isspace c) eqn:Hc; simpl.
      * split; [discriminate |].
        intros [d [[<- | Hd] Hsp]]; [congruence |].
        apply IH. exists d. auto.
      * split; [| reflexivity]. intros _. exists c. auto.
    + simpl. split; [| reflexivity]. intros _.
      destruct (proj1 IH eq_refl) as [d [Hd Hsp]]. exists d. auto.
Qed.

(** A stripped string is not empty exactly when the string holds a
    character that is not whitespace. *)
Lemma strip_truthy :
  forall s, PyStr.truthy (PyStr.strip s) = true <-> Spec.has_non_space s.
Proof.
  intros s. unfold PyStr.strip. rewrite rstrip_truthy. apply lstrip_non_space.
Qed.

Lemma carries_iff :
  forall key n,
    Spec.carries key n <->
    has key (attrib_of n) = true
    /\ PyStr.truthy (PyStr.strip (get_default key EmptyString (attrib_of n)))
       = true.
Proof.
  intros key n. unfold Spec.carries, has, get_default.
  destruct (get key (attrib_of n)) as [v |].
  - rewrite strip_truthy. split.
    + intros [w [Hw Hns]]. injection Hw as <-. auto.
    + intros [_ Hns]. exists v. auto.
  - split.
    + intros [w [Hw _]]. discriminate.
    + intros [Hf _]. discriminate.
Qed.

Lemma in_point_rules :
  forall root r,
    In r (Point.point_rules root) <->
    Spec.descendant_of root r /\ Spec.is_point_rule (self r).
Proof.
  intros root r. unfold Point.point_rules, Point.findall_cases, select.
  rewrite !filter_In, in_descendants_root.
  unfold Spec.is_point_rule. rewrite !carries_iff.
  unfold Point.incomplete, Point.tag_of, Point.value_of, Point.icon_name_of.
  rewrite negb_true_iff, !orb_false_iff, !negb_false_iff, !andb_true_iff.
  tauto.
Qed.

(** C1, as the code has it: the point rules are exactly the proper
    descendants of the root that are [case] elements and carry the
    attributes [tag], [value] and [icon], each with more than whitespace,
    and they come in document order. *)
Theorem point_rules_spec :
  forall root : node,
    (forall r,
        In r (Point.point_rules root) <->
        Spec.descendant_of root r /\ Spec.is_point_rule (self r))
    /\ Spec.in_document_order (Point.point_rules root).
Proof.
  intros root. split.
  - apply in_point_rules.
  - unfold Point.point_rules, Point.findall_cases, select.
    apply sorted_filter, sorted_filter, descendants_root_sorted.
Qed.

(** C1 as the claim states it fails: a descendant that is not a [case]
    carries the three attributes and is not a point rule. *)
Lemma point_rules_only_cases :
  ~ (forall root r,
        Spec.descendant_of root r ->
        Spec.carries "tag" (self r) ->
        Spec.carries "value" (self r) ->
        Spec.carries "icon" (self r) ->
        In r (Point.point_rules root)).
Proof.
  intros H.
  pose (rule :=
          Element "filter"
            [("tag", "amenity"); ("value", "bench"); ("icon", "bench")]
            EmptyString [] EmptyString).
  pose (root := Element "renderingStyle" [] EmptyString [rule] EmptyString).
  assert (Hc : forall key,
             In key ["tag"; "value"; "icon"] -> Spec.carries key rule).
  { intros key Hkey. simpl in Hkey.
    destruct Hkey as [<- | [<- | [<- | []]]];
      (eexists; split; [reflexivity |]);
      (eexists; split; [left; reflexivity | reflexivity]). }
  assert (Hin : In (mkRef [0%nat] rule [root]) (Point.point_rules root)).
  { apply H.
    - repeat split. discriminate.
    - apply Hc. simpl. auto.
    - apply Hc. simpl. auto.
    - apply Hc. simpl. auto. }
  vm_compute in Hin. exact Hin.
Qed.

Lemma point_rules_spec_witness :
  In (mkRef [0; 0]%nat
        (Element "case"
           [("tag", "amenity"); ("value", "bench"); ("icon", "bench")]
           EmptyString [] EmptyString)
        [Element "switch" [("shield", "round")] EmptyString
           [Element "case"
              [("tag", "amenity"); ("value", "bench"); ("icon", "bench")]
              EmptyString [] EmptyString]
           EmptyString;
         Element "renderingStyle" [] EmptyString
           [Element "switch" [("shield", "round")] EmptyString
              [Element "case"
                 [("tag", "amenity"); ("value", "bench"); ("icon", "bench")]
                 EmptyString [] EmptyString]
              EmptyString]
           EmptyString])
     (Point.point_rules
        (Element "renderingStyle" [] EmptyString
           [Element "switch" [("shield", "round")] EmptyString
              [Element "case"
                 [("tag", "amenity"); ("value", "bench"); ("icon", "bench")]
                 EmptyString [] EmptyString]
              EmptyString]
           EmptyString)).
Proof.
  apply (proj1 (point_rules_spec _)). split.
  - repeat split. discriminate.
  - split; [reflexivity |].
    repeat split;
      (eexists; split; [reflexivity |]);
      (eexists; split; [left; reflexivity | reflexivity]).
Defined.

(** A tag that is a no-break space is blank: the case is no point rule. *)
Example no_break_space_tag :
  Point.point_rules
    (Element "renderingStyle" [] EmptyString
       [Element "case"
          [("tag", String "160" EmptyString); ("value", "bench");
           ("icon", "bench")]
          EmptyString [] EmptyString]
       EmptyString)
  = [].
Proof. vm_compute. reflexivity. Qed.

(** ** Strings *)

Lemma append_assoc :
  forall a b c : string, (a ++ b) ++ c = a ++ (b ++ c).
Proof.
  induction a as [| x a IH]; intros b c; simpl.
  - reflexivity.
  - rewrite IH. reflexivity.
Qed.

Lemma prefix_iff :
  forall p s, prefix p s = true <-> exists r, s = p ++ r.
Proof.
  induction p as [| x p IH]; intros s.
  - split.
    + intros _. exists s. reflexivity.
    + intros _. destruct s; reflexivity.
  - destruct s as [| y s]; simpl.
    + split; [discriminate | intros [r Hr]; discriminate].
    + destruct (ascii_dec x y) as [-> | Hne].
      * rewrite IH. split; intros [r Hr]; exists r; congruence.
      * split; [discriminate |]. intros [r Hr]. congruence.
Qed.

Lemma contains_unfold :
  forall p s,
    PyStr.contains p s
    = prefix p s
      || match s with
         | EmptyString => false
         | String _ s' => PyStr.contains p s'
         end.
Proof. intros p [| c s]; reflexivity. Qed.

Lemma contains_iff :
  forall p s, PyStr.contains p s = true <-> Spec.within p s.
Proof.
  intros p s. unfold Spec.within. split.
  - induction s as [| c s IH]; rewrite contains_unfold; intros H;
      apply orb_true_iff in H as [H | H].
    + apply prefix_iff in H as [r Hr]. exists EmptyString, r. exact Hr.
    + discriminate.
    + apply prefix_iff in H as [r Hr]. exists EmptyString, r. exact Hr.
    + destruct (IH H) as [a [b Hab]]. exists (String c a), b.
      simpl. rewrite Hab. reflexivity.
  - intros [a [b ->]]. induction a as [| c a IH]; rewrite contains_unfold.
    + simpl. apply orb_true_iff. left. apply prefix_iff. eauto.
    + simpl. rewrite IH. apply orb_true_r.
Qed.

Lemma within_refl : forall s, Spec.within s s.
Proof.
  intros s. exists EmptyString, EmptyString. simpl.
  induction s as [| c s IH]; simpl; congruence.
Qed.

Lemma within_trans :
  forall r t s, Spec.within r t -> Spec.within t s -> Spec.within r s.
Proof.
  intros r t s [a [b ->]] [a' [b' ->]].
  exists (a' ++ a), (b ++ b'). rewrite !append_assoc. reflexivity.
Qed.

Lemma within_app_l :
  forall t s x, Spec.within t s -> Spec.within t (x ++ s).
Proof.
  intros t s x [a [b ->]]. exists (x ++ a), b. rewrite append_assoc. reflexivity.
Qed.

Lemma within_app_r :
  forall t s x, Spec.within t s -> Spec.within t (s ++ x).
Proof.
  intros t s x [a [b ->]]. exists a, (b ++ x). rewrite !append_assoc. reflexivity.
Qed.

(** ** Serialization of a subtree *)

Lemma tostring_element :
  forall tag a text c cs tail,
    tostring (Element tag a text (c :: cs) tail)
    = "<" ++ tag ++ attribs_str a ++
      (">" ++ escape_text text ++ Spec.tostring_all (c :: cs)
       ++ "</" ++ tag ++ ">") ++ escape_text tail.
Proof.
  intros tag a text c cs tail.
  assert (Hall : forall l,
             (fix all (cs : list node) : string :=
                match cs with
                | [] => EmptyString
                | c :: cs' => tostring c ++ all cs'
                end) l = Spec.tostring_all l).
  { induction l as [| x l IH]; simpl; [reflexivity | rewrite IH; reflexivity]. }
  cbn [tostring]. rewrite Hall. destruct text; reflexivity.
Qed.

Lemma tostring_all_within :
  forall cs c, In c cs -> Spec.within (tostring c) (Spec.tostring_all cs).
Proof.
  induction cs as [| x cs IH]; intros c Hin; [contradiction |].
  simpl. destruct Hin as [-> | Hin].
  - apply within_app_r, within_refl.
  - apply within_app_l, IH, Hin.
Qed.

Lemma tostring_child_within :
  forall n c, In c (children_of n) -> Spec.within (tostring c) (tostring n).
Proof.
  intros [tag a text cs tail | body tail] c Hin; simpl in Hin; [| contradiction].
  destruct cs as [| x cs]; [contradiction |].
  rewrite tostring_element.
  do 3 apply within_app_l. apply within_app_r.
  do 2 apply within_app_l. apply within_app_r.
  apply tostring_all_within, Hin.
Qed.

(** The serialization of a node holds that of every node below it. *)
Lemma tostring_descendant_within :
  forall n ups d,
    In d (iter_from ups n) -> Spec.within (tostring (self d)) (tostring n).
Proof.
  induction n as [tag a text cs tail IH | body tail] using node_ind';
    intros ups d Hin.
  - rewrite iter_from_element in Hin. destruct Hin as [<- | Hin].
    + apply within_refl.
    + apply in_iter_below in Hin as [j [c [d' [Hnth [Hin ->]]]]].
      apply nth_error_In in Hnth. rewrite Forall_forall in IH.
      apply within_trans with (t := tostring c).
      * apply (IH c Hnth _ _ Hin).
      * apply tostring_child_within. exact Hnth.
  - destruct Hin as [<- | []]. apply within_refl.
Qed.

Lemma in_tl : forall (A : Type) (x : A) l, In x (tl l) -> In x l.
Proof. intros A x [| y l] H; [exact H | right; exact H]. Qed.

Lemma select_within :
  forall name pred r d,
    In d (select name pred r) ->
    Spec.within (tostring (self d)) (tostring (self r)).
Proof.
  intros name pred r d Hin. unfold select, descendants in Hin.
  apply filter_In in Hin as [Hin _].
  apply in_map_iff in Hin as [d' [<- Hin]]. simpl.
  apply in_tl in Hin. apply (tostring_descendant_within _ _ _ Hin).
Qed.

Lemma candidate_text_within :
  forall case_elem t,
    In t (Spec.candidate_texts case_elem) ->
    Spec.within t (tostring (self case_elem)).
Proof.
  intros case_elem t Hin. unfold Spec.candidate_texts in Hin.
  apply in_flat_map in Hin as [apply_elem [Happly Hin]].
  apply in_map_iff in Hin as [c [<- Hc]].
  apply within_trans with (t := tostring (self apply_elem)).
  - apply (select_within _ _ _ _ Hc).
  - apply (select_within _ _ _ _ Happly).
Qed.

(** ** Stroke width *)

Lemma re_search_unfold :
  forall p s,
    Road.re_search p s
    = match Road.match_here p s with
      | Some v => Some v
      | None =>
          match s with
          | EmptyString => None
          | String _ s' => Road.re_search p s'
          end
      end.
Proof. intros p [| c s]; reflexivity. Qed.

Lemma re_search_contains :
  forall p s v, Road.re_search p s = Some v -> PyStr.contains p s = true.
Proof.
  intros p s v. induction s as [| c s IH];
    rewrite re_search_unfold, contains_unfold; unfold Road.match_here;
    destruct (prefix (p ++ dquote) _) eqn:Hpre.
  - intros _. apply prefix_iff in Hpre as [r Hr].
    apply orb_true_iff. left. apply prefix_iff.
    exists (dquote ++ r). rewrite <- append_assoc. exact Hr.
  - discriminate.
  - intros _. apply prefix_iff in Hpre as [r Hr].
    apply orb_true_iff. left. apply prefix_iff.
    exists (dquote ++ r). rewrite <- append_assoc. exact Hr.
  - intros H. rewrite (IH H). apply orb_true_r.
Qed.

Lemma try_patterns_none :
  forall patterns text,
    Spec.no_value patterns text -> Road.try_patterns patterns text = None.
Proof.
  intros patterns text Hno. induction Hno as [| q patterns Hq Hno IH]; simpl.
  - reflexivity.
  - rewrite Hq, IH. destruct (PyStr.contains q text); reflexivity.
Qed.

Lemma try_patterns_first :
  forall patterns text v,
    Spec.first_value patterns text v ->
    Road.try_patterns patterns text = Some v.
Proof.
  intros patterns text v [earlier [p [later [-> [Hno Hp]]]]].
  induction Hno as [| q earlier Hq Hno IH]; simpl.
  - rewrite (re_search_contains _ _ _ Hp), Hp. reflexivity.
  - rewrite Hq, IH. destruct (PyStr.contains q text); reflexivity.
Qed.

Lemma search_texts_app :
  forall patterns l1 l2,
    Spec.search_texts patterns (l1 ++ l2)
    = match Spec.search_texts patterns l1 with
      | Some v => Some v
      | None => Spec.search_texts patterns l2
      end.
Proof.
  intros patterns l1 l2. induction l1 as [| t l1 IH]; simpl.
  - reflexivity.
  - destruct (Road.try_patterns patterns t); [reflexivity | exact IH].
Qed.

Lemma search_cases_texts :
  forall patterns cases,
    Road.search_cases patterns cases
    = Spec.search_texts patterns
        (List.map (fun c => tostring (self c)) cases).
Proof.
  intros patterns cases. induction cases as [| c cases IH]; simpl.
  - reflexivity.
  - rewrite IH. reflexivity.
Qed.

(** The two nested loops search the candidate texts in order. *)
Lemma search_applies_texts :
  forall patterns case_elem,
    Road.search_applies patterns (select "apply" (fun _ => true) case_elem)
    = Spec.search_texts patterns (Spec.candidate_texts case_elem).
Proof.
  intros patterns case_elem. unfold Spec.candidate_texts.
  induction (select "apply" (fun _ => true) case_elem) as [| a applies IH];
    simpl.
  - reflexivity.
  - rewrite search_texts_app, search_cases_texts, IH. reflexivity.
Qed.

Lemma search_texts_none :
  forall patterns texts,
    Forall (Spec.no_value patterns) texts ->
    Spec.search_texts patterns texts = None.
Proof.
  intros patterns texts Hall. induction Hall as [| t texts Ht Hall IH]; simpl.
  - reflexivity.
  - rewrite (try_patterns_none _ _ Ht). exact IH.
Qed.

Lemma search_texts_first :
  forall patterns before t after v,
    Forall (Spec.no_value patterns) before ->
    Spec.first_value patterns t v ->
    Spec.search_texts patterns (before ++ t :: after) = Some v.
Proof.
  intros patterns before t after v Hbefore Ht.
  rewrite search_texts_app, (search_texts_none _ _ Hbefore). simpl.
  rewrite (try_patterns_first _ _ _ Ht). reflexivity.
Qed.

Lemma split_head_no_sep :
  forall v, PyStr.contains ":" v = false -> PyStr.split_head ":" v = v.
Proof.
  induction v as [| c v IH]; intros H.
  - reflexivity.
  - rewrite contains_unfold in H. apply orb_false_iff in H as [Hpre Hrest].
    simpl. destruct (Ascii.eqb_spec c ":") as [-> | Hne].
    + simpl in Hpre. destruct v; discriminate.
    + rewrite (IH Hrest). reflexivity.
Qed.

Lemma parse_width_head :
  forall v, Road.parse_width v = PyFloat.of_str (PyStr.split_head ":" v).
Proof.
  intros v. unfold Road.parse_width.
  destruct (PyStr.contains ":" v) eqn:H.
  - reflexivity.
  - rewrite (split_head_no_sep _ H). reflexivity.
Qed.

Lemma pattern_holds_attribute :
  forall zoom_level q,
    In q (Road.stroke_width_attrs zoom_level) ->
    Spec.within "strokeWidth=" q.
Proof.
  intros zoom_level q Hq. unfold Road.stroke_width_attrs in Hq.
  destruct Hq as [<- | [<- | [<- | []]]].
  - exists ("maxzoom=" ++ dquote ++ PyStr.of_int zoom_level ++ dquote ++ " "),
           EmptyString.
    rewrite !append_assoc. reflexivity.
  - exists ("minzoom=" ++ dquote ++ PyStr.of_int zoom_level ++ dquote ++ " "),
           EmptyString.
    rewrite !append_assoc. reflexivity.
  - apply within_refl.
Qed.

Lemma no_attribute_no_value :
  forall zoom_level text,
    PyStr.contains "strokeWidth=" text = false ->
    Spec.no_value (Road.stroke_width_attrs zoom_level) text.
Proof.
  intros zoom_level text Hnone. apply Forall_forall. intros q Hq.
  destruct (Road.re_search q text) as [v |] eqn:Hv; [| reflexivity].
  exfalso. apply re_search_contains, contains_iff in Hv.
  assert (Hin : Spec.within "strokeWidth=" text).
  { apply within_trans with (t := q);
      [apply (pattern_holds_attribute _ _ Hq) | exact Hv]. }
  apply contains_iff in Hin. congruence.
Qed.

(** C7, as the code has it: the width is searched in the serialized
    [case] elements nested in the [apply] elements of the rule, in document
    order; the first of them in which one of [maxzoom="Z" strokeWidth=],
    [minzoom="Z" strokeWidth=] and the bare [strokeWidth=], tried in that
    order, is followed by a quoted value gives the width, the part of the
    value before the first colon read as a float; the default 2.0 is
    returned when none of them has such a value, and so when the rule's
    subtree holds no [strokeWidth=] at all. *)
Theorem extract_stroke_width_spec :
  forall (case_elem : ref) (zoom_level : Z),
    (forall before t after v,
        Spec.candidate_texts case_elem = (before ++ t :: after)%list ->
        Forall (Spec.no_value (Road.stroke_width_attrs zoom_level)) before ->
        Spec.first_value (Road.stroke_width_attrs zoom_level) t v ->
        Road.extract_stroke_width_for_zoom case_elem zoom_level
        = PyFloat.of_str (PyStr.split_head ":" v))
    /\ (Forall (Spec.no_value (Road.stroke_width_attrs zoom_level))
               (Spec.candidate_texts case_elem) ->
        Road.extract_stroke_width_for_zoom case_elem zoom_level
        = Ok (PyFloat.literal "2.0"))
    /\ (PyStr.contains "strokeWidth=" (tostring (self case_elem)) = false ->
        Road.extract_stroke_width_for_zoom case_elem zoom_level
        = Ok (PyFloat.literal "2.0")).
Proof.
  intros case_elem zoom_level. unfold Road.extract_stroke_width_for_zoom.
  rewrite search_applies_texts.
  assert (Hdefault :
            Forall (Spec.no_value (Road.stroke_width_attrs zoom_level))
                   (Spec.candidate_texts case_elem) ->
            match
              Spec.search_texts (Road.stroke_width_attrs zoom_level)
                (Spec.candidate_texts case_elem)
            with
            | Some width_str => Road.parse_width width_str
            | None => Ok Road.default_width
            end = Ok (PyFloat.literal "2.0")).
  { intros Hall. rewrite (search_texts_none _ _ Hall). reflexivity. }
  split; [| split].
  - intros before t after v Htexts Hbefore Ht.
    rewrite Htexts, (search_texts_first _ _ _ _ _ Hbefore Ht).
    apply parse_width_head.
  - exact Hdefault.
  - intros Hnone. apply Hdefault. apply Forall_forall. intros t Ht.
    apply no_attribute_no_value.
    destruct (PyStr.contains "strokeWidth=" t) eqn:Hc; [| reflexivity].
    exfalso. apply contains_iff in Hc.
    assert (Hin : Spec.within "strokeWidth=" (tostring (self case_elem))).
    { apply within_trans with (t := t);
        [exact Hc | apply candidate_text_within; exact Ht]. }
    apply contains_iff in Hin. congruence.
Qed.

Lemma extract_stroke_width_spec_witness :
  Road.extract_stroke_width_for_zoom Spec.rule_zoom_16 16
  = PyFloat.of_str (PyStr.split_head ":" "4.5:4.5").
Proof.
  apply (proj1 (extract_stroke_width_spec Spec.rule_zoom_16 16)
           [] (tostring Spec.width_case_16) [] "4.5:4.5").
  - vm_compute. reflexivity.
  - constructor.
  - exists [],
      ("maxzoom=" ++ dquote ++ PyStr.of_int 16 ++ dquote ++ " strokeWidth="),
      ["minzoom=" ++ dquote ++ PyStr.of_int 16 ++ dquote ++ " strokeWidth=";
       "strokeWidth="].
    split; [reflexivity |]. split; [constructor |].
    vm_compute. reflexivity.
Defined.

Example width_of_rule_zoom_16 :
  Road.extract_stroke_width_for_zoom Spec.rule_zoom_16 16
  = Ok (PyFloat.literal "4.5").
Proof. vm_compute. reflexivity. Qed.

(** C7 as the claim states it fails: a rule whose subtree has no width
    for zoom 16 gets the width given for zoom 12, not the default. *)
Lemma stroke_width_of_other_zoom :
  ~ (forall case_elem : ref,
        PyStr.contains
          ("maxzoom=" ++ dquote ++ "16" ++ dquote ++ " strokeWidth=")
          (tostring (self case_elem)) = false ->
        PyStr.contains
          ("minzoom=" ++ dquote ++ "16" ++ dquote ++ " strokeWidth=")
          (tostring (self case_elem)) = false ->
        Road.extract_stroke_width_for_zoom case_elem 16
        = Ok (PyFloat.literal "2.0")).
Proof.
  intros H. specialize (H Spec.rule_zoom_12).
  assert (Hw : Road.extract_stroke_width_for_zoom Spec.rule_zoom_12 16
               = Ok (PyFloat.literal "3")) by (vm_compute; reflexivity).
  rewrite Hw in H.
  assert (Habs : Ok (PyFloat.literal "3") = Ok (PyFloat.literal "2.0")).
  { apply H; vm_compute; reflexivity. }
  vm_compute in Habs. discriminate Habs.
Qed.

(** ** The written documents *)

Lemma replace_from_skip :
  forall a old new s,
    PyStr.replace_from (length a) old new (a ++ s)
    = PyStr.replace_from 0 old new s.
Proof.
  induction a as [| c a IH]; intros old new s; simpl.
  - reflexivity.
  - apply IH.
Qed.

(** An occurrence at the head of the string is replaced. *)
Lemma replace_head :
  forall c old new s,
    PyStr.replace (String c old) new (String c old ++ s)
    = new ++ PyStr.replace (String c old) new s.
Proof.
  intros c old new s. unfold PyStr.replace. simpl PyStr.replace_from.
  assert (Hpre : prefix (String c old) (String c (old ++ s)) = true)
    by (apply prefix_iff; exists s; reflexivity).
  simpl in Hpre. simpl. rewrite Hpre.
  rewrite Nat.sub_0_r, replace_from_skip. reflexivity.
Qed.

Lemma road_output_shape :
  forall writable root output_path content,
    Road.generate_qgis_style writable root output_path = Ok content ->
    exists syms,
      content
      = Road.doctype ++ PyStr.nl ++ pretty true 0 (Road.qgis_style syms)
        ++ PyStr.nl.
Proof.
  intros writable root output_path content H.
  unfold Road.generate_qgis_style in H.
  destruct (Road.extract_road_info root (Road.extract_color_definitions root))
    as [roads | e]; simpl in H; [| discriminate].
  destruct (Road.create_symbols roads) as [syms | e]; simpl in H;
    [| discriminate].
  destruct (writable output_path); [| discriminate].
  injection H as <-. exists syms. reflexivity.
Qed.

Lemma pretty_root_head :
  forall syms,
    exists rest,
      pretty true 0 (Road.qgis_style syms) = "<qgis_style version=" ++ rest.
Proof.
  intros syms. eexists. unfold Road.qgis_style, element. cbn [fold_left].
  cbn [pretty]. simpl attribs_str. simpl append. reflexivity.
Qed.

(** The declaration [tree.write] writes has the encoding in upper case:
    the replace of [main], which looks for it in lower case, leaves the
    head of the document as it is, and the root element follows the
    declaration. *)
Lemma point_output_head :
  forall syms,
    exists rest,
      PyStr.replace Point.xml_declaration
        (Point.xml_declaration ++ PyStr.nl ++ Point.doctype)
        (Point.write "utf-8" (indent (Point.qgis_style syms)))
      = "<?xml version='1.0' encoding='UTF-8'?>" ++ PyStr.nl
        ++ "<qgis_style version=" ++ rest.
Proof.
  intros syms. eexists.
  unfold Point.write, Point.qgis_style, element, indent, tostring_root.
  cbn [fold_left indent_children set_tail tostring].
  simpl attribs_str.
  unfold PyStr.replace, Point.xml_declaration. simpl. reflexivity.
Qed.

Lemma empty_line_document_written :
  exists content,
    Road.generate_qgis_style Spec.all_writable Spec.empty_line_document
      "styles/roads.xml" = Ok content.
Proof.
  unfold Road.generate_qgis_style.
  destruct (Road.extract_road_info Spec.empty_line_document
              (Road.extract_color_definitions Spec.empty_line_document))
    as [roads | e] eqn:Hroads; [| vm_compute in Hroads; discriminate].
  cbn [bind].
  match goal with
  | |- context [Road.create_symbols ?l] =>
      destruct (Road.create_symbols l) as [syms | e] eqn:Hsyms;
      [| vm_compute in Hroads; injection Hroads as <-;
         vm_compute in Hsyms; discriminate]
  end.
  cbn [bind]. eexists. reflexivity.
Qed.

(** C8, as the code has it by design: the roads document begins with the
    document type declaration, directly followed by the root element, and
    no XML declaration stands before it. *)
Theorem doctype_position :
  forall writable root output_path content,
    Road.generate_qgis_style writable root output_path = Ok content ->
    exists rest,
      content
      = "<!DOCTYPE qgis_style>" ++ PyStr.nl ++ "<qgis_style version=" ++ rest.
Proof.
  intros writable root output_path content H.
  apply road_output_shape in H as [syms ->].
  destruct (pretty_root_head syms) as [rest ->].
  exists (rest ++ PyStr.nl). unfold Road.doctype.
  rewrite !append_assoc. reflexivity.
Qed.

Lemma doctype_position_witness :
  exists content rest,
    Road.generate_qgis_style Spec.all_writable Spec.empty_line_document
      "styles/roads.xml" = Ok content
    /\ content
       = "<!DOCTYPE qgis_style>" ++ PyStr.nl ++ "<qgis_style version=" ++ rest.
Proof.
  destruct empty_line_document_written as [content H].
  destruct (doctype_position _ _ _ _ H) as [rest Hrest].
  exists content, rest. split; assumption.
Defined.

(** C8 as the claim states it fails: no XML prolog stands before the
    document type declaration of the roads document. *)
Lemma road_output_has_no_prolog :
  ~ (forall writable root output_path content,
        Road.generate_qgis_style writable root output_path = Ok content ->
        exists prolog rest,
          prefix "<?xml" prolog = true
          /\ content = prolog ++ "<!DOCTYPE qgis_style>" ++ rest).
Proof.
  intros H.
  destruct empty_line_document_written as [content Hc].
  destruct (H _ _ _ _ Hc) as [prolog [rest [Hpre Hcontent]]].
  apply road_output_shape in Hc as [syms Hshape].
  apply prefix_iff in Hpre as [r ->].
  rewrite Hshape in Hcontent. simpl in Hcontent. discriminate Hcontent.
Qed.

(** ** Duplicates *)

Lemma existsb_same_members :
  forall (f : string -> bool) (l1 l2 : list string),
    (forall k, In k l1 <-> In k l2) -> existsb f l1 = existsb f l2.
Proof.
  intros f l1 l2 H.
  destruct (existsb f l1) eqn:H1; destruct (existsb f l2) eqn:H2;
    try reflexivity.
  - apply existsb_exists in H1 as [k [Hk Hf]]. apply H in Hk.
    assert (existsb f l2 = true) by (apply existsb_exists; eauto). congruence.
  - apply existsb_exists in H2 as [k [Hk Hf]]. apply H in Hk.
    assert (existsb f l1 = true) by (apply existsb_exists; eauto). congruence.
Qed.

Lemma dedup_first_same_members :
  forall (A : Type) (key : A -> string) (l : list A) (s1 s2 : list string),
    (forall k, In k s1 <-> In k s2) ->
    Spec.dedup_first key s1 l = Spec.dedup_first key s2 l.
Proof.
  intros A key l. induction l as [| x l IH]; intros s1 s2 H; simpl.
  - reflexivity.
  - rewrite (existsb_same_members _ s1 s2 H).
    destruct (existsb (String.eqb (key x)) s2).
    + apply IH. exact H.
    + f_equal. apply IH. intros k. simpl. rewrite H. reflexivity.
Qed.

Lemma existsb_eqb_in :
  forall k l, existsb (String.eqb k) l = true <-> In k l.
Proof.
  intros k l. rewrite existsb_exists. split.
  - intros [x [Hx Heq]]. apply String.eqb_eq in Heq. subst. exact Hx.
  - intros H. exists k. split; [exact H | apply String.eqb_refl].
Qed.

(** What is kept has pairwise distinct keys, none of them taken before. *)
Lemma dedup_first_keys :
  forall (A : Type) (key : A -> string) (l : list A) (seen : list string),
    NoDup (List.map key (Spec.dedup_first key seen l))
    /\ forall x, In x (Spec.dedup_first key seen l) -> ~ In (key x) seen.
Proof.
  intros A key l. induction l as [| x l IH]; intros seen; simpl.
  - split; [constructor | contradiction].
  - destruct (existsb (String.eqb (key x)) seen) eqn:Hseen.
    + apply IH.
    + destruct (IH (key x :: seen)) as [Hnodup Hout]. split.
      * simpl. constructor; [| exact Hnodup].
        intros Hin. apply in_map_iff in Hin as [y [Hy Hin]].
        apply (Hout y Hin). left. symmetry. exact Hy.
      * intros y [<- | Hy].
        -- intros Hin. apply existsb_eqb_in in Hin. congruence.
        -- intros Hin. apply (Hout y Hy). right. exact Hin.
Qed.

(** *** Points *)

Lemma filter_symbol_built :
  forall ups value icon_base64 shield_base64 n,
    filter (Spec.names n)
      (iter_from ups (Point.create_qgis_symbol value icon_base64 shield_base64))
    = if String.eqb value n
      then [mkRef [] (Point.create_qgis_symbol value icon_base64 shield_base64)
                  ups]
      else [].
Proof.
  intros ups value icon_base64 shield_base64 n.
  unfold Spec.names. vm_compute. reflexivity.
Qed.

Lemma found_below :
  forall syms ups i n,
    Forall Spec.built_point_symbol syms ->
    match filter (Spec.names n) (Spec.iter_below ups i syms) with
    | [] => false
    | _ :: _ => true
    end
    = existsb (fun s => String.eqb (Spec.name_of s) n) syms.
Proof.
  induction syms as [| s syms IH]; intros ups i n Hall; simpl.
  - reflexivity.
  - inversion Hall as [| ? ? [value [icon [shield ->]]] Hrest]; subst.
    rewrite filter_app, filter_map_swap.
    rewrite (filter_ext (fun a => Spec.names n (under i a)) (Spec.names n))
      by reflexivity.
    rewrite filter_symbol_built.
    change (Spec.name_of (Point.create_qgis_symbol value icon shield))
      with value.
    destruct (String.eqb value n); simpl.
    + reflexivity.
    + apply IH. exact Hrest.
Qed.

(** The query for a symbol of a name without apostrophe finds one exactly
    when a symbol held has the name. *)
Lemma existing_symbols_built :
  forall lib syms n,
    Forall Spec.built_point_symbol syms ->
    PyStr.contains "'" n = false ->
    Point.existing_symbols lib (element "symbols" [] syms) n
    = Ok (existsb (fun s => String.eqb (Spec.name_of s) n) syms).
Proof.
  intros lib syms n Hall Hquote. unfold Point.existing_symbols.
  rewrite Hquote. f_equal.
  rewrite <- (found_below syms [element "symbols" [] syms] 0 n Hall).
  unfold select. rewrite descendants_root.
  unfold element. simpl fold_left. rewrite iter_from_element. reflexivity.
Qed.

Lemma step_spec :
  forall lib files st c,
    Forall Spec.built_point_symbol (Point.symbols st) ->
    (Point.incomplete c = false ->
     PyStr.contains "'" (Point.symbol_name_of c) = false) ->
    exists st',
      Point.step lib files st c = Ok st'
      /\ Point.symbols st'
         = match Spec.produces files c with
           | Some s =>
               if existsb (fun x => String.eqb (Spec.name_of x) (Spec.name_of s))
                          (Point.symbols st)
               then Point.symbols st
               else (Point.symbols st ++ [s])%list
           | None => Point.symbols st
           end.
Proof.
  intros lib files st c Hall Hquote.
  unfold Point.step, Spec.produces.
  destruct (Point.incomplete c); [eauto |].
  unfold Point.symbols_container.
  rewrite (existing_symbols_built _ _ _ Hall (Hquote eq_refl)). cbn [bind].
  destruct (Point.find_shield_value c) as [shield |].
  2: { destruct (existsb _ _); eexists; split; reflexivity. }
  destruct (negb (PyStr.truthy shield)).
  { destruct (existsb _ _); eexists; split; reflexivity. }
  destruct (files _) as [icon |].
  2: { destruct (existsb _ _); eexists; split; reflexivity. }
  destruct (files _) as [sh |].
  2: { destruct (existsb _ _); eexists; split; reflexivity. }
  change (Spec.name_of
            (Point.create_qgis_symbol (Point.symbol_name_of c)
               ("base64:" ++ Base64.b64encode icon)
               ("base64:" ++ Base64.b64encode sh)))
    with (Point.symbol_name_of c).
  destruct (existsb _ _); eexists; split; reflexivity.
Qed.

Lemma names_of_symbols :
  forall k syms,
    existsb (fun x => String.eqb (Spec.name_of x) k) syms
    = existsb (String.eqb k) (List.map Spec.name_of syms).
Proof.
  intros k syms. induction syms as [| s syms IH]; simpl.
  - reflexivity.
  - rewrite IH, String.eqb_sym. reflexivity.
Qed.

(** The loop keeps, of the symbols the cases stand for, the first of each
    name. *)
Lemma run_spec :
  forall lib files cases st,
    Forall Spec.built_point_symbol (Point.symbols st) ->
    (forall c, In c cases -> Point.incomplete c = false ->
               PyStr.contains "'" (Point.symbol_name_of c) = false) ->
    exists st',
      Point.run lib files st cases = Ok st'
      /\ Point.symbols st'
         = (Point.symbols st
            ++ Spec.dedup_first Spec.name_of
                 (List.map Spec.name_of (Point.symbols st))
                 (Spec.point_candidates files cases))%list.
Proof.
  intros lib files cases. induction cases as [| c cases IH];
    intros st Hall Hquote.
  - exists st. split; [reflexivity |]. simpl. rewrite app_nil_r. reflexivity.
  - destruct (step_spec lib files st c Hall (Hquote c (or_introl eq_refl)))
      as [st1 [Hstep Hsyms]].
    assert (Hall1 : Forall Spec.built_point_symbol (Point.symbols st1))
      by (apply (step_built _ _ _ _ _ Hstep Hall)).
    destruct (IH st1 Hall1) as [st' [Hrun Hsyms']].
    { intros c' Hc'. apply Hquote. right. exact Hc'. }
    exists st'. simpl. rewrite Hstep. cbn [bind]. split; [exact Hrun |].
    rewrite Hsyms', Hsyms. unfold Spec.point_candidates. simpl.
    destruct (Spec.produces files c) as [s |]; simpl; [| reflexivity].
    rewrite names_of_symbols.
    destruct (existsb (String.eqb (Spec.name_of s))
                (List.map Spec.name_of (Point.symbols st))); [reflexivity |].
    rewrite <- app_assoc. simpl. do 2 f_equal.
    apply dedup_first_same_members. intros k.
    rewrite map_app, in_app_iff. simpl. tauto.
Qed.

(** *** Roads *)

Lemma visit_case_test :
  forall defs roads seen c,
    Road.visit_case defs (roads, seen) c
    = if Spec.road_case c && negb (Road.processed (Spec.road_value c) seen)
      then road <- Spec.build_road defs c ;;
           Ok ((roads ++ [road])%list, Spec.road_value c :: seen)
      else Ok (roads, seen).
Proof.
  intros defs roads seen c. unfold Road.visit_case, Spec.build_road.
  cbn [fst snd].
  change (String.eqb (get_default "tag" EmptyString (attrib_of (self c)))
            "highway"
          && PyStr.truthy (get_default "value" EmptyString (attrib_of (self c)))
          && PyStr.truthy (get_default "color" EmptyString (attrib_of (self c))))
    with (Spec.road_case c).
  change (get_default "value" EmptyString (attrib_of (self c)))
    with (Spec.road_value c).
  destruct (Spec.road_case c && negb (Road.processed (Spec.road_value c) seen));
    [| reflexivity].
  destruct (Road.extract_stroke_width_for_zoom c 16); reflexivity.
Qed.

(** The loop over the cases keeps the first case of each value. *)
Lemma visit_cases_spec :
  forall defs cases roads seen,
    Road.visit_cases defs (roads, seen) cases
    = more <- Spec.build_roads defs
                (Spec.dedup_first Spec.road_value seen
                   (filter Spec.road_case cases)) ;;
      Ok ((roads ++ more)%list,
          (rev (List.map Spec.road_value
                  (Spec.dedup_first Spec.road_value seen
                     (filter Spec.road_case cases))) ++ seen)%list).
Proof.
  intros defs cases. induction cases as [| c cases IH]; intros roads seen.
  - simpl. rewrite app_nil_r. reflexivity.
  - cbn [Road.visit_cases filter]. rewrite visit_case_test.
    unfold Road.processed.
    destruct (Spec.road_case c); cbn [andb].
    + cbn [Spec.dedup_first].
      destruct (existsb (String.eqb (Spec.road_value c)) seen); cbn [negb bind].
      * apply IH.
      * cbn [Spec.build_roads].
        destruct (Spec.build_road defs c) as [road | e]; cbn [bind];
          [| reflexivity].
        rewrite IH.
        destruct (Spec.build_roads defs _) as [more | e]; cbn [bind];
          [| reflexivity].
        cbn [List.map rev]. rewrite <- !app_assoc. reflexivity.
    + cbn [bind]. apply IH.
Qed.

Lemma visit_cases_app :
  forall defs l1 l2 st,
    Road.visit_cases defs st (l1 ++ l2)
    = st' <- Road.visit_cases defs st l1 ;; Road.visit_cases defs st' l2.
Proof.
  intros defs l1 l2. induction l1 as [| c l1 IH]; intros st; simpl.
  - reflexivity.
  - destruct (Road.visit_case defs st c) as [st1 | e]; simpl;
      [apply IH | reflexivity].
Qed.

Lemma visit_switches_flat :
  forall defs switches st,
    Road.visit_switches defs st switches
    = Road.visit_cases defs st (flat_map Road.highway_cases switches).
Proof.
  intros defs switches. induction switches as [| s switches IH]; intros st;
    simpl.
  - reflexivity.
  - rewrite visit_cases_app.
    destruct (Road.visit_cases defs st (Road.highway_cases s)) as [st1 | e];
      simpl; [apply IH | reflexivity].
Qed.

Lemma add_roads_spec :
  forall defs seen more roads,
    Road.add_roads defs seen roads more
    = (roads
       ++ List.map (Spec.additional_road defs)
            (filter (fun a => negb (Road.processed (fst (fst a)) seen)) more))%list.
Proof.
  intros defs seen more. induction more as [| [[v color_var] width] more IH];
    intros roads; simpl.
  - rewrite app_nil_r. reflexivity.
  - destruct (negb (Road.processed v seen)); simpl.
    + rewrite IH, <- app_assoc. reflexivity.
    + apply IH.
Qed.

Lemma processed_in :
  forall v seen, Road.processed v seen = true <-> In v seen.
Proof. intros v seen. apply existsb_eqb_in. Qed.

(** The loops of [extract_road_info] as one expression. *)
Lemma extract_road_info_spec :
  forall root defs line_section others,
    select "line" (fun _ => true) (root_ref root) = line_section :: others ->
    Road.extract_road_info root defs
    = doc_roads <- Spec.build_roads defs
                     (Spec.dedup_first Spec.road_value []
                        (Spec.road_cases line_section)) ;;
      Ok (doc_roads
          ++ List.map (Spec.additional_road defs)
               (filter
                  (fun a =>
                     negb (Road.processed (fst (fst a))
                             (List.map Spec.road_value
                                (Spec.dedup_first Spec.road_value []
                                   (Spec.road_cases line_section)))))
                  Road.additional_roads))%list.
Proof.
  intros root defs line_section others Hline.
  unfold Road.extract_road_info. rewrite Hline.
  rewrite visit_switches_flat, visit_cases_spec.
  fold (Spec.road_cases line_section).
  destruct (Spec.build_roads defs _) as [doc_roads | e]; cbn [bind];
    [| reflexivity].
  cbn [fst snd]. rewrite add_roads_spec. do 3 f_equal.
  apply filter_ext. intros a. f_equal.
  rewrite app_nil_r. apply existsb_same_members. intros k.
  rewrite <- in_rev. reflexivity.
Qed.

Lemma build_roads_values :
  forall defs cs roads,
    Spec.build_roads defs cs = Ok roads ->
    List.map Road.value roads = List.map Spec.road_value cs
    /\ Forall (fun r => Road.symbol_name r = Road.road_symbol_name (Road.value r))
              roads.
Proof.
  intros defs cs. induction cs as [| c cs IH]; intros roads H; simpl in H.
  - injection H as <-. split; [reflexivity | constructor].
  - unfold Spec.build_road in H.
    destruct (Road.extract_stroke_width_for_zoom c 16) as [w | e];
      cbn [bind] in H; [| discriminate].
    destruct (Spec.build_roads defs cs) as [rest | e]; cbn [bind] in H;
      [| discriminate].
    injection H as <-. destruct (IH rest eq_refl) as [Hvalues Hnames].
    split.
    + simpl. rewrite Hvalues. reflexivity.
    + constructor; [reflexivity | exact Hnames].
Qed.

Lemma NoDup_map_filter :
  forall (A B : Type) (g : A -> B) (f : A -> bool) (l : list A),
    NoDup (List.map g l) -> NoDup (List.map g (filter f l)).
Proof.
  intros A B g f l. induction l as [| x l IH]; simpl; intros H.
  - constructor.
  - apply NoDup_cons_iff in H as [Hx Hl]. destruct (f x); simpl.
    + constructor; [| apply IH; exact Hl].
      intros Hin. apply Hx. apply in_map_iff in Hin as [y [Hy Hin]].
      apply filter_In in Hin as [Hin _]. apply in_map_iff. eauto.
    + apply IH. exact Hl.
Qed.

Lemma additional_values_distinct :
  NoDup (List.map (fun a : string * string * PyFloat.float => fst (fst a))
                  Road.additional_roads).
Proof.
  simpl. repeat constructor; simpl; intuition discriminate.
Qed.

Lemma road_values_distinct :
  forall root defs roads,
    Road.extract_road_info root defs = Ok roads ->
    NoDup (List.map Road.value roads)
    /\ Forall (fun r => Road.symbol_name r = Road.road_symbol_name (Road.value r))
              roads.
Proof.
  intros root defs roads H.
  destruct (select "line" (fun _ => true) (root_ref root))
    as [| line_section others] eqn:Hline.
  { unfold Road.extract_road_info in H. rewrite Hline in H. discriminate. }
  rewrite (extract_road_info_spec _ _ _ _ Hline) in H.
  destruct (Spec.build_roads defs _) as [doc_roads | e] eqn:Hdoc;
    [| discriminate].
  remember (filter
              (fun a : string * string * PyFloat.float =>
                 negb (Road.processed (fst (fst a))
                         (List.map Spec.road_value
                            (Spec.dedup_first Spec.road_value []
                               (Spec.road_cases line_section)))))
              Road.additional_roads) as adds eqn:Hadds.
  cbn [bind] in H. injection H as <-.
  destruct (build_roads_values _ _ _ Hdoc) as [Hvalues Hnames].
  split.
  - rewrite map_app, map_map.
    apply NoDup_app.
    + rewrite Hvalues.
      apply (dedup_first_keys _ Spec.road_value (Spec.road_cases line_section) []).
    + rewrite Hadds. apply NoDup_map_filter. exact additional_values_distinct.
    + intros v Hdocv Haddv. rewrite Hvalues in Hdocv.
      apply in_map_iff in Haddv as [a [<- Ha]].
      rewrite Hadds in Ha.
      apply filter_In in Ha as [_ Hnot].
      apply negb_true_iff in Hnot.
      apply processed_in in Hdocv.
      cbn [Spec.additional_road Road.value] in Hdocv. congruence.
  - apply Forall_app. split; [exact Hnames |].
    apply Forall_forall. intros r Hr.
    apply in_map_iff in Hr as [a [<- _]]. reflexivity.
Qed.

Lemma created_symbol_names :
  forall roads syms,
    Road.create_symbols roads = Ok syms ->
    List.map Spec.name_of syms = List.map Road.symbol_name roads.
Proof.
  induction roads as [| road roads IH]; intros syms H; simpl in H.
  - injection H as <-. reflexivity.
  - rewrite road_symbol_shape in H.
    destruct (Road.hex_to_rgb (Road.color road)) as [main_color | e];
      cbn [bind] in H; [| discriminate].
    destruct (Road.create_symbols roads) as [rest | e]; cbn [bind] in H;
      [| discriminate].
    injection H as <-. simpl. rewrite (IH rest eq_refl). reflexivity.
Qed.

(** C6, as the code has it.  Points: when no symbol name holds an
    apostrophe, the converter finishes and its symbols are, of the symbols
    the cases stand for, the first of each name in encounter order, so no
    two of them share a name.  Roads: the road records are the records of
    the first highway case of each value, in encounter order, followed by
    the supplementary roads of the values not met; no two of them share a
    value, the name of each is the title-cased value after [Road ], and the
    symbols written bear these names in the same order. *)
Theorem symbols_not_duplicated :
  (forall lib files root,
      (forall c, In c (Point.point_rules root) ->
                 PyStr.contains "'" (Point.symbol_name_of c) = false) ->
      exists content st,
        Point.main lib files root = Ok (content, st)
        /\ Point.symbols st
           = Spec.dedup_first Spec.name_of []
               (Spec.point_candidates files (Point.findall_cases root))
        /\ NoDup (List.map Spec.name_of (Point.symbols st)))
  /\ (forall root defs line_section others,
         select "line" (fun _ => true) (root_ref root)
         = line_section :: others ->
         Road.extract_road_info root defs
         = doc_roads <- Spec.build_roads defs
                          (Spec.dedup_first Spec.road_value []
                             (Spec.road_cases line_section)) ;;
           Ok (doc_roads
               ++ List.map (Spec.additional_road defs)
                    (filter
                       (fun a =>
                          negb (Road.processed (fst (fst a))
                                  (List.map Spec.road_value
                                     (Spec.dedup_first Spec.road_value []
                                        (Spec.road_cases line_section)))))
                       Road.additional_roads))%list)
  /\ (forall root defs roads,
         Road.extract_road_info root defs = Ok roads ->
         NoDup (List.map Road.value roads)
         /\ Forall (fun r => Road.symbol_name r
                             = Road.road_symbol_name (Road.value r)) roads
         /\ forall syms,
              Road.create_symbols roads = Ok syms ->
              List.map Spec.name_of syms = List.map Road.symbol_name roads).
Proof.
  split; [| split].
  - intros lib files root Hquote.
    destruct (run_spec lib files (Point.findall_cases root) Point.initial)
      as [st [Hrun Hsyms]].
    + constructor.
    + intros c Hc Hcomplete. apply Hquote.
      unfold Point.point_rules. apply filter_In. split; [exact Hc |].
      rewrite Hcomplete. reflexivity.
    + unfold Point.main. rewrite Hrun. cbn [bind].
      eexists _, st. split; [reflexivity |].
      simpl in Hsyms. split; [exact Hsyms |].
      rewrite Hsyms. apply (dedup_first_keys _ Spec.name_of _ []).
  - apply extract_road_info_spec.
  - intros root defs roads H.
    destruct (road_values_distinct _ _ _ H) as [Hvalues Hnames].
    split; [exact Hvalues |]. split; [exact Hnames |].
    intros syms. apply created_symbol_names.
Qed.

Lemma symbols_not_duplicated_witness :
  (exists content st,
      Point.main Spec.plain_lxml Spec.all_files Spec.bench_document
      = Ok (content, st)
      /\ List.map Spec.name_of (Point.symbols st) = ["amenity:bench"])
  /\ (exists roads,
         Road.extract_road_info Spec.two_spellings_document [] = Ok roads
         /\ NoDup (List.map Road.value roads)).
Proof.
  destruct symbols_not_duplicated as [Hpoints [_ Hroads]].
  split.
  - destruct (Hpoints Spec.plain_lxml Spec.all_files Spec.bench_document)
      as [content [st [Hmain [Hsyms _]]]].
    + intros c Hc. vm_compute in Hc.
      destruct Hc as [<- | [<- | []]]; reflexivity.
    + exists content, st. split; [exact Hmain |].
      rewrite Hsyms. vm_compute. reflexivity.
  - destruct (Road.extract_road_info Spec.two_spellings_document [])
      as [roads | e] eqn:H; [| vm_compute in H; discriminate].
    exists roads. split; [reflexivity |].
    apply (Hroads _ _ _ H).
Defined.

(** Two road values that differ by an underscore give two symbols of one
    name. *)
Lemma road_symbol_names_collide :
  ~ (forall root roads syms,
        Road.extract_road_info root (Road.extract_color_definitions root)
        = Ok roads ->
        Road.create_symbols roads = Ok syms ->
        NoDup (List.map Spec.name_of syms)).
Proof.
  intros H.
  destruct (Road.extract_road_info Spec.two_spellings_document
              (Road.extract_color_definitions Spec.two_spellings_document))
    as [roads | e] eqn:Hroads; [| vm_compute in Hroads; discriminate].
  destruct (Road.create_symbols roads) as [syms | e] eqn:Hsyms;
    [| vm_compute in Hroads; injection Hroads as <-;
       vm_compute in Hsyms; discriminate].
  specialize (H _ _ _ Hroads Hsyms).
  rewrite (created_symbol_names _ _ Hsyms) in H.
  vm_compute in Hroads. injection Hroads as <-.
  vm_compute in H.
  apply NoDup_cons_iff in H as [Hnot _].
  apply Hnot. left. reflexivity.
Qed.

Example two_spellings_names :
  List.map Road.road_symbol_name ["a_b"; "a b"] = ["Road A B"; "Road A B"].
Proof. vm_compute. reflexivity. Qed.

(** The duplicate test of the point converter writes the name into a
    quoted value of a path.  A name with an apostrophe closes the value
    early: the two cases of [quoted_value_document] have one name, the
    test looks for a symbol that also has an attribute [x], finds none,
    and both cases become symbols. *)
Lemma point_symbol_names_collide :
  ~ (forall lib files root content st,
        Point.main lib files root = Ok (content, st) ->
        NoDup (List.map Spec.name_of (Point.symbols st))).
Proof.
  intros H.
  destruct (Point.main Spec.plain_lxml Spec.all_files
              Spec.quoted_value_document) as [[content st] | e] eqn:Hmain.
  - specialize (H _ _ _ _ _ Hmain). unfold Point.main in Hmain.
    destruct (Point.run _ _ _ _) as [st1 | e1] eqn:Hrun; [| discriminate].
    cbn [bind] in Hmain. injection Hmain as _ <-.
    vm_compute in Hrun. injection Hrun as <-.
    vm_compute in H.
    apply NoDup_cons_iff in H as [Hnot _].
    apply Hnot. left. reflexivity.
  - unfold Point.main in Hmain.
    destruct (Point.run _ _ _ _) as [st1 | e1] eqn:Hrun;
      [discriminate | vm_compute in Hrun; discriminate].
Qed.

(** A name with an apostrophe and nothing of a path after it stops the
    converter: the path is refused. *)
Example apostrophe_stops_the_converter :
  forall lib files,
    Point.main lib files Spec.apostrophe_document = Raise SyntaxError.
Proof. intros lib files. reflexivity. Qed.

(** C6 as the claim states it fails, in both outputs: two road values
    that differ by an underscore give two symbols of one name, and two
    point cases of one name that holds an apostrophe give two symbols. *)
Lemma symbol_names_collide :
  ~ (forall root roads syms,
        Road.extract_road_info root (Road.extract_color_definitions root)
        = Ok roads ->
        Road.create_symbols roads = Ok syms ->
        NoDup (List.map Spec.name_of syms))
  /\ ~ (forall lib files root content st,
           Point.main lib files root = Ok (content, st) ->
           NoDup (List.map Spec.name_of (Point.symbols st))).
Proof.
  split; [exact road_symbol_names_collide | exact point_symbol_names_collide].
Qed.

(** * Further properties *)

(** ** Road names and widths *)

Lemma prefix_empty : forall s, prefix EmptyString s = true.
Proof. intros [| c s]; reflexivity. Qed.

Lemma replace_underscore :
  forall s,
    PyStr.replace "_" " " s
    = PyStr.map (fun c => if Ascii.eqb c "_" then " "%char else c) s.
Proof.
  unfold PyStr.replace. induction s as [| c s IH].
  - reflexivity.
  - cbn [PyStr.replace_from PyStr.map]. cbn [prefix].
    destruct (Ascii.eqb_spec c "_") as [-> | Hne].
    + destruct (ascii_dec "_" "_") as [_ | Hn]; [| contradiction].
      rewrite prefix_empty. simpl. rewrite IH. reflexivity.
    + destruct (ascii_dec "_" c) as [He | _]; [congruence |].
      rewrite IH. reflexivity.
Qed.

Lemma map_length :
  forall f s, length (PyStr.map f s) = length s.
Proof. induction s as [| c s IH]; simpl; congruence. Qed.

Lemma title_from_length :
  forall s b, length (PyStr.title_from b s) = length s.
Proof. induction s as [| c s IH]; intros b; simpl; [| rewrite IH]; reflexivity. Qed.

Lemma case_keeps_underscore_out :
  forall c, c <> "_"%char -> PyStr.lower c <> "_"%char /\ PyStr.upper c <> "_"%char.
Proof.
  intros c Hc.
  destruct c as [[] [] [] [] [] [] [] []]; split; vm_compute; intros H;
    try discriminate H; apply Hc; reflexivity.
Qed.

Lemma title_from_no_underscore :
  forall s b,
    (forall c, In c (list_ascii_of_string s) -> c <> "_"%char) ->
    forall c, In c (list_ascii_of_string (PyStr.title_from b s)) ->
              c <> "_"%char.
Proof.
  induction s as [| x s IH]; intros b Hs c Hc; simpl in Hc.
  - contradiction.
  - destruct Hc as [<- | Hc].
    + destruct (case_keeps_underscore_out x (Hs x (or_introl eq_refl))).
      destruct b; assumption.
    + apply (IH (PyStr.is_cased x)); [| exact Hc].
      intros y Hy. apply Hs. right. exact Hy.
Qed.

Lemma map_underscore_out :
  forall s c,
    In c (list_ascii_of_string
            (PyStr.map (fun c => if Ascii.eqb c "_" then " "%char else c) s)) ->
    c <> "_"%char.
Proof.
  induction s as [| x s IH]; intros c Hc; simpl in Hc.
  - contradiction.
  - destruct Hc as [<- | Hc]; [| apply IH; exact Hc].
    destruct (Ascii.eqb_spec x "_"); [discriminate | assumption].
Qed.

(** X1: the name of a road symbol is [Road ] followed by as many
    characters as the value has, none of them an underscore. *)
Theorem road_symbol_name_shape :
  forall value : string,
    exists rest,
      Road.road_symbol_name value = "Road " ++ rest
      /\ length rest = length value
      /\ forall c, In c (list_ascii_of_string rest) -> c <> "_"%char.
Proof.
  intros value. unfold Road.road_symbol_name.
  exists (PyStr.title (PyStr.replace "_" " " value)).
  split; [reflexivity |]. rewrite replace_underscore. unfold PyStr.title.
  split.
  - rewrite title_from_length, map_length. reflexivity.
  - apply title_from_no_underscore. apply map_underscore_out.
Qed.

Lemma split_head_app :
  forall v w,
    PyStr.contains ":" v = false ->
    PyStr.split_head ":" (v ++ String ":" w) = v.
Proof.
  induction v as [| c v IH]; intros w H.
  - reflexivity.
  - rewrite contains_unfold in H. apply orb_false_iff in H as [Hpre Hrest].
    simpl. destruct (Ascii.eqb_spec c ":") as [-> | Hne].
    + simpl in Hpre. rewrite prefix_empty in Hpre. discriminate.
    + rewrite (IH w Hrest). reflexivity.
Qed.

(** X2: of a matched width of the form [v:w], only [v], the part before
    the first colon, is read; what follows the colon is never looked at. *)
Theorem parse_width_before_colon :
  forall v w : string,
    PyStr.contains ":" v = false ->
    Road.parse_width (v ++ ":" ++ w) = PyFloat.of_str v.
Proof.
  intros v w H. rewrite parse_width_head.
  change (v ++ ":" ++ w) with (v ++ String ":" w).
  rewrite (split_head_app _ _ H). reflexivity.
Qed.

Lemma parse_width_before_colon_witness :
  Road.parse_width ("4.5" ++ ":" ++ "not a number") = PyFloat.of_str "4.5".
Proof.
  apply (parse_width_before_colon "4.5" "not a number"). reflexivity.
Defined.

Lemma until_quote_spec :
  forall s v,
    Road.until_quote s = Some v ->
    (exists r, s = v ++ dquote ++ r) /\ PyStr.contains dquote v = false.
Proof.
  induction s as [| c s IH]; intros v H; simpl in H.
  - discriminate.
  - destruct (Ascii.eqb_spec c "034") as [-> | Hne].
    + injection H as <-. split; [exists s; reflexivity | reflexivity].
    + destruct (Road.until_quote s) as [v' |]; [| discriminate].
      injection H as <-. destruct (IH v' eq_refl) as [[r ->] Hv']. split.
      * exists r. reflexivity.
      * rewrite contains_unfold, Hv'. unfold dquote. cbn [prefix].
        destruct (ascii_dec "034" c) as [He | _]; [congruence | reflexivity].
Qed.

Lemma drop_app :
  forall a s, PyStr.drop (length a) (a ++ s) = s.
Proof. induction a as [| c a IH]; intros s; simpl; [reflexivity | apply IH]. Qed.

(** X3: the text the pattern search returns stands in the searched text
    right after the pattern, between two double quotes, and holds no double
    quote itself. *)
Theorem re_search_sound :
  forall attr_pattern s v : string,
    Road.re_search attr_pattern s = Some v ->
    Spec.within (attr_pattern ++ dquote ++ v ++ dquote) s
    /\ PyStr.contains dquote v = false.
Proof.
  intros p s v. induction s as [| c s IH]; rewrite re_search_unfold;
    unfold Road.match_here;
    destruct (prefix (p ++ dquote) _) eqn:Hpre.
  - apply prefix_iff in Hpre as [r Hr]. destruct p; discriminate Hr.
  - discriminate.
  - apply prefix_iff in Hpre as [r Hr].
    replace (length p + 1)%nat with (length (p ++ dquote)).
    2: { clear. induction p; simpl; [reflexivity | congruence]. }
    rewrite Hr, drop_app.
    destruct (Road.until_quote r) as [v' |] eqn:Hv.
    + intros H. injection H as <-.
      destruct (until_quote_spec _ _ Hv) as [[r' ->] Hq]. split; [| exact Hq].
      replace ((p ++ dquote) ++ v' ++ dquote ++ r')
        with ((p ++ dquote ++ v' ++ dquote) ++ r')
        by (rewrite !append_assoc; reflexivity).
      apply within_app_r, within_refl.
    + rewrite <- Hr. intros H. destruct (IH H) as [Hin Hq].
      split; [| exact Hq]. apply (within_app_l _ _ (String c EmptyString) Hin).
  - intros H. destruct (IH H) as [Hin Hq].
    split; [| exact Hq]. apply (within_app_l _ _ (String c EmptyString) Hin).
Qed.

Lemma re_search_sound_witness :
  Spec.within ("strokeWidth=" ++ dquote ++ "3" ++ dquote)
    (tostring (self Spec.rule_zoom_12))
  /\ PyStr.contains dquote "3" = false.
Proof.
  apply (re_search_sound "strokeWidth=" (tostring (self Spec.rule_zoom_12)) "3").
  vm_compute. reflexivity.
Defined.

(** ** The colour table *)

Lemma get_set_same : forall k v d, get k (set k v d) = Some v.
Proof.
  intros k v d. induction d as [| [k0 v0] d IH]; simpl.
  - rewrite String.eqb_refl. reflexivity.
  - destruct (String.eqb k0 k) eqn:H; simpl; rewrite H; [reflexivity | exact IH].
Qed.

Lemma get_set_other :
  forall k k' v d, k <> k' -> get k' (set k v d) = get k' d.
Proof.
  intros k k' v d Hne. induction d as [| [k0 v0] d IH]; simpl.
  - destruct (String.eqb_spec k k'); [contradiction | reflexivity].
  - destruct (String.eqb_spec k0 k) as [-> | H0]; simpl.
    + destruct (String.eqb_spec k k'); [contradiction | reflexivity].
    + rewrite IH. reflexivity.
Qed.

Lemma best_case_acc :
  forall cases m best n,
    Road.best_case m best cases = Some n ->
    (best = Some n
     /\ forall c, In c cases -> Facts.eligible (self c) ->
                  match m with
                  | Some k => (k <= Road.attr_count (attrib_of (self c)))%nat
                  | None => False
                  end)
    \/ exists earlier c later,
         cases = (earlier ++ c :: later)%list
         /\ self c = n /\ Facts.eligible n
         /\ match m with
            | Some k => (Road.attr_count (attrib_of n) < k)%nat
            | None => True
            end
         /\ (forall c', In c' earlier -> Facts.eligible (self c') ->
               (Road.attr_count (attrib_of n)
                < Road.attr_count (attrib_of (self c')))%nat)
         /\ (forall c', In c' later -> Facts.eligible (self c') ->
               (Road.attr_count (attrib_of n)
                <= Road.attr_count (attrib_of (self c')))%nat).
Proof.
  induction cases as [| c cases IH]; intros m best n H.
  - left. split; [exact H | contradiction].
  - cbn [Road.best_case] in H.
    set (v := get_default "attrColorValue" EmptyString (attrib_of (self c))) in *.
    assert (Htruthy : PyStr.startswith "#" v = true -> PyStr.truthy v = true).
    { destruct v; [discriminate | reflexivity]. }
    destruct (PyStr.startswith "#" v) eqn:Hstart.
    + rewrite (Htruthy eq_refl) in H. cbn [andb] in H.
      destruct (match m with
                | Some k => Nat.ltb (Road.attr_count (attrib_of (self c))) k
                | None => true
                end) eqn:Hfewer.
      * right. destruct (IH _ _ _ H) as [[Hbest Hrest] | Hlater].
        -- injection Hbest as Hn. exists [], c, cases.
           split; [reflexivity |]. split; [exact Hn |].
           split; [rewrite <- Hn; exact Hstart |].
           rewrite <- Hn. split.
           { destruct m as [k |]; [apply Nat.ltb_lt; exact Hfewer | exact I]. }
           split; [contradiction | exact Hrest].
        -- destruct Hlater as [earlier [c0 [later [-> [Hn [He [Hlt [Hb Ha]]]]]]]].
           exists (c :: earlier), c0, later.
           split; [reflexivity |]. split; [exact Hn |]. split; [exact He |].
           split.
           { destruct m as [k |]; [apply Nat.ltb_lt in Hfewer; lia | exact I]. }
           split; [| exact Ha].
           intros c' [<- | Hc'] Hel; [exact Hlt | apply Hb; assumption].
      * destruct m as [k |]; [| discriminate].
        apply Nat.ltb_ge in Hfewer.
        destruct (IH _ _ _ H) as [[Hbest Hrest] | Hlater].
        -- left. split; [exact Hbest |].
           intros c' [<- | Hc'] Hel; [exact Hfewer | apply Hrest; assumption].
        -- right.
           destruct Hlater as [earlier [c0 [later [-> [Hn [He [Hlt [Hb Ha]]]]]]]].
           exists (c :: earlier), c0, later.
           split; [reflexivity |]. split; [exact Hn |]. split; [exact He |].
           split; [exact Hlt |]. split; [| exact Ha].
           intros c' [<- | Hc'] Hel; [lia | apply Hb; assumption].
    + rewrite andb_false_r in H. cbn [andb] in H.
      destruct (IH _ _ _ H) as [[Hbest Hrest] | Hlater].
      * left. split; [exact Hbest |].
        intros c' [<- | Hc'] Hel; [| apply Hrest; assumption].
        unfold Facts.eligible in Hel. fold v in Hel. congruence.
      * right.
        destruct Hlater as [earlier [c0 [later [-> [Hn [He [Hlt [Hb Ha]]]]]]]].
        exists (c :: earlier), c0, later.
        split; [reflexivity |]. split; [exact Hn |]. split; [exact He |].
        split; [exact Hlt |]. split; [| exact Ha].
        intros c' [<- | Hc'] Hel; [| apply Hb; assumption].
        unfold Facts.eligible in Hel. fold v in Hel. congruence.
Qed.

Lemma best_case_none_acc :
  forall cases m best,
    Road.best_case m best cases = None ->
    best = None /\ forall c, In c cases -> ~ Facts.eligible (self c)
                             \/ m <> None.
Proof.
  induction cases as [| c cases IH]; intros m best H.
  - split; [exact H | contradiction].
  - cbn [Road.best_case] in H.
    set (v := get_default "attrColorValue" EmptyString (attrib_of (self c))) in *.
    destruct (PyStr.truthy v && PyStr.startswith "#" v
              && match m with
                 | Some k => Nat.ltb (Road.attr_count (attrib_of (self c))) k
                 | None => true
                 end) eqn:Htest.
    + destruct (IH _ _ H) as [Hbest _]. discriminate.
    + destruct (IH _ _ H) as [Hbest Hrest]. split; [exact Hbest |].
      intros c' [<- | Hc']; [| apply Hrest; exact Hc'].
      destruct m as [k |]; [right; discriminate | left].
      rewrite andb_true_r in Htest. unfold Facts.eligible. fold v.
      destruct (PyStr.startswith "#" v) eqn:Hs; [| discriminate].
      destruct v; discriminate.
Qed.

(** X4: of the cases of a rendering attribute, the colour loop keeps the
    first one with the fewest attributes besides [attrColorValue] among
    those whose value starts with a hash sign: every earlier such case has
    strictly more attributes, every later one at least as many.  It keeps
    none exactly when no case has such a value. *)
Theorem best_case_spec :
  forall cases : list ref,
    match Road.best_case None None cases with
    | Some n =>
        exists earlier c later,
          cases = (earlier ++ c :: later)%list
          /\ self c = n /\ Facts.eligible n
          /\ (forall c', In c' earlier -> Facts.eligible (self c') ->
                (Road.attr_count (attrib_of n)
                 < Road.attr_count (attrib_of (self c')))%nat)
          /\ (forall c', In c' later -> Facts.eligible (self c') ->
                (Road.attr_count (attrib_of n)
                 <= Road.attr_count (attrib_of (self c')))%nat)
    | None => forall c, In c cases -> ~ Facts.eligible (self c)
    end.
Proof.
  intros cases. destruct (Road.best_case None None cases) as [n |] eqn:H.
  - destruct (best_case_acc _ _ _ _ H) as [[Hbest _] | Hfound];
      [discriminate |].
    destruct Hfound as [earlier [c [later [Hc [Hn [He [_ [Hb Ha]]]]]]]].
    exists earlier, c, later. repeat split; assumption.
  - intros c Hc. destruct (best_case_none_acc _ _ _ H) as [_ Hall].
    destruct (Hall c Hc) as [Hne | Hm]; [exact Hne | contradiction].
Qed.

Lemma best_case_eligible :
  forall cases n,
    Road.best_case None None cases = Some n -> Facts.eligible n.
Proof.
  intros cases n H.
  destruct (best_case_acc _ _ _ _ H) as [[Hbest _] | Hfound];
    [discriminate |].
  destruct Hfound as [_ [_ [_ [_ [_ [He _]]]]]]. exact He.
Qed.

Lemma colour_table_set :
  forall k v d,
    Facts.colour_table d ->
    PyStr.contains "Color" k = true -> PyStr.startswith "#" v = true ->
    Facts.colour_table (set k v d).
Proof.
  intros k v d Hd Hk Hv k' v' H.
  destruct (String.eqb_spec k k') as [<- | Hne].
  - rewrite get_set_same in H. injection H as <-. split; assumption.
  - rewrite (get_set_other _ _ _ _ Hne) in H. apply (Hd _ _ H).
Qed.

Lemma scan_attributes_table :
  forall attrs d, Facts.colour_table d -> Facts.colour_table (Road.scan_attributes d attrs).
Proof.
  induction attrs as [| attr attrs IH]; intros d Hd; cbn [Road.scan_attributes].
  - exact Hd.
  - apply IH.
    destruct (PyStr.truthy _ && PyStr.contains "Color" _) eqn:Hname;
      [| exact Hd].
    apply andb_true_iff in Hname as [_ Hname].
    destruct (Road.best_case None None _) as [case |] eqn:Hbest; [| exact Hd].
    apply colour_table_set; [exact Hd | exact Hname |].
    apply (best_case_eligible _ _ Hbest).
Qed.

Lemma scanned_table : forall root, Facts.colour_table (Facts.scanned root).
Proof.
  intros root. apply scan_attributes_table. intros k v H. discriminate H.
Qed.

Lemma manual_fold :
  forall (l d : Road.dict) k,
    (forall k v, get k d = Some v -> PyStr.startswith "#" v = true) ->
    Forall (fun kv => PyStr.startswith "#" (snd kv) = true) l ->
    get k
      (fold_left
         (fun color_defs kv =>
            match get (fst kv) color_defs with
            | Some v =>
                if PyStr.startswith "#" v then color_defs
                else set (fst kv) (snd kv) color_defs
            | None => set (fst kv) (snd kv) color_defs
            end) l d)
    = match get k d with
      | Some v => Some v
      | None => get k l
      end.
Proof.
  induction l as [| [k0 v0] l IH]; intros d k Hd Hl; cbn [fold_left fst snd].
  - destruct (get k d); reflexivity.
  - apply Forall_cons_iff in Hl as [Hv0 Hl]. cbn [snd] in Hv0.
    destruct (get k0 d) as [v |] eqn:Hk0.
    + rewrite (Hd _ _ Hk0).
      rewrite (IH _ _ Hd Hl). cbn [get].
      destruct (String.eqb_spec k0 k) as [<- | Hne]; [rewrite Hk0 |];
        reflexivity.
    + rewrite IH; [| | exact Hl].
      * cbn [get]. destruct (String.eqb_spec k0 k) as [<- | Hne].
        -- rewrite get_set_same, Hk0. reflexivity.
        -- rewrite (get_set_other _ _ _ _ Hne). reflexivity.
      * intros k' v' H. destruct (String.eqb_spec k0 k') as [<- | Hne].
        -- rewrite get_set_same in H. injection H as <-. exact Hv0.
        -- rewrite (get_set_other _ _ _ _ Hne) in H. apply (Hd _ _ H).
Qed.

Lemma extract_color_definitions_get :
  forall root k,
    get k (Road.extract_color_definitions root)
    = match get k (Facts.scanned root) with
      | Some v => Some v
      | None => get k Road.manual_colors
      end.
Proof.
  intros root k. unfold Road.extract_color_definitions.
  fold (Facts.scanned root). apply manual_fold.
  - intros k' v' H. apply (scanned_table root _ _ H).
  - repeat constructor.
Qed.

Lemma extracted_table :
  forall root, Facts.colour_table (Road.extract_color_definitions root).
Proof.
  intros root k v H. rewrite extract_color_definitions_get in H.
  destruct (get k (Facts.scanned root)) as [v' |] eqn:Hs.
  - injection H as <-. apply (scanned_table root _ _ Hs).
  - unfold Road.manual_colors in H. cbn [get] in H.
    repeat match type of H with
           | (if String.eqb ?a k then _ else _) = _ =>
               destruct (String.eqb_spec a k) as [<- | _];
               [injection H as <-; split; reflexivity |]
           end.
    discriminate H.
Qed.

(** X5: a colour found in the document is never replaced by a manual
    colour; the manual colours only supply the names the document gave no
    colour for. *)
Theorem document_colours_first :
  forall (root : node) (k : string),
    get k (Road.extract_color_definitions root)
    = match get k (Facts.scanned root) with
      | Some v => Some v
      | None => get k Road.manual_colors
      end.
Proof. exact extract_color_definitions_get. Qed.

(** X6: in the colour table every name holds the word [Color] and every
    value starts with a hash sign: the table never maps a name to a
    variable. *)
Theorem colour_table_invariant :
  forall (root : node) (k v : string),
    get k (Road.extract_color_definitions root) = Some v ->
    PyStr.contains "Color" k = true /\ PyStr.startswith "#" v = true.
Proof. exact extracted_table. Qed.

Lemma colour_table_invariant_witness :
  PyStr.contains "Color" "pathColor" = true
  /\ PyStr.startswith "#" "#fa8c16" = true.
Proof.
  apply (colour_table_invariant Spec.empty_line_document "pathColor" "#fa8c16").
  vm_compute. reflexivity.
Defined.

(** ** Road records *)

Lemma resolve_starts_with_hash :
  forall defs color_var,
    Facts.colour_table defs ->
    PyStr.startswith "#" (Road.resolve_color_variable color_var defs) = true.
Proof.
  intros defs color_var Hd. unfold Road.resolve_color_variable.
  destruct (PyStr.startswith "$" color_var).
  - destruct (get _ defs) as [v |] eqn:Hv; [| reflexivity].
    apply (Hd _ _ Hv).
  - destruct (PyStr.startswith "#" color_var) eqn:H; [exact H | reflexivity].
Qed.

Lemma dedup_first_in :
  forall (A : Type) (key : A -> string) (l : list A) seen x,
    In x (Spec.dedup_first key seen l) -> In x l.
Proof.
  intros A key l. induction l as [| y l IH]; intros seen x H; simpl in H.
  - contradiction.
  - destruct (existsb _ seen).
    + right. apply (IH _ _ H).
    + destruct H as [<- | H]; [left; reflexivity | right; apply (IH _ _ H)].
Qed.

Lemma build_roads_well_formed :
  forall defs cs roads,
    Forall (fun c => Spec.road_case c = true) cs ->
    Spec.build_roads defs cs = Ok roads ->
    Forall (Facts.well_formed defs) roads.
Proof.
  intros defs cs. induction cs as [| c cs IH]; intros roads Hcs H; simpl in H.
  - injection H as <-. constructor.
  - apply Forall_cons_iff in Hcs as [Hc Hcs].
    unfold Spec.build_road in H.
    destruct (Road.extract_stroke_width_for_zoom c 16) as [w | e];
      cbn [bind] in H; [| discriminate].
    destruct (Spec.build_roads defs cs) as [rest | e]; cbn [bind] in H;
      [| discriminate].
    injection H as <-. constructor; [| apply (IH rest Hcs eq_refl)].
    unfold Spec.road_case in Hc.
    apply andb_true_iff in Hc as [Hc Hcolor].
    apply andb_true_iff in Hc as [Htag Hvalue].
    apply String.eqb_eq in Htag.
    unfold Facts.well_formed. cbn [Road.tag Road.value Road.color Road.symbol_name
                               Road.stroke_width].
    split; [exact Htag |]. split.
    { unfold Spec.road_value. intros He. rewrite He in Hvalue. discriminate. }
    split; [eexists; reflexivity |]. split; [reflexivity | discriminate].
Qed.

Lemma extract_road_info_well_formed :
  forall root defs roads,
    Road.extract_road_info root defs = Ok roads ->
    Forall (Facts.well_formed defs) roads.
Proof.
  intros root defs roads H.
  destruct (select "line" (fun _ => true) (root_ref root))
    as [| line_section others] eqn:Hline.
  { unfold Road.extract_road_info in H. rewrite Hline in H. discriminate. }
  rewrite (extract_road_info_spec _ _ _ _ Hline) in H.
  destruct (Spec.build_roads defs _) as [doc_roads | e] eqn:Hdoc;
    [| discriminate].
  remember (filter _ Road.additional_roads) as adds eqn:Hadds.
  cbn [bind] in H. injection H as <-.
  apply Forall_app. split.
  - apply (build_roads_well_formed _ _ _) with (2 := Hdoc).
    apply Forall_forall. intros c Hc. apply dedup_first_in in Hc.
    unfold Spec.road_cases in Hc. apply filter_In in Hc as [_ Hc]. exact Hc.
  - apply Forall_forall. intros r Hr.
    apply in_map_iff in Hr as [a [<- Ha]].
    assert (Hin : In a Road.additional_roads).
    { rewrite Hadds in Ha. apply filter_In in Ha as [Ha _]. exact Ha. }
    clear - Hin. unfold Facts.well_formed.
    cbn [Spec.additional_road Road.tag Road.value Road.color Road.symbol_name
         Road.stroke_width].
    split; [reflexivity |]. split.
    { unfold Road.additional_roads in Hin. simpl in Hin.
      intuition (subst; discriminate). }
    split; [eexists; reflexivity |]. split; [reflexivity | discriminate].
Qed.

(** X7: every road record has the tag [highway], a value that is not
    empty, the name made from its value, and a stroke width: the default
    width 1.5 of the symbol builder is never used. *)
Theorem road_records_well_formed :
  forall (root : node) (defs : Road.dict) (roads : list Road.road_info),
    Road.extract_road_info root defs = Ok roads ->
    Forall (fun r =>
              Road.tag r = "highway"
              /\ Road.value r <> EmptyString
              /\ Road.symbol_name r = Road.road_symbol_name (Road.value r)
              /\ Road.stroke_width r <> None)
           roads.
Proof.
  intros root defs roads H.
  apply (Forall_impl _ (P := Facts.well_formed defs)).
  - intros r [Ht [Hv [_ [Hn Hw]]]]. repeat split; assumption.
  - apply (extract_road_info_well_formed _ _ _ H).
Qed.

(** X8: with the colour table of the document itself, the colour of
    every road record starts with a hash sign, whatever the colour
    attribute or variable of the rule. *)
Theorem road_colours_start_with_hash :
  forall (root : node) (roads : list Road.road_info),
    Road.extract_road_info root (Road.extract_color_definitions root)
    = Ok roads ->
    Forall (fun r => PyStr.startswith "#" (Road.color r) = true) roads.
Proof.
  intros root roads H.
  apply (Forall_impl _
           (P := Facts.well_formed (Road.extract_color_definitions root))).
  - intros r [_ [_ [[color_var ->] _]]].
    apply resolve_starts_with_hash, extracted_table.
  - apply (extract_road_info_well_formed _ _ _ H).
Qed.

Lemma road_records_well_formed_witness :
  exists roads,
    Road.extract_road_info Spec.two_spellings_document [] = Ok roads
    /\ Forall (fun r =>
                 Road.tag r = "highway"
                 /\ Road.value r <> EmptyString
                 /\ Road.symbol_name r = Road.road_symbol_name (Road.value r)
                 /\ Road.stroke_width r <> None)
              roads.
Proof.
  destruct (Road.extract_road_info Spec.two_spellings_document [])
    as [roads | e] eqn:H; [| vm_compute in H; discriminate].
  exists roads. split; [reflexivity |].
  apply (road_records_well_formed _ _ _ H).
Defined.

Lemma road_colours_start_with_hash_witness :
  exists roads,
    Road.extract_road_info Spec.two_spellings_document
      (Road.extract_color_definitions Spec.two_spellings_document) = Ok roads
    /\ Forall (fun r => PyStr.startswith "#" (Road.color r) = true) roads.
Proof.
  destruct (Road.extract_road_info Spec.two_spellings_document
              (Road.extract_color_definitions Spec.two_spellings_document))
    as [roads | e] eqn:H; [| vm_compute in H; discriminate].
  exists roads. split; [reflexivity |].
  apply (road_colours_start_with_hash _ _ H).
Defined.

(** ** Colours in hexadecimal *)

Lemma hex_digit_range :
  forall c v, PyStr.hex_digit c = Some v -> (0 <= v < 16)%Z.
Proof.
  intros c v H.
  destruct c as [[] [] [] [] [] [] [] []]; vm_compute in H;
    try discriminate H; injection H as <-; lia.
Qed.

Lemma hex_digit_not_hash :
  forall c v, PyStr.hex_digit c = Some v -> Ascii.eqb c "#" = false.
Proof.
  intros c v H.
  destruct c as [[] [] [] [] [] [] [] []]; vm_compute in H;
    try discriminate H; reflexivity.
Qed.

Lemma int16_two_digits :
  forall a b va vb,
    PyStr.hex_digit a = Some va -> PyStr.hex_digit b = Some vb ->
    PyStr.int16 (String a (String b EmptyString)) = Ok (16 * va + vb)%Z.
Proof.
  intros a b va vb Ha Hb.
  destruct a as [[] [] [] [] [] [] [] []]; vm_compute in Ha;
    try discriminate Ha; injection Ha as <-;
    destruct b as [[] [] [] [] [] [] [] []]; vm_compute in Hb;
    try discriminate Hb; injection Hb as <-; vm_compute; reflexivity.
Qed.

(** X9: a hash sign followed by six hexadecimal digits converts without
    error; each channel is sixteen times the first digit plus the second,
    between 0 and 255, written as an integer and as a fraction of 255. *)
Theorem hex_to_rgb_hex_digits :
  forall (a b c d e f : ascii) (va vb vc vd ve vf : Z),
    PyStr.hex_digit a = Some va -> PyStr.hex_digit b = Some vb ->
    PyStr.hex_digit c = Some vc -> PyStr.hex_digit d = Some vd ->
    PyStr.hex_digit e = Some ve -> PyStr.hex_digit f = Some vf ->
    Road.hex_to_rgb
      (String "#" (String a (String b (String c (String d (String e
         (String f EmptyString)))))))
    = Ok (Facts.rgb_text (16 * va + vb) (16 * vc + vd) (16 * ve + vf))
    /\ (0 <= 16 * va + vb <= 255)%Z
    /\ (0 <= 16 * vc + vd <= 255)%Z
    /\ (0 <= 16 * ve + vf <= 255)%Z.
Proof.
  intros a b c d e f va vb vc vd ve vf Ha Hb Hc Hd He Hf.
  split.
  - unfold Road.hex_to_rgb. cbn [PyStr.lstrip_char].
    change (Ascii.eqb "#" "#") with true. cbn iota.
    rewrite (hex_digit_not_hash _ _ Ha).
    change (Nat.eqb (length (String a (String b (String c (String d (String e
              (String f EmptyString))))))) 6) with true.
    cbn iota.
    change (PyStr.slice 0 2 (String a (String b (String c (String d (String e
              (String f EmptyString)))))))
      with (String a (String b EmptyString)).
    change (PyStr.slice 2 4 (String a (String b (String c (String d (String e
              (String f EmptyString)))))))
      with (String c (String d EmptyString)).
    change (PyStr.slice 4 6 (String a (String b (String c (String d (String e
              (String f EmptyString)))))))
      with (String e (String f EmptyString)).
    rewrite (int16_two_digits _ _ _ _ Ha Hb),
            (int16_two_digits _ _ _ _ Hc Hd),
            (int16_two_digits _ _ _ _ He Hf).
    reflexivity.
  - pose proof (hex_digit_range _ _ Ha). pose proof (hex_digit_range _ _ Hb).
    pose proof (hex_digit_range _ _ Hc). pose proof (hex_digit_range _ _ Hd).
    pose proof (hex_digit_range _ _ He). pose proof (hex_digit_range _ _ Hf).
    lia.
Qed.

Lemma hex_to_rgb_hex_digits_witness :
  Road.hex_to_rgb "#ffdb93" = Ok (Facts.rgb_text 255 219 147)
  /\ (0 <= 255 <= 255)%Z /\ (0 <= 219 <= 255)%Z /\ (0 <= 147 <= 255)%Z.
Proof.
  apply (hex_to_rgb_hex_digits "f" "f" "d" "b" "9" "3" 15 15 13 11 9 3);
    reflexivity.
Defined.

(** ** Failures *)

Lemma int16_raises :
  forall s e, PyStr.int16 s = Raise e -> e = ValueError.
Proof.
  intros s e H. unfold PyStr.int16 in H.
  match type of H with
  | (let '(_, _) := ?M in _) = _ => destruct M as [negative s1]
  end.
  destruct (PyStr.digits16 _); [discriminate | congruence].
Qed.

Lemma hex_to_rgb_raises :
  forall h e,
    Road.hex_to_rgb h = Raise e ->
    e = ValueError /\ length (PyStr.lstrip_char "#" h) = 6%nat.
Proof.
  intros h e H. unfold Road.hex_to_rgb in H.
  destruct (Nat.eqb_spec (length (PyStr.lstrip_char "#" h)) 6) as [Hlen | _];
    [| discriminate].
  split; [| exact Hlen].
  destruct (PyStr.int16 (PyStr.slice 0 2 _)) as [r | e1] eqn:Hr;
    cbn [bind] in H;
    [| injection H as <-; apply (int16_raises _ _ Hr)].
  destruct (PyStr.int16 (PyStr.slice 2 4 _)) as [g | e1] eqn:Hg;
    cbn [bind] in H;
    [| injection H as <-; apply (int16_raises _ _ Hg)].
  destruct (PyStr.int16 (PyStr.slice 4 6 _)) as [b | e1] eqn:Hb;
    cbn [bind] in H;
    [discriminate | injection H as <-; apply (int16_raises _ _ Hb)].
Qed.

Lemma of_str_raises :
  forall s e, PyFloat.of_str s = Raise e -> e = ValueError.
Proof.
  intros s e H. unfold PyFloat.of_str in H.
  destruct (PyFloat.remove_underscores _ _) as [s1 |]; [| congruence].
  match type of H with
  | (let '(_, _) := ?M in _) = _ => destruct M as [negative s2]
  end.
  destruct (_ || _); [discriminate |].
  destruct (String.eqb _ _); [discriminate |].
  destruct (PyFloat.parse_decimal _ _); [discriminate | congruence].
Qed.

Lemma stroke_width_raises :
  forall c z e,
    Road.extract_stroke_width_for_zoom c z = Raise e -> e = ValueError.
Proof.
  intros c z e H. unfold Road.extract_stroke_width_for_zoom in H.
  destruct (Road.search_applies _ _) as [w |]; [| discriminate].
  unfold Road.parse_width in H.
  destruct (PyStr.contains ":" w); apply (of_str_raises _ _ H).
Qed.

Lemma build_roads_raises :
  forall defs cs e, Spec.build_roads defs cs = Raise e -> e = ValueError.
Proof.
  intros defs cs e. induction cs as [| c cs IH]; intros H; simpl in H.
  - discriminate.
  - unfold Spec.build_road in H.
    destruct (Road.extract_stroke_width_for_zoom c 16) as [w | e1] eqn:Hw;
      cbn [bind] in H;
      [| injection H as <-; apply (stroke_width_raises _ _ _ Hw)].
    destruct (Spec.build_roads defs cs) as [rest | e1]; cbn [bind] in H;
      [discriminate | injection H as <-; apply IH; reflexivity].
Qed.

Lemma extract_road_info_raises :
  forall root defs,
    match select "line" (fun _ => true) (root_ref root) with
    | [] => Road.extract_road_info root defs = Raise IndexError
    | _ :: _ =>
        forall e, Road.extract_road_info root defs = Raise e -> e = ValueError
    end.
Proof.
  intros root defs.
  destruct (select "line" (fun _ => true) (root_ref root))
    as [| line_section others] eqn:Hline.
  - unfold Road.extract_road_info. rewrite Hline. reflexivity.
  - intros e H. rewrite (extract_road_info_spec _ _ _ _ Hline) in H.
    destruct (Spec.build_roads defs _) as [doc_roads | e1] eqn:Hdoc;
      cbn [bind] in H; [discriminate |].
    injection H as <-. apply (build_roads_raises _ _ _ Hdoc).
Qed.

(** The outcome of [create_symbols]: a symbol for every road, or the
    failure of the first colour that does not convert. *)
Lemma create_symbols_outcome :
  forall roads,
    match Road.create_symbols roads with
    | Ok syms =>
        List.length syms = List.length roads
        /\ Forall (fun r => exists rgb, Road.hex_to_rgb (Road.color r) = Ok rgb)
                  roads
    | Raise e =>
        exists earlier r later,
          roads = (earlier ++ r :: later)%list
          /\ Forall (fun r => exists rgb,
                       Road.hex_to_rgb (Road.color r) = Ok rgb) earlier
          /\ Road.hex_to_rgb (Road.color r) = Raise e
    end.
Proof.
  induction roads as [| road roads IH]; cbn [Road.create_symbols].
  - split; [reflexivity | constructor].
  - rewrite road_symbol_shape.
    destruct (Road.hex_to_rgb (Road.color road)) as [main_color | e] eqn:Hc;
      cbn [bind].
    + destruct (Road.create_symbols roads) as [rest | e]; cbn [bind].
      * destruct IH as [Hlen Hall]. split; [simpl; congruence |].
        constructor; [eauto | exact Hall].
      * destruct IH as [earlier [r [later [-> [Hall Hr]]]]].
        exists (road :: earlier), r, later.
        split; [reflexivity |]. split; [| exact Hr].
        constructor; [eauto | exact Hall].
    + exists [], road, roads. split; [reflexivity |].
      split; [constructor | exact Hc].
Qed.

(** X10: the symbols are built for all roads or for none: on success
    there is one symbol per road and every colour converted; a failure is
    the failure of the first road colour that does not convert. *)
Theorem create_symbols_all_or_nothing :
  forall roads : list Road.road_info,
    match Road.create_symbols roads with
    | Ok syms =>
        List.length syms = List.length roads
        /\ Forall (fun r => exists rgb, Road.hex_to_rgb (Road.color r) = Ok rgb)
                  roads
    | Raise e =>
        exists earlier r later,
          roads = (earlier ++ r :: later)%list
          /\ Forall (fun r => exists rgb,
                       Road.hex_to_rgb (Road.color r) = Ok rgb) earlier
          /\ Road.hex_to_rgb (Road.color r) = Raise e
    end.
Proof. exact create_symbols_outcome. Qed.

(** X11: on a parsed document without a [line] element the road
    converter fails with [IndexError], whether or not the output file can
    be written; on a document with one, its failures are [ValueError] and,
    only when the output file cannot be written, [OSError]. *)
Theorem generate_qgis_style_failures :
  forall (writable : string -> bool) (root : node) (output_path : string),
    match select "line" (fun _ => true) (root_ref root) with
    | [] =>
        Road.generate_qgis_style writable root output_path = Raise IndexError
    | _ :: _ =>
        forall e,
          Road.generate_qgis_style writable root output_path = Raise e ->
          e = ValueError \/ (e = OSError /\ writable output_path = false)
    end.
Proof.
  intros writable root output_path. unfold Road.generate_qgis_style.
  pose proof (extract_road_info_raises root
                (Road.extract_color_definitions root)) as Hx.
  destruct (select "line" (fun _ => true) (root_ref root))
    as [| line_section others].
  - rewrite Hx. reflexivity.
  - intros e H.
    destruct (Road.extract_road_info root _) as [roads | e1]; cbn [bind] in H;
      [| injection H as <-; left; apply Hx; reflexivity].
    pose proof (create_symbols_outcome roads) as Hc.
    destruct (Road.create_symbols roads) as [syms | e1]; cbn [bind] in H.
    + destruct (writable output_path); [discriminate |].
      injection H as <-. right. split; reflexivity.
    + injection H as <-. destruct Hc as [_ [r [_ [_ [_ Hr]]]]].
      left. apply (hex_to_rgb_raises _ _ Hr).
Qed.

(** X12: colour conversion fails only with [ValueError], and only on a
    colour that has six characters after its leading hash signs. *)
Theorem hex_to_rgb_failure :
  forall (hex_color : string) (e : exn),
    Road.hex_to_rgb hex_color = Raise e ->
    e = ValueError /\ length (PyStr.lstrip_char "#" hex_color) = 6%nat.
Proof. exact hex_to_rgb_raises. Qed.

Lemma hex_to_rgb_failure_witness :
  ValueError = ValueError /\ length (PyStr.lstrip_char "#" "#zzzzzz") = 6%nat.
Proof.
  apply (hex_to_rgb_failure "#zzzzzz" ValueError). vm_compute. reflexivity.
Defined.

(** ** The supplementary roads *)

(** X13: every run of the road extraction returns at least nine roads;
    each of the nine supplementary values is the value of a road, and when
    no highway case of the zoom-14 switches has that value the road is the
    supplementary one, with its own colour variable and width. *)
Theorem supplementary_roads_present :
  forall (root : node) (defs : Road.dict) (line_section : ref)
         (others : list ref) (roads : list Road.road_info),
    select "line" (fun _ => true) (root_ref root) = line_section :: others ->
    Road.extract_road_info root defs = Ok roads ->
    (9 <= List.length roads)%nat
    /\ forall a,
         In a Road.additional_roads ->
         In (fst (fst a)) (List.map Road.value roads)
         /\ ((forall c, In c (Spec.road_cases line_section) ->
                        Spec.road_value c <> fst (fst a)) ->
             In (Spec.additional_road defs a) roads).
Proof.
  intros root defs line_section others roads Hline H.
  pose proof (road_values_distinct _ _ _ H) as [Hnodup _].
  rewrite (extract_road_info_spec _ _ _ _ Hline) in H.
  destruct (Spec.build_roads defs _) as [doc_roads | e] eqn:Hdoc;
    [| discriminate].
  remember (Spec.dedup_first Spec.road_value [] (Spec.road_cases line_section))
    as kept eqn:Hkept.
  remember (filter
              (fun a : string * string * PyFloat.float =>
                 negb (Road.processed (fst (fst a))
                         (List.map Spec.road_value kept)))
              Road.additional_roads) as adds eqn:Hadds.
  cbn [bind] in H. injection H as <-.
  destruct (build_roads_values _ _ _ Hdoc) as [Hvalues _].
  assert (Hall : forall a,
             In a Road.additional_roads ->
             In (fst (fst a)) (List.map Road.value
                                 (doc_roads
                                  ++ List.map (Spec.additional_road defs) adds))
             /\ ((forall c, In c (Spec.road_cases line_section) ->
                            Spec.road_value c <> fst (fst a)) ->
                 In (Spec.additional_road defs a)
                    (doc_roads ++ List.map (Spec.additional_road defs) adds))).
  { intros a Ha.
    destruct (Road.processed (fst (fst a)) (List.map Spec.road_value kept))
      eqn:Hseen.
    - apply processed_in in Hseen. split.
      + rewrite map_app, Hvalues. apply in_or_app. left. exact Hseen.
      + intros Hnone. exfalso.
        apply in_map_iff in Hseen as [c [Hc Hin]].
        rewrite Hkept in Hin. apply dedup_first_in in Hin.
        apply (Hnone c Hin Hc).
    - assert (Hin : In a adds).
      { rewrite Hadds. apply filter_In. split; [exact Ha |].
        rewrite Hseen. reflexivity. }
      split.
      + rewrite map_app. apply in_or_app. right.
        rewrite map_map. apply in_map_iff. exists a. split; [reflexivity | exact Hin].
      + intros _. apply in_or_app. right. apply in_map. exact Hin. }
  split; [| exact Hall].
  rewrite <- (length_map Road.value).
  change 9%nat
    with (List.length
            (List.map (fun a : string * string * PyFloat.float => fst (fst a))
                      Road.additional_roads)).
  apply NoDup_incl_length; [exact additional_values_distinct |].
  intros v Hv. apply in_map_iff in Hv as [a [<- Ha]].
  apply (Hall a Ha).
Qed.

Lemma supplementary_roads_present_witness :
  exists line_section roads,
    select "line" (fun _ => true) (root_ref Spec.empty_line_document)
    = [line_section]
    /\ Road.extract_road_info Spec.empty_line_document [] = Ok roads
    /\ (9 <= List.length roads)%nat
    /\ forall a,
         In a Road.additional_roads ->
         In (fst (fst a)) (List.map Road.value roads)
         /\ ((forall c, In c (Spec.road_cases line_section) ->
                        Spec.road_value c <> fst (fst a)) ->
             In (Spec.additional_road [] a) roads).
Proof.
  assert (Hline :
            select "line" (fun _ => true) (root_ref Spec.empty_line_document)
            = [mkRef [0%nat] (Element "line" [] EmptyString [] EmptyString)
                     [Spec.empty_line_document]])
    by reflexivity.
  destruct (Road.extract_road_info Spec.empty_line_document [])
    as [roads | e] eqn:H; [| vm_compute in H; discriminate].
  eexists. exists roads.
  split; [exact Hline |]. split; [reflexivity |].
  apply (supplementary_roads_present _ _ _ _ _ Hline H).
Defined.

(** ** The counters of the point converter *)

Lemma step_counts :
  forall lib files st c st',
    Point.step lib files st c = Ok st' ->
    Facts.total (Point.counts st')
    = (Facts.total (Point.counts st)
       + if Point.incomplete c then 0 else 1)%nat
    /\ (Point.processed_count (Point.counts st')
        + List.length (Point.symbols st)
        = Point.processed_count (Point.counts st)
          + List.length (Point.symbols st'))%nat.
Proof.
  intros lib files st c st' H. unfold Point.step in H.
  destruct (Point.incomplete c).
  { injection H as <-. lia. }
  destruct (Point.existing_symbols _ _ _) as [existing | e]; cbn [bind] in H;
    [| discriminate].
  destruct st as [syms [n1 n2 n3 n4]].
  destruct existing.
  { injection H as <-. unfold Facts.total. simpl. lia. }
  destruct (Point.find_shield_value c) as [shield |].
  2: { injection H as <-. unfold Facts.total. simpl. lia. }
  destruct (negb (PyStr.truthy shield)).
  { injection H as <-. unfold Facts.total. simpl. lia. }
  destruct (files _) as [icon |].
  2: { injection H as <-. unfold Facts.total. simpl. lia. }
  destruct (files _) as [sh |].
  2: { injection H as <-. unfold Facts.total. simpl. lia. }
  injection H as <-. unfold Facts.total. simpl. rewrite length_app. simpl. lia.
Qed.

Lemma run_counts :
  forall lib files cases st st',
    Point.run lib files st cases = Ok st' ->
    Facts.total (Point.counts st')
    = (Facts.total (Point.counts st)
       + List.length (filter (fun c => negb (Point.incomplete c)) cases))%nat
    /\ (Point.processed_count (Point.counts st')
        + List.length (Point.symbols st)
        = Point.processed_count (Point.counts st)
          + List.length (Point.symbols st'))%nat.
Proof.
  intros lib files cases. induction cases as [| c cases IH]; intros st st' H;
    simpl in H.
  - injection H as <-. simpl. lia.
  - destruct (Point.step lib files st c) as [st1 | e] eqn:Hstep;
      cbn [bind] in H; [| discriminate].
    destruct (step_counts _ _ _ _ _ Hstep) as [Ht1 Hp1].
    destruct (IH _ _ H) as [Ht Hp]. cbn [filter].
    destruct (Point.incomplete c); simpl; lia.
Qed.

(** X14: when the point converter finishes, its four counters add up to
    the number of point rules, and the count of converted symbols is the
    number of symbols in the output. *)
Theorem counters_account_for_every_rule :
  forall (lib : Point.lxml) (files : string -> option string) (root : node)
         (content : string) (st : Point.state),
    Point.main lib files root = Ok (content, st) ->
    Facts.total (Point.counts st) = List.length (Point.point_rules root)
    /\ Point.processed_count (Point.counts st) = List.length (Point.symbols st).
Proof.
  intros lib files root content st H. unfold Point.main in H.
  destruct (Point.run lib files Point.initial (Point.findall_cases root))
    as [st1 | e] eqn:Hrun; cbn [bind] in H; [| discriminate].
  injection H as _ <-.
  destruct (run_counts _ _ _ _ _ Hrun) as [Ht Hp].
  unfold Point.point_rules. simpl in Ht, Hp. split; lia.
Qed.

Lemma counters_account_for_every_rule_witness :
  exists content st,
    Point.main Spec.plain_lxml Spec.all_files Spec.bench_document
    = Ok (content, st)
    /\ Facts.total (Point.counts st)
       = List.length (Point.point_rules Spec.bench_document)
    /\ Point.processed_count (Point.counts st) = List.length (Point.symbols st).
Proof.
  destruct (Point.main Spec.plain_lxml Spec.all_files Spec.bench_document)
    as [[content st] | e] eqn:H.
  2: { unfold Point.main in H.
       destruct (Point.run _ _ _ _) as [st1 | e1] eqn:Hrun;
         [discriminate | vm_compute in Hrun; discriminate]. }
  exists content, st. split; [reflexivity |].
  apply (counters_account_for_every_rule _ _ _ _ _ H).
Defined.

(** ** Where a point symbol comes from *)

Lemma step_symbols :
  forall lib files st c st',
    Point.step lib files st c = Ok st' ->
    Point.symbols st' = Point.symbols st
    \/ exists symbol,
         Point.symbols st' = (Point.symbols st ++ [symbol])%list
         /\ Point.incomplete c = false /\ Facts.symbol_of files c symbol.
Proof.
  intros lib files st c st' H. unfold Point.step in H.
  destruct (Point.incomplete c) eqn:Hinc.
  { injection H as <-. left. reflexivity. }
  destruct (Point.existing_symbols _ _ _) as [existing | e]; cbn [bind] in H;
    [| discriminate].
  destruct existing.
  { injection H as <-. left. reflexivity. }
  destruct (Point.find_shield_value c) as [shield |] eqn:Hshield.
  2: { injection H as <-. left. reflexivity. }
  destruct (negb (PyStr.truthy shield)) eqn:Htruthy.
  { injection H as <-. left. reflexivity. }
  destruct (files (Point.join Point.icons_dir _)) as [icon |] eqn:Hicon.
  2: { injection H as <-. left. reflexivity. }
  destruct (files (Point.join Point.shields_dir _)) as [sh |] eqn:Hsh.
  2: { injection H as <-. left. reflexivity. }
  injection H as <-. right. eexists. split; [reflexivity |].
  split; [reflexivity |].
  exists shield, icon, sh. split; [exact Hshield |]. split.
  { intros ->. discriminate Htruthy. }
  split; [exact Hicon |]. split; [exact Hsh | reflexivity].
Qed.

Lemma run_symbols :
  forall lib files cases st st',
    Point.run lib files st cases = Ok st' ->
    forall symbol,
      In symbol (Point.symbols st') ->
      In symbol (Point.symbols st)
      \/ exists c, In c cases /\ Point.incomplete c = false
                   /\ Facts.symbol_of files c symbol.
Proof.
  intros lib files cases. induction cases as [| c cases IH];
    intros st st' H symbol Hin; simpl in H.
  - injection H as <-. left. exact Hin.
  - destruct (Point.step lib files st c) as [st1 | e] eqn:Hstep;
      cbn [bind] in H; [| discriminate].
    destruct (IH _ _ H _ Hin) as [Hst1 | [c' [Hc' Hsym]]].
    + destruct (step_symbols _ _ _ _ _ Hstep) as [Hsame | [s [Hadd [Hinc Hs]]]].
      * left. rewrite <- Hsame. exact Hst1.
      * rewrite Hadd in Hst1. apply in_app_or in Hst1 as [Hold | [<- | []]].
        -- left. exact Hold.
        -- right. exists c. split; [left; reflexivity |]. split; assumption.
    + right. exists c'. split; [right; exact Hc' | exact Hsym].
Qed.

(** X15: every symbol of the point output is the symbol of a point rule
    that has a shield that is not empty and whose icon file and shield file
    both exist, named by the tag and the value of the rule and built from
    the contents of the two files. *)
Theorem point_symbols_sound :
  forall (lib : Point.lxml) (files : string -> option string) (root : node)
         (content : string) (st : Point.state) (symbol : node),
    Point.main lib files root = Ok (content, st) ->
    In symbol (Point.symbols st) ->
    exists c, In c (Point.point_rules root) /\ Facts.symbol_of files c symbol.
Proof.
  intros lib files root content st symbol H Hin. unfold Point.main in H.
  destruct (Point.run lib files Point.initial (Point.findall_cases root))
    as [st1 | e] eqn:Hrun; cbn [bind] in H; [| discriminate].
  injection H as _ <-.
  destruct (run_symbols _ _ _ _ _ Hrun _ Hin) as [[] | [c [Hc [Hinc Hs]]]].
  exists c. split; [| exact Hs].
  unfold Point.point_rules. apply filter_In. split; [exact Hc |].
  rewrite Hinc. reflexivity.
Qed.

Lemma point_symbols_sound_witness :
  exists content st symbol,
    Point.main Spec.plain_lxml Spec.all_files Spec.bench_document
    = Ok (content, st)
    /\ In symbol (Point.symbols st)
    /\ exists c, In c (Point.point_rules Spec.bench_document)
                 /\ Facts.symbol_of Spec.all_files c symbol.
Proof.
  destruct (Point.main Spec.plain_lxml Spec.all_files Spec.bench_document)
    as [[content st] | e] eqn:H.
  2: { unfold Point.main in H.
       destruct (Point.run _ _ _ _) as [st1 | e1] eqn:Hrun;
         [discriminate | vm_compute in Hrun; discriminate]. }
  assert (Hsym : exists symbol, In symbol (Point.symbols st)).
  { unfold Point.main in H.
    destruct (Point.run _ _ _ _) as [st1 | e1] eqn:Hrun; [| discriminate].
    cbn [bind] in H. injection H as _ <-.
    vm_compute in Hrun. injection Hrun as <-.
    eexists. left. reflexivity. }
  destruct Hsym as [symbol Hin]. exists content, st, symbol.
  split; [reflexivity |]. split; [exact Hin |].
  apply (point_symbols_sound _ _ _ _ _ _ H Hin).
Defined.

(** ** A case with an empty shield of its own *)

(** X16: a complete case whose own [shield] attribute is empty never
    adds a symbol, whatever its ancestors carry: it is counted as a
    duplicate or as a case without shield. *)
Theorem empty_own_shield_blocks :
  forall (lib : Point.lxml) (files : string -> option string)
         (st st' : Point.state) (c : ref),
    Point.incomplete c = false ->
    get "shield" (attrib_of (self c)) = Some EmptyString ->
    Point.step lib files st c = Ok st' ->
    Point.symbols st' = Point.symbols st
    /\ (st' = Point.bump_duplicates st \/ st' = Point.bump_no_shield st).
Proof.
  intros lib files st st' c Hinc Hown H. unfold Point.step in H.
  rewrite Hinc in H.
  destruct (Point.existing_symbols _ _ _) as [existing | e]; cbn [bind] in H;
    [| discriminate].
  destruct existing.
  { injection H as <-. split; [reflexivity | left; reflexivity]. }
  unfold Point.find_shield_value, has in H. rewrite Hown in H.
  cbn [PyStr.truthy negb] in H.
  injection H as <-. split; [reflexivity | right; reflexivity].
Qed.

Lemma empty_own_shield_blocks_witness :
  Point.symbols (Point.bump_no_shield Point.initial)
  = Point.symbols Point.initial
  /\ (Point.bump_no_shield Point.initial = Point.bump_duplicates Point.initial
      \/ Point.bump_no_shield Point.initial
         = Point.bump_no_shield Point.initial).
Proof.
  apply (empty_own_shield_blocks Spec.plain_lxml Spec.all_files
           Point.initial (Point.bump_no_shield Point.initial) Facts.unshielded_case);
    reflexivity.
Defined.

(** ** A document without point rules *)

Lemma run_incomplete :
  forall lib files cases st,
    (forall c, In c cases -> Point.incomplete c = true) ->
    Point.run lib files st cases = Ok st.
Proof.
  intros lib files cases. induction cases as [| c cases IH]; intros st Hall;
    simpl.
  - reflexivity.
  - unfold Point.step. rewrite (Hall c (or_introl eq_refl)). cbn [bind].
    apply IH. intros c' Hc'. apply Hall. right. exact Hc'.
Qed.

Lemma filter_nil :
  forall (A : Type) (f : A -> bool) (l : list A),
    filter f l = [] -> forall x, In x l -> f x = false.
Proof.
  intros A f l. induction l as [| y l IH]; simpl; intros H x Hx.
  - contradiction.
  - destruct (f y) eqn:Hy; [discriminate |].
    destruct Hx as [<- | Hx]; [exact Hy | apply (IH H x Hx)].
Qed.

(** X17: a document without point rules gives the style document with
    six empty sections under the XML declaration, without a document type
    declaration, and leaves the four counters at zero. *)
Theorem empty_points_document_written :
  forall (lib : Point.lxml) (files : string -> option string) (root : node),
    Point.point_rules root = [] ->
    Point.main lib files root = Ok (Facts.empty_points_document, Point.initial).
Proof.
  intros lib files root Hnone. unfold Point.main.
  rewrite run_incomplete.
  - cbn [bind]. vm_compute. reflexivity.
  - intros c Hc. unfold Point.point_rules in Hnone.
    pose proof (filter_nil _ _ _ Hnone c Hc) as H.
    apply negb_false_iff in H. exact H.
Qed.

Lemma empty_points_document_written_witness :
  Point.main Spec.plain_lxml Spec.all_files Spec.empty_line_document
  = Ok (Facts.empty_points_document, Point.initial).
Proof.
  apply (empty_points_document_written Spec.plain_lxml Spec.all_files
           Spec.empty_line_document); reflexivity.
Defined.

(** ** Completeness of the pattern search *)

Lemma until_quote_app :
  forall v r, exists v', Road.until_quote (v ++ dquote ++ r) = Some v'.
Proof.
  induction v as [| c v IH]; intros r.
  - exists EmptyString. reflexivity.
  - destruct (IH r) as [v' Hv']. cbn [append Road.until_quote].
    destruct (Ascii.eqb c "034"); [eauto |].
    rewrite Hv'. simpl. eauto.
Qed.

(** X18: the pattern search finds a value in every text in which the
    pattern is followed by a quoted text. *)
Theorem re_search_complete :
  forall attr_pattern s v : string,
    Spec.within (attr_pattern ++ dquote ++ v ++ dquote) s ->
    exists v', Road.re_search attr_pattern s = Some v'.
Proof.
  intros p s v [a [b ->]]. induction a as [| c a IH]; rewrite re_search_unfold.
  - assert (Hm : exists v',
               Road.match_here p
                 (EmptyString ++ (p ++ dquote ++ v ++ dquote) ++ b) = Some v').
    { unfold Road.match_here.
      replace (EmptyString ++ (p ++ dquote ++ v ++ dquote) ++ b)
        with ((p ++ dquote) ++ v ++ dquote ++ b)
        by (cbn [append]; rewrite !append_assoc; reflexivity).
      assert (Hpre : prefix (p ++ dquote) ((p ++ dquote) ++ v ++ dquote ++ b)
                     = true) by (apply prefix_iff; eauto).
      rewrite Hpre.
      replace (length p + 1)%nat with (length (p ++ dquote)).
      2: { clear. induction p; simpl; [reflexivity | congruence]. }
      rewrite drop_app. apply until_quote_app. }
    destruct Hm as [v' ->]. eauto.
  - destruct (Road.match_here p _) as [v' |]; [eauto |].
    cbn [append]. exact IH.
Qed.

Lemma re_search_complete_witness :
  exists v', Road.re_search "strokeWidth="
               (tostring (self Spec.rule_zoom_12)) = Some v'.
Proof.
  apply (re_search_complete "strokeWidth=" _ "3").
  apply contains_iff. vm_compute. reflexivity.
Defined.

(** ** A line section without highway cases *)

Lemma filter_nothing_processed :
  forall l : list (string * string * PyFloat.float),
    filter (fun a => negb (Road.processed (fst (fst a)) [])) l = l.
Proof.
  induction l as [| a l IH]; cbn [filter].
  - reflexivity.
  - change (Road.processed (fst (fst a)) []) with false. cbn [negb].
    rewrite IH. reflexivity.
Qed.

(** X19: when the zoom-14 switches of the line section hold no highway
    case with a value and a colour, the roads are the nine supplementary
    roads, in their order. *)
Theorem curated_roads_only :
  forall (root : node) (defs : Road.dict) (line_section : ref)
         (others : list ref),
    select "line" (fun _ => true) (root_ref root) = line_section :: others ->
    Spec.road_cases line_section = [] ->
    Road.extract_road_info root defs
    = Ok (List.map (Spec.additional_road defs) Road.additional_roads).
Proof.
  intros root defs line_section others Hline Hnone.
  rewrite (extract_road_info_spec _ _ _ _ Hline), Hnone.
  cbn [Spec.dedup_first Spec.build_roads bind List.map app].
  rewrite filter_nothing_processed. reflexivity.
Qed.

Lemma curated_roads_only_witness :
  Road.extract_road_info Spec.empty_line_document []
  = Ok (List.map (Spec.additional_road []) Road.additional_roads).
Proof.
  apply (curated_roads_only Spec.empty_line_document []
           (mkRef [0%nat] (Element "line" [] EmptyString [] EmptyString)
                  [Spec.empty_line_document]) []);
    reflexivity.
Defined.

(** ** The head of the points document *)

(** X20: the declaration written to the points document has the encoding
    in upper case, so the replace that is to add the document type
    declaration finds nothing at the head of the document: the root
    element follows the XML declaration directly. *)
Theorem points_output_lacks_doctype :
  forall (lib : Point.lxml) (files : string -> option string) (root : node)
         (content : string) (st : Point.state),
    Point.main lib files root = Ok (content, st) ->
    exists rest,
      content
      = "<?xml version='1.0' encoding='UTF-8'?>" ++ PyStr.nl
        ++ "<qgis_style version=" ++ rest.
Proof.
  intros lib files root content st H. unfold Point.main in H.
  destruct (Point.run lib files Point.initial (Point.findall_cases root))
    as [st1 | e]; cbn [bind] in H; [| discriminate].
  injection H as <- _. apply point_output_head.
Qed.

Lemma points_output_lacks_doctype_witness :
  exists content st rest,
    Point.main Spec.plain_lxml Spec.all_files Spec.bench_document
    = Ok (content, st)
    /\ content
       = "<?xml version='1.0' encoding='UTF-8'?>" ++ PyStr.nl
         ++ "<qgis_style version=" ++ rest.
Proof.
  destruct (Point.main Spec.plain_lxml Spec.all_files Spec.bench_document)
    as [[content st] | e] eqn:H.
  2: { unfold Point.main in H.
       destruct (Point.run _ _ _ _) as [st1 | e1] eqn:Hrun;
         [discriminate | vm_compute in Hrun; discriminate]. }
  destruct (points_output_lacks_doctype _ _ _ _ _ H) as [rest Hrest].
  exists content, st, rest. split; [reflexivity | exact Hrest].
Defined.
